(** * SP3CTRUN backtest engine: a shallow embedding and its properties

    The development follows [trading_agents/backtest/engine.py] (the
    simulation driver and the tiered rebalancing strategy),
    [trading_agents/backtest/universe.py] (universe validation and the price
    table) and the scoring functions of [trading_agents/agents/analyst.py].
    Python floats are read as exact rationals ([Q]), except in the sort key
    of the signals, where two keys are compared: there the product is the
    rounded one of the platform.  A [pd.Timestamp] of the daily price index
    is a calendar date; where the source passes the formatted [date_str]
    the date itself is passed.  Of what the engine prints when [verbose] is
    set only what can raise is kept: the line that formats the score of a
    signal after its purchase. *)

From Stdlib Require Import QArith Qround Lqa.
From stdpp Require Import gmap strings list fin_maps sorting.

Local Open Scope Z_scope.

(* ===================================================================== *)
(** ** Calendar dates *)
(* ===================================================================== *)

Record Timestamp := mkDate { year : Z; month : Z; day : Z }.

Global Instance Timestamp_eq_dec : EqDecision Timestamp.
Proof. solve_decision. Defined.

(** Days since 1970-01-01 in the proleptic Gregorian calendar. *)
Definition days_from_civil (d : Timestamp) : Z :=
  let y := if decide (month d <= 2) then year d - 1 else year d in
  let era := y `div` 400 in
  let yoe := y - era * 400 in
  let mp := (month d + 9) `mod` 12 in
  let doy := (153 * mp + 2) `div` 5 + day d - 1 in
  let doe := yoe * 365 + yoe `div` 4 - yoe `div` 100 + doy in
  era * 146097 + doe - 719468.

(** [Timestamp.weekday()]: Monday is 0, Sunday is 6. *)
Definition weekday (d : Timestamp) : Z := (days_from_civil d + 3) `mod` 7.

(* ===================================================================== *)
(** ** Outcomes of fallible code *)
(* ===================================================================== *)

(** The exceptions the engine raises itself are all [ValueError]s; they are
    told apart by the place that raises them rather than by message text.
    The others are the interpreter's own: [AttributeError] for reading
    [self.price_data.index] while [price_data] is still [None], [TypeError]
    for iterating [universe_tickers] while it is [None] and for formatting
    a score that is [None] as a float, [ZeroDivisionError] for a float division by zero, and [KeyError] for
    [price_data.loc[date]] on a date that is not in the index. *)
Inductive Exception :=
| UniverseTooSmall (n : nat)
| PriceDownloadFailed
| InvalidFrequency (freq : string)
| AttributeError
| TypeError
| ZeroDivisionError
| KeyError.

Inductive Outcome (A : Type) :=
| Returns (a : A)
| Raises (e : Exception).
Arguments Returns {A} a.
Arguments Raises {A} e.

(* ===================================================================== *)
(** ** universe.py *)
(* ===================================================================== *)

Module Universe.

(** The [Close] column of one download: date-indexed, [None] is NaN. *)
Definition Series := list (Timestamp * option Q).

(** [_safe_download_single] wraps two network calls; its result is the
    environment's: [None] when both methods fail (a [RuntimeError]). *)
Definition Downloader := string → string → string → option Series.

Definition LIQUID_STOCKS_B3 : list string :=
  [ "PETR3.SA"; "PETR4.SA"; "PRIO3.SA";
    "VALE3.SA"; "CSNA3.SA"; "GGBR4.SA";
    "ITUB4.SA"; "BBDC4.SA"; "BBAS3.SA"; "SANB11.SA"; "BBDC3.SA";
    "MGLU3.SA"; "LREN3.SA"; "AMER3.SA";
    "ELET3.SA"; "ELET6.SA"; "CPFE3.SA"; "CMIG4.SA";
    "ABEV3.SA"; "BRFS3.SA";
    "VIVT3.SA"; "TIMS3.SA";
    "SUZB3.SA";
    "CYRE3.SA"; "MRVE3.SA";
    "WEGE3.SA"; "RADL3.SA"; "B3SA3.SA"; "RENT3.SA"; "EMBR3.SA" ]%string.

Definition is_nan (c : option Q) : bool :=
  match c with None => true | Some _ => false end.

Definition is_positive (c : option Q) : bool :=
  match c with Some q => negb (Qle_bool q 0) | None => false end.

Definition count {A} (f : A → bool) (l : list A) : Z :=
  Z.of_nat (length (List.filter f l)).

(** The three validations of one ticker in [get_universe]; the two
    ratios are compared as exact rationals. *)
Definition ticker_is_valid (min_data_points : Z) (df : Series) : bool :=
  let num_points := Z.of_nat (length df) in
  if decide (num_points < min_data_points) then false
  else
    let nan_count := count is_nan (df.*2) in
    let nan_pct := (inject_Z nan_count / inject_Z num_points)%Q in
    if negb (Qle_bool nan_pct (1 # 10)) then false
    else
      let positive_prices := count is_positive (df.*2) in
      if negb (Qle_bool (inject_Z num_points * (95 # 100)) (inject_Z positive_prices))
      then false
      else true.

(** The loop over the candidates appends a ticker to [valid_tickers] when
    its download succeeds and passes the validations. *)
Definition get_universe (download : Downloader)
    (start_date end_date : string) (min_data_points : Z) : list string :=
  flat_map
    (λ ticker,
       match download ticker start_date end_date with
       | Some df => if ticker_is_valid min_data_points df then [ticker] else []
       | None => []
       end)
    LIQUID_STOCKS_B3.

(** *** The price table *)

(** The frame while [get_price_data] builds it: columns aligned on one
    index, cells possibly NaN. *)
Record RawFrame := mkRaw {
  raw_index : list Timestamp;
  raw_cols : list (string * list (option Q))
}.

Definition empty_frame : RawFrame := mkRaw [] [].

Fixpoint series_at (s : Series) (d : Timestamp) : option Q :=
  match s with
  | [] => None
  | (d', v) :: s' => if decide (d' = d) then v else series_at s' d
  end.

Fixpoint replace_col (name : string) (col : list (option Q))
    (cols : list (string * list (option Q))) : option (list (string * list (option Q))) :=
  match cols with
  | [] => None
  | (n, c) :: cols' =>
      if decide (n = name) then Some ((n, col) :: cols')
      else (λ r, (n, c) :: r) <$> replace_col name col cols'
  end.

(** [prices[ticker] = df['Close']]: the first column gives the frame its
    index, later ones are aligned on it (dates they lack become NaN); a
    repeated name overwrites its column. *)
Definition set_column (f : RawFrame) (name : string) (s : Series) : RawFrame :=
  match raw_cols f with
  | [] => mkRaw (s.*1) [(name, s.*2)]
  | _ =>
      let col := map (series_at s) (raw_index f) in
      match replace_col name col (raw_cols f) with
      | Some cols => mkRaw (raw_index f) cols
      | None => mkRaw (raw_index f) (raw_cols f ++ [(name, col)])
      end
  end.

(** The cleaned table: no NaN is left, so a row is a finite map from the
    column names to prices ([price_data.loc[date].to_dict()]). *)
Record DataFrame := mkFrame {
  columns : list string;
  rows : list (Timestamp * gmap string Q)
}.

Definition index (df : DataFrame) : list Timestamp := (rows df).*1.

(** [DataFrame.empty]: some axis has length 0. *)
Definition empty (df : DataFrame) : bool :=
  bool_decide (columns df = [] ∨ rows df = []).

Fixpoint loc (rs : list (Timestamp * gmap string Q)) (d : Timestamp)
    : option (gmap string Q) :=
  match rs with
  | [] => None
  | (d', r) :: rs' => if decide (d' = d) then Some r else loc rs' d
  end.

Definition RawRow : Type := Timestamp * list (option Q).

Definition raw_rows (f : RawFrame) : list RawRow :=
  imap (λ i d, (d, map (λ c, default None (c.2 !! i)) (raw_cols f))) (raw_index f).

(** [dropna(how='all')] *)
Definition dropna_all (rs : list RawRow) : list RawRow :=
  List.filter (λ r, negb (forallb is_nan r.2)) rs.

(** [fillna(method='ffill')] *)
Definition fill_from (prev cur : list (option Q)) : list (option Q) :=
  zip_with (λ p c, match c with Some _ => c | None => p end) prev cur.

Fixpoint ffill_from (prev : list (option Q)) (rs : list RawRow) : list RawRow :=
  match rs with
  | [] => []
  | (d, cells) :: rs' =>
      let cells' := fill_from prev cells in
      (d, cells') :: ffill_from cells' rs'
  end.

Definition ffill (rs : list RawRow) : list RawRow :=
  match rs with
  | [] => []
  | r :: rs' => r :: ffill_from r.2 rs'
  end.

(** [dropna()]: rows that still hold a NaN go; what stays has a price in
    every column. *)
Fixpoint all_prices (cells : list (option Q)) : option (list Q) :=
  match cells with
  | [] => Some []
  | Some q :: cells' => (λ qs, q :: qs) <$> all_prices cells'
  | None :: _ => None
  end.

Definition dropna (names : list string) (rs : list RawRow)
    : list (Timestamp * gmap string Q) :=
  omap (λ r : RawRow,
          (λ qs, (r.1, list_to_map (zip names qs))) <$> all_prices r.2) rs.

Definition get_price_data (download : Downloader)
    (tickers : list string) (start_date end_date : string) : DataFrame :=
  let prices :=
    foldl (λ prices ticker,
             match download ticker start_date end_date with
             | Some df => set_column prices ticker df
             | None => prices
             end)
          empty_frame tickers in
  let names := (raw_cols prices).*1 in
  if decide (0 < length names)%nat then
    mkFrame names (dropna names (ffill (dropna_all (raw_rows prices))))
  else
    mkFrame [] [].

End Universe.

(* ===================================================================== *)
(** ** The portfolio ledger ([backtest/portifolio.py]) *)
(* ===================================================================== *)

Module Ledger.

(** Modelled from the spec: the action of a [Trade] (the module
    [backtest/portifolio.py], which holds the ledger, is not part of the
    sources at hand). *)
Inductive Action := BUY | SELL.

(** Modelled from the spec: the reasons a [Trade] carries. *)
Inductive Reason := REBALANCE | HOLD_EXPOSURE | NO_SIGNAL | STOP_LOSS | TAKE_PROFIT.

Global Instance Reason_eq_dec : EqDecision Reason.
Proof. solve_decision. Defined.

Global Instance Action_eq_dec : EqDecision Action.
Proof. solve_decision. Defined.

(** Modelled from the spec: the [Position] record of the ledger.  A stop
    or take-profit level may be absent, as the engine passes on whatever
    the signal carries. *)
Record Position := mkPosition {
  ticker : string;
  shares : Z;
  entry_price : Q;
  entry_date : Timestamp;
  stop_loss : option Q;
  take_profit : option Q;
  current_price : Q
}.

(** Modelled from the spec: the [Trade] record of the ledger; [pnl] is set
    on a SELL only. *)
Record Trade := mkTrade {
  trade_id : nat;
  trade_ticker : string;
  action : Action;
  trade_shares : Z;
  price : Q;
  date : Timestamp;
  commission : Q;
  reason : Reason;
  pnl : option Q
}.

(** Modelled from the spec: the daily [Snapshot] record of the ledger. *)
Record Snapshot := mkSnapshot {
  snap_date : Timestamp;
  snap_cash : Q;
  snap_positions_value : Q;
  snap_total_value : Q;
  snap_exposure : Q;
  daily_return : Q
}.

(** Modelled from the spec: the ledger state, that is the [PortfolioConfig]
    fields, cash, the position map and the two append-only logs. *)
Record Portfolio := mkPortfolio {
  initial_capital : Q;
  commission_pct : Q;
  min_position_size : Q;
  max_position_size : Q;
  cash : Q;
  positions : gmap string Position;
  trades : list Trade;
  history : list Snapshot
}.

(** Modelled from the spec: the ledger is created with the initial capital
    as cash and no position. *)
Definition create (initial_capital commission_pct min_position_size max_position_size : Q)
    : Portfolio :=
  mkPortfolio initial_capital commission_pct min_position_size max_position_size
    initial_capital ∅ [] [].

(** Field updates of the two records above. *)
Definition set_cash (c : Q) (p : Portfolio) : Portfolio :=
  mkPortfolio (initial_capital p) (commission_pct p) (min_position_size p)
    (max_position_size p) c (positions p) (trades p) (history p).

Definition set_positions (m : gmap string Position) (p : Portfolio) : Portfolio :=
  mkPortfolio (initial_capital p) (commission_pct p) (min_position_size p)
    (max_position_size p) (cash p) m (trades p) (history p).

Definition add_trade (t : Trade) (p : Portfolio) : Portfolio :=
  mkPortfolio (initial_capital p) (commission_pct p) (min_position_size p)
    (max_position_size p) (cash p) (positions p) (trades p ++ [t]) (history p).

Definition add_snapshot (s : Snapshot) (p : Portfolio) : Portfolio :=
  mkPortfolio (initial_capital p) (commission_pct p) (min_position_size p)
    (max_position_size p) (cash p) (positions p) (trades p) (history p ++ [s]).

Definition set_current_price (c : Q) (pos : Position) : Position :=
  mkPosition (ticker pos) (shares pos) (entry_price pos) (entry_date pos)
    (stop_loss pos) (take_profit pos) c.

(** Modelled from the spec: the sum of [shares × current_price] over the
    open positions. *)
Definition positions_value (p : Portfolio) : Q :=
  map_fold (λ _ pos acc, (acc + inject_Z (shares pos) * current_price pos)%Q) 0%Q
    (positions p).

(** Modelled from the spec: [total_value = cash + positions_value]. *)
Definition total_value (p : Portfolio) : Q := (cash p + positions_value p)%Q.

(** Modelled from the spec: [exposure = 100 × positions_value / total_value]. *)
Definition exposure (p : Portfolio) : Q :=
  (100 * positions_value p / total_value p)%Q.

(** Modelled from the spec: [updatePrices] sets the current price of every
    held position from the map; a held ticker the map lacks keeps its last
    price, and tickers without a position are ignored. *)
Definition update_prices (price_by_ticker : gmap string Q) (p : Portfolio) : Portfolio :=
  set_positions
    (map_imap (λ t pos, Some (match price_by_ticker !! t with
                              | Some c => set_current_price c pos
                              | None => pos
                              end))
              (positions p))
    p.

(** Modelled from the spec: [applySelicToCash] is [cash *= (1 + dailyRate)]. *)
Definition apply_selic_to_cash (date : Timestamp) (daily_rate : Q) (p : Portfolio)
    : Portfolio :=
  set_cash (cash p * (1 + daily_rate))%Q p.

(** Modelled from the spec: [sell] is a no-op returning none for a ticker
    that is not held or a price [≤ 0]; otherwise it credits
    [gross − commission], removes the position and appends the trade. *)
Definition sell (tk : string) (price : Q) (date : Timestamp) (reason : Reason)
    (p : Portfolio) : Portfolio * option Trade :=
  match positions p !! tk with
  | None => (p, None)
  | Some pos =>
      if Qle_bool price 0 then (p, None)
      else
        let gross := (inject_Z (shares pos) * price)%Q in
        let commission := (gross * commission_pct p)%Q in
        let trade :=
          mkTrade (length (trades p)) tk SELL (shares pos) price date commission reason
            (Some (gross - commission - entry_price pos * inject_Z (shares pos))%Q) in
        (add_trade trade
           (set_positions (delete tk (positions p))
              (set_cash (cash p + (gross - commission))%Q p)),
         Some trade)
  end.

(** Modelled from the spec: clamping into [[lo, hi]]. *)
Definition clamp (lo hi x : Q) : Q :=
  if Qle_bool x lo then lo else if Qle_bool hi x then hi else x.

(** Modelled from the spec: [buy] clamps the target percentage into
    [[minPositionSize, maxPositionSize]] (the bounds are read in the unit of
    the target, as the spec writes them), sizes the position at
    [floor(targetPct/100 × totalValue / price)] shares, and is a no-op
    returning none when the ticker is held, the price is [≤ 0], fewer than
    one share results, or cash does not cover cost plus commission. *)
Definition buy (tk : string) (price target_pct : Q) (date : Timestamp)
    (stop_loss take_profit : option Q) (reason : Reason)
    (p : Portfolio) : Portfolio * option Trade :=
  let target_pct := clamp (min_position_size p) (max_position_size p) target_pct in
  let target_value := (target_pct / 100 * total_value p)%Q in
  let shares := Qfloor (target_value / price) in
  let cost := (inject_Z shares * price)%Q in
  match positions p !! tk with
  | Some _ => (p, None)
  | None =>
      if Qle_bool price 0 then (p, None)
      else if decide (shares < 1) then (p, None)
      else if negb (Qle_bool (cost * (1 + commission_pct p)) (cash p)) then (p, None)
      else
        let commission := (cost * commission_pct p)%Q in
        let trade :=
          mkTrade (length (trades p)) tk BUY shares price date commission reason None in
        (add_trade trade
           (set_positions
              (<[tk := mkPosition tk shares price date stop_loss take_profit price]>
                 (positions p))
              (set_cash (cash p - (cost + commission))%Q p)),
         Some trade)
  end.

(** Modelled from the spec: which exit, if any, a position's current price
    triggers; the stop loss is looked at first. *)
Definition stop_reason (pos : Position) : option Reason :=
  match stop_loss pos with
  | Some sl =>
      if Qle_bool (current_price pos) sl then Some STOP_LOSS
      else match take_profit pos with
           | Some tp => if Qle_bool tp (current_price pos) then Some TAKE_PROFIT else None
           | None => None
           end
  | None =>
      match take_profit pos with
      | Some tp => if Qle_bool tp (current_price pos) then Some TAKE_PROFIT else None
      | None => None
      end
  end.

(** Modelled from the spec: the held tickers in ascending order, the
    fixed order in which the stop check visits them. *)
Definition tickers_ascending (m : gmap string Position) : list string :=
  merge_sort (λ a b, String.leb a b) (elements (dom m)).

(** Modelled from the spec: [checkStops] walks the positions held at the
    call in ascending ticker order and sells, at its current price, each
    one whose stop loss or take profit is reached. *)
Definition check_stops (date : Timestamp) (p : Portfolio) : Portfolio :=
  foldl
    (λ acc tk,
       match positions p !! tk with
       | Some pos =>
           match stop_reason pos with
           | Some r => (sell tk (current_price pos) date r acc).1
           | None => acc
           end
       | None => acc
       end)
    p (tickers_ascending (positions p)).

(** Modelled from the spec: [recordState] appends the day's snapshot; the
    daily return is [total_today / total_yesterday − 1], 0 on the first
    recorded day. *)
Definition record_state (date : Timestamp) (p : Portfolio) : Portfolio :=
  let ret :=
    match last (history p) with
    | Some prev => (total_value p / snap_total_value prev - 1)%Q
    | None => 0%Q
    end in
  add_snapshot
    (mkSnapshot date (cash p) (positions_value p) (total_value p) (exposure p) ret) p.

End Ledger.

(* ===================================================================== *)
(** ** engine.py *)
(* ===================================================================== *)

Module Engine.

(** [models.schemas.Verdict], with the members the sources use. *)
Inductive Verdict := BUY | HOLD | SELL.

Global Instance Verdict_eq_dec : EqDecision Verdict.
Proof. solve_decision. Defined.

(** What [run_trading_pipeline] hands back: the fields of the pipeline
    state that [run_agents_for_ticker] reads. *)
Record SeniorDecision := mkSenior {
  final_verdict : Verdict;
  sd_position_size : option Q;
  sd_confidence : option Q;
  sd_stop_loss : option Q;
  sd_take_profit : option Q
}.

Record AnalystReport := mkReport { score : option Q }.

Record PipelineState := mkState {
  pipeline_status : string;
  senior_decision : option SeniorDecision;
  analyst_report : option AnalystReport
}.

(** One call of the external pipeline either returns a state or raises an
    [Exception] (the text is all the engine looks at). *)
Inductive PipelineResult :=
| PipelineReturns (state : PipelineState)
| PipelineRaises (message : string).

(** The collaborators the engine calls but does not own, and the two
    choices of the interpreter its results depend on: the rounded product
    of two floats, of which only that a zero factor gives zero is used,
    and the order in which a [for] loop walks a set of strings, which is
    some enumeration of the set (it changes with the hash seed). *)
Record World := mkWorld {
  download : Universe.Downloader;
  run_trading_pipeline : string → Timestamp → PipelineResult;
  get_cdi_data : string → string → list (Timestamp * Q);
  float_mul : Q → Q → Q;
  float_mul_0_l : ∀ x, (float_mul 0 x == 0)%Q;
  float_mul_0_r : ∀ x, (float_mul x 0 == 0)%Q;
  set_order : gset string → list string;
  set_order_enumerates : ∀ X, set_order X ≡ₚ elements X
}.

(** The dict [run_agents_for_ticker] returns; fields are its keys. *)
Record Decision := mkDecision {
  ticker : string;
  verdict : Verdict;
  position_size : option Q;
  confidence : option Q;
  stop_loss : option Q;
  take_profit : option Q;
  analyst_score : option Q
}.

(** Ghost state: every call the engine makes on [self.portfolio], in the
    order made.  The ledger itself does not see it. *)
Inductive LedgerCall :=
| CallUpdatePrices (current_prices : gmap string Q)
| CallApplySelic (date : Timestamp) (daily_rate : Q)
| CallCheckStops (date : Timestamp)
| CallSell (ticker : string) (price : Q) (date : Timestamp) (reason : Ledger.Reason)
| CallBuy (ticker : string) (price target_pct : Q) (date : Timestamp)
    (stop_loss take_profit : option Q) (reason : Ledger.Reason)
| CallRecordState (date : Timestamp).

Record BacktestEngine := mkEngine {
  start_date : string;
  end_date : string;
  rebalance_frequency : string;
  verbose : bool;
  portfolio : Ledger.Portfolio;
  universe_tickers : option (list string);
  price_data : option Universe.DataFrame;
  cdi_data : option (list (Timestamp * Q));
  decisions_history : list Decision;
  rebalance_dates : list Timestamp;
  ledger_calls : list LedgerCall
}.

(** [BacktestEngine.__init__] *)
Definition init (initial_capital : Q) (start_date end_date : string)
    (rebalance_frequency : string) (universe_tickers : option (list string))
    (commission_pct min_position_size max_position_size : Q) (verbose : bool)
    : BacktestEngine :=
  mkEngine start_date end_date rebalance_frequency verbose
    (Ledger.create initial_capital commission_pct min_position_size max_position_size)
    universe_tickers None None [] [] [].

Definition set_portfolio (p : Ledger.Portfolio) (s : BacktestEngine) : BacktestEngine :=
  mkEngine (start_date s) (end_date s) (rebalance_frequency s) (verbose s)
    p (universe_tickers s)
    (price_data s) (cdi_data s) (decisions_history s) (rebalance_dates s) (ledger_calls s).

Definition set_universe_tickers (u : option (list string)) (s : BacktestEngine)
    : BacktestEngine :=
  mkEngine (start_date s) (end_date s) (rebalance_frequency s) (verbose s)
    (portfolio s) u
    (price_data s) (cdi_data s) (decisions_history s) (rebalance_dates s) (ledger_calls s).

Definition set_price_data (d : option Universe.DataFrame) (s : BacktestEngine)
    : BacktestEngine :=
  mkEngine (start_date s) (end_date s) (rebalance_frequency s) (verbose s)
    (portfolio s)
    (universe_tickers s) d (cdi_data s) (decisions_history s) (rebalance_dates s)
    (ledger_calls s).

Definition set_cdi_data (c : option (list (Timestamp * Q))) (s : BacktestEngine)
    : BacktestEngine :=
  mkEngine (start_date s) (end_date s) (rebalance_frequency s) (verbose s)
    (portfolio s)
    (universe_tickers s) (price_data s) c (decisions_history s) (rebalance_dates s)
    (ledger_calls s).

Definition save_decisions (ds : list Decision) (d : Timestamp) (s : BacktestEngine)
    : BacktestEngine :=
  mkEngine (start_date s) (end_date s) (rebalance_frequency s) (verbose s)
    (portfolio s)
    (universe_tickers s) (price_data s) (cdi_data s) (decisions_history s ++ ds)
    (rebalance_dates s ++ [d]) (ledger_calls s).

Definition log_call (c : LedgerCall) (s : BacktestEngine) : BacktestEngine :=
  mkEngine (start_date s) (end_date s) (rebalance_frequency s) (verbose s)
    (portfolio s)
    (universe_tickers s) (price_data s) (cdi_data s) (decisions_history s)
    (rebalance_dates s) (ledger_calls s ++ [c]).

(** *** Methods run on [self] and may raise *)

Definition M (A : Type) : Type := BacktestEngine → Outcome A * BacktestEngine.

Definition ret {A} (a : A) : M A := λ s, (Returns a, s).

Definition bind {A B} (m : M A) (k : A → M B) : M B :=
  λ s, match m s with
       | (Returns a, s') => k a s'
       | (Raises e, s') => (Raises e, s')
       end.

Definition raise {A} (e : Exception) : M A := λ s, (Raises e, s).

Definition get : M BacktestEngine := λ s, (Returns s, s).

Definition modify (f : BacktestEngine → BacktestEngine) : M unit :=
  λ s, (Returns tt, f s).

Declare Scope engine_scope.
Delimit Scope engine_scope with engine.
Notation "'let*' x := m 'in' k" := (bind m (λ x, k))
  (at level 10, x name, m at level 100, k at level 200) : engine_scope.
Notation "m ;; k" := (bind m (λ _, k))
  (at level 100, k at level 200, right associativity) : engine_scope.
Local Open Scope engine_scope.

Fixpoint for_each {A} (l : list A) (body : A → M unit) : M unit :=
  match l with
  | [] => ret tt
  | x :: l' => body x ;; for_each l' body
  end.

Definition from_option {A} (o : option A) (e : Exception) : M A :=
  match o with Some a => ret a | None => raise e end.

(** A method call on [self.portfolio]: it acts on the ledger and is
    entered in the ghost log. *)
Definition call {A} (c : LedgerCall) (op : Ledger.Portfolio → Ledger.Portfolio * A)
    : M A :=
  λ s, let '(p, a) := op (portfolio s) in
       (Returns a, log_call c (set_portfolio p s)).

Definition unit_op (f : Ledger.Portfolio → Ledger.Portfolio)
    : Ledger.Portfolio → Ledger.Portfolio * unit :=
  λ p, (f p, tt).

(** [self.price_data], which is [None] until [prepare_data] has run. *)
Definition the_price_data : M Universe.DataFrame :=
  let* self := get in from_option (price_data self) AttributeError.

(** [self.price_data.loc[date].to_dict()] *)
Definition price_row (date : Timestamp) : M (gmap string Q) :=
  let* df := the_price_data in
  from_option (Universe.loc (Universe.rows df) date) KeyError.

Definition prepare_data (w : World) : M unit :=
  let* self := get in
  match universe_tickers self with
  | None =>
      let universe :=
        Universe.get_universe (download w) (start_date self) (end_date self) 400 in
      modify (set_universe_tickers (Some universe)) ;;
      if decide (length universe < 10)%nat
      then raise (UniverseTooSmall (length universe))
      else ret tt
  | Some _ => ret tt
  end ;;
  let* self := get in
  let* tickers := from_option (universe_tickers self) TypeError in
  let prices :=
    Universe.get_price_data (download w) tickers (start_date self) (end_date self) in
  modify (set_price_data (Some prices)) ;;
  if Universe.empty prices then raise PriceDownloadFailed
  else
    modify (set_cdi_data (Some (get_cdi_data w (start_date self) (end_date self)))).

Fixpoint first_days (current_month : option Z) (all_dates : list Timestamp)
    : list Timestamp :=
  match all_dates with
  | [] => []
  | date :: rest =>
      if decide (Some (month date) ≠ current_month)
      then date :: first_days (Some (month date)) rest
      else first_days current_month rest
  end.

Definition year_quarter (date : Timestamp) : Z * Z :=
  let quarter := (month date - 1) `div` 3 in
  (year date, quarter).

Fixpoint quarterly_dates (current_quarter : option (Z * Z)) (all_dates : list Timestamp)
    : list Timestamp :=
  match all_dates with
  | [] => []
  | date :: rest =>
      if decide (Some (year_quarter date) ≠ current_quarter)
      then date :: quarterly_dates (Some (year_quarter date)) rest
      else quarterly_dates current_quarter rest
  end.

Definition get_rebalance_dates : M (list Timestamp) :=
  let* self := get in
  if decide (rebalance_frequency self = "weekly") then
    let* df := the_price_data in
    let all_dates := Universe.index df in
    ret (List.filter (λ d, bool_decide (weekday d = 0)) all_dates)
  else if decide (rebalance_frequency self = "monthly") then
    let* df := the_price_data in
    ret (first_days None (Universe.index df))
  else if decide (rebalance_frequency self = "quarterly") then
    let* df := the_price_data in
    ret (quarterly_dates None (Universe.index df))
  else
    raise (InvalidFrequency (rebalance_frequency self)).

(** The [try] block catches whatever the pipeline raises. *)
Definition run_agents_for_ticker (w : World) (ticker : string) (as_of : Timestamp)
    : option Decision :=
  match run_trading_pipeline w ticker as_of with
  | PipelineReturns state =>
      match senior_decision state with
      | Some sd =>
          if decide (pipeline_status state = "completed") then
            Some (mkDecision ticker (final_verdict sd) (sd_position_size sd)
                    (sd_confidence sd) (sd_stop_loss sd) (sd_take_profit sd)
                    (match analyst_report state with
                     | Some r => score r
                     | None => None
                     end))
          else None
      | None => None
      end
  | PipelineRaises _ => None
  end.

(** The sort key [(x['analyst_score'] or 0) * (x['confidence'] or 0)], a
    product of floats. *)
Definition quality (w : World) (x : Decision) : Q :=
  float_mul w (default 0%Q (analyst_score x)) (default 0%Q (confidence x)).

(** [list.sort(key=..., reverse=True)]: a stable sort, largest key first;
    of two entries with equal keys the earlier one stays in front. *)
Fixpoint insert_desc {A} (key : A → Q) (x : A) (l : list A) : list A :=
  match l with
  | [] => [x]
  | y :: l' =>
      if Qle_bool (key y) (key x) then x :: y :: l'
      else y :: insert_desc key x l'
  end.

Definition sort_desc {A} (key : A → Q) (l : list A) : list A :=
  foldr (insert_desc key) [] l.

Definition analyse (w : World) (tickers : list string) (date : Timestamp)
    : list Decision :=
  omap (λ ticker, run_agents_for_ticker w ticker date) tickers.

Definition buy_signals_of (w : World) (decisions : list Decision) : list Decision :=
  sort_desc (quality w) (List.filter (λ d, bool_decide (verdict d = BUY)) decisions).

Definition hold_signals_of (w : World) (decisions : list Decision) : list Decision :=
  sort_desc (quality w) (List.filter (λ d, bool_decide (verdict d = HOLD)) decisions).

(** The allocation ladder: [(buy_allocation, hold_allocation, cash_target)]. *)
Definition allocation (num_buy : nat) : Q * Q * Q :=
  if decide (15 ≤ num_buy)%nat then (90 # 100, 5 # 100, 5 # 100)
  else if decide (10 ≤ num_buy)%nat then (80 # 100, 10 # 100, 10 # 100)
  else if decide (5 ≤ num_buy)%nat then (60 # 100, 25 # 100, 15 # 100)
  else (40 # 100, 45 # 100, 15 # 100).

Definition keep_tickers_of (buy_signals hold_signals : list Decision) : gset string :=
  list_to_set (map ticker (take 15 buy_signals) ++ map ticker (take 20 hold_signals)).

Definition selic_daily : Q := 35 # 100000.

(** Float division: a zero divisor raises. *)
Definition divide (a b : Q) : M Q :=
  if Qeq_bool b 0 then raise ZeroDivisionError else ret (a / b)%Q.

(** The selling loop over [to_sell], a set, walked in the order of the
    interpreter. *)
Definition sell_no_signal (w : World) (current_prices : gmap string Q)
    (date : Timestamp) (to_sell : gset string) : M unit :=
  for_each (set_order w to_sell)
    (λ ticker,
       match current_prices !! ticker with
       | Some price =>
           call (CallSell ticker price date Ledger.NO_SIGNAL)
                (Ledger.sell ticker price date Ledger.NO_SIGNAL) ;;
           ret tt
       | None => ret tt
       end).

(** [f"... score: {signal['analyst_score']:.0f})"]: a score that is [None]
    cannot be formatted as a float. *)
Definition format_score (analyst_score : option Q) : M unit :=
  match analyst_score with
  | Some _ => ret tt
  | None => raise TypeError
  end.

(** The two buying loops differ in the pool, the percentage and the reason.
    After a purchase that went through, a verbose engine prints a line
    with the score of the signal. *)
Definition buy_signals_loop (current_prices : gmap string Q) (date : Timestamp)
    (signals : list Decision) (position_pct : Q) (reason : Ledger.Reason) : M unit :=
  for_each signals
    (λ signal,
       let ticker := ticker signal in
       match current_prices !! ticker with
       | None => ret tt
       | Some price =>
           let* self := get in
           match Ledger.positions (portfolio self) !! ticker with
           | Some _ => ret tt
           | None =>
               let* trade :=
                 call (CallBuy ticker price position_pct date
                         (stop_loss signal) (take_profit signal) reason)
                      (Ledger.buy ticker price position_pct date
                         (stop_loss signal) (take_profit signal) reason) in
               if bool_decide (is_Some trade) && verbose self
               then format_score (analyst_score signal)
               else ret tt
           end
       end).

Definition rebalance_portfolio (w : World) (date : Timestamp) : M unit :=
  let* current_prices := price_row date in
  call (CallUpdatePrices current_prices)
       (unit_op (Ledger.update_prices current_prices)) ;;
  call (CallApplySelic date selic_daily)
       (unit_op (Ledger.apply_selic_to_cash date selic_daily)) ;;
  let* self := get in
  let* tickers := from_option (universe_tickers self) TypeError in
  let decisions := analyse w tickers date in
  let buy_signals := buy_signals_of w decisions in
  let hold_signals := hold_signals_of w decisions in
  let total_capital := Ledger.total_value (portfolio self) in
  let num_buy := length buy_signals in
  let '(buy_allocation, hold_allocation, cash_target) := allocation num_buy in
  let keep_tickers := keep_tickers_of buy_signals hold_signals in
  let current_tickers := dom (Ledger.positions (portfolio self)) in
  let to_sell := current_tickers ∖ keep_tickers in
  sell_no_signal w current_prices date to_sell ;;
  let buy_capital := (total_capital * buy_allocation)%Q in
  let per_buy_position :=
    (buy_capital / inject_Z (Z.of_nat (15 `min` (1 `max` length buy_signals))))%Q in
  let* buy_fraction := divide per_buy_position total_capital in
  let buy_position_pct := (buy_fraction * 100)%Q in
  buy_signals_loop current_prices date (take 15 buy_signals) buy_position_pct
    Ledger.REBALANCE ;;
  let hold_capital := (total_capital * hold_allocation)%Q in
  let per_hold_position :=
    (hold_capital / inject_Z (Z.of_nat (20 `min` (1 `max` length hold_signals))))%Q in
  let* hold_fraction := divide per_hold_position total_capital in
  let hold_position_pct := (hold_fraction * 100)%Q in
  buy_signals_loop current_prices date (take 20 hold_signals) hold_position_pct
    Ledger.HOLD_EXPOSURE ;;
  modify (save_decisions decisions date).

(** The body of the main loop of [run], for one date of the index. *)
Definition run_day (w : World) (rebalance_dates : list Timestamp) (date : Timestamp)
    : M unit :=
  let* current_prices := price_row date in
  call (CallUpdatePrices current_prices)
       (unit_op (Ledger.update_prices current_prices)) ;;
  call (CallApplySelic date (35 # 100000))
       (unit_op (Ledger.apply_selic_to_cash date (35 # 100000))) ;;
  call (CallCheckStops date) (unit_op (Ledger.check_stops date)) ;;
  (if decide (date ∈ rebalance_dates) then rebalance_portfolio w date else ret tt) ;;
  call (CallRecordState date) (unit_op (Ledger.record_state date)).

Definition run (w : World) : M unit :=
  prepare_data w ;;
  let* rebalance_dates := get_rebalance_dates in
  let* df := the_price_data in
  for_each (Universe.index df) (run_day w rebalance_dates).

End Engine.

(* ===================================================================== *)
(** ** analyst.py *)
(* ===================================================================== *)

Module Analyst.

Local Open Scope Q_scope.

(** The dict of [get_fundamental_snapshot], restricted to its ratio
    fields: each is absent, [None] or a number. *)
Definition Snapshot := gmap string (option Q).

Definition Qlt_bool (x y : Q) : bool := negb (Qle_bool y x).

(** A number used as a condition ([if pe and ...]): false for 0. *)
Definition truthy (x : Q) : bool := negb (Qeq_bool x 0).

Definition safe_get (data : Snapshot) (key : string) (default : option Q) : option Q :=
  let value := match data !! key with Some v => v | None => default end in
  match value with
  | None => default
  | Some _ => value
  end.

(** The block "P/E Ratio (15 pontos)" of [calculate_valuation_score]:
    what it adds to [score]. *)
Definition pe_points (pe : option Q) : Q :=
  match pe with
  | Some pe =>
      if truthy pe && Qlt_bool 0 pe then
        if Qlt_bool pe 8 then 15
        else if Qlt_bool pe 12 then 12
        else if Qlt_bool pe 15 then 8
        else if Qlt_bool pe 20 then 4
        else 0
      else 0
  | None => 0
  end.

(** The blocks "P/B Ratio (10 pontos)" and "P/S Ratio (10 pontos)", which
    have the same thresholds. *)
Definition pb_points (pb : option Q) : Q :=
  match pb with
  | Some pb =>
      if truthy pb && Qlt_bool 0 pb then
        if Qlt_bool pb 1 then 10
        else if Qlt_bool pb 2 then 7
        else if Qlt_bool pb 3 then 4
        else 0
      else 0
  | None => 0
  end.

Definition ps_points (ps : option Q) : Q :=
  match ps with
  | Some ps =>
      if truthy ps && Qlt_bool 0 ps then
        if Qlt_bool ps 1 then 10
        else if Qlt_bool ps 2 then 7
        else if Qlt_bool ps 3 then 4
        else 0
      else 0
  | None => 0
  end.

(** The block "Dividend Yield (5 pontos)". *)
Definition dy_points (dy : option Q) : Q :=
  match dy with
  | Some dy =>
      if truthy dy && Qlt_bool 0 dy then
        if Qlt_bool (6 # 100) dy then 5
        else if Qlt_bool (4 # 100) dy then 3
        else if Qlt_bool (2 # 100) dy then 1
        else 0
      else 0
  | None => 0
  end.

Definition calculate_valuation_score (snapshot : Snapshot) : Q :=
  let score := 0 in
  let pe := safe_get snapshot "pe" None in
  let score := score + pe_points pe in
  let pb := safe_get snapshot "pb" None in
  let score := score + pb_points pb in
  let ps := safe_get snapshot "ps" None in
  let score := score + ps_points ps in
  let dy := safe_get snapshot "dividend_yield" None in
  let score := score + dy_points dy in
  if Qlt_bool 40 score then 40 else score.

(** The blocks "Margem Liquida (15 pontos)" and "ROE (15 pontos)" of
    [calculate_quality_score], which have the same thresholds; [float]
    of a number does not raise. *)
Definition net_margin_points (net_margin : option Q) : Q :=
  match net_margin with
  | Some net_margin =>
      if Qlt_bool (20 # 100) net_margin then 15
      else if Qlt_bool (15 # 100) net_margin then 12
      else if Qlt_bool (10 # 100) net_margin then 8
      else if Qlt_bool (5 # 100) net_margin then 4
      else 0
  | None => 0
  end.

Definition roe_points (roe : option Q) : Q :=
  match roe with
  | Some roe =>
      if Qlt_bool (20 # 100) roe then 15
      else if Qlt_bool (15 # 100) roe then 12
      else if Qlt_bool (10 # 100) roe then 8
      else if Qlt_bool (5 # 100) roe then 4
      else 0
  | None => 0
  end.

(** The block "Margem Operacional (10 pontos)". *)
Definition op_margin_points (op_margin : option Q) : Q :=
  match op_margin with
  | Some op_margin =>
      if Qlt_bool (20 # 100) op_margin then 10
      else if Qlt_bool (15 # 100) op_margin then 7
      else if Qlt_bool (10 # 100) op_margin then 4
      else 0
  | None => 0
  end.

Definition calculate_quality_score (snapshot : Snapshot) : Q :=
  let score := 0 in
  let net_margin := safe_get snapshot "net_margin" None in
  let score := score + net_margin_points net_margin in
  let roe := safe_get snapshot "roe" None in
  let score := score + roe_points roe in
  let op_margin := safe_get snapshot "op_margin" None in
  let score := score + op_margin_points op_margin in
  if Qlt_bool 40 score then 40 else score.

(** The block "Debt/Equity" of [calculate_risk_score]: what it takes
    from [score]. *)
Definition de_penalty (de : option Q) : Q :=
  match de with
  | Some de =>
      if Qlt_bool 2 de then 10
      else if Qlt_bool (15 # 10) de then 7
      else if Qlt_bool 1 de then 4
      else if Qlt_bool (5 # 10) de then 2
      else 0
  | None => 0
  end.

(** The block "Current Ratio". *)
Definition cr_penalty (cr : option Q) : Q :=
  match cr with
  | Some cr =>
      if Qlt_bool cr (5 # 10) then 10
      else if Qlt_bool cr 1 then 5
      else if Qlt_bool cr (15 # 10) then 2
      else 0
  | None => 0
  end.

Definition calculate_risk_score (snapshot : Snapshot) : Q :=
  let score := 20 in
  let de := safe_get snapshot "debt_to_equity" None in
  let score := score - de_penalty de in
  let cr := safe_get snapshot "current_ratio" None in
  let score := score - cr_penalty cr in
  if Qlt_bool score 0 then 0 else score.

Definition calculate_overall_score (valuation_score quality_score risk_score : Q)
    : Q * Q * Engine.Verdict :=
  let total := valuation_score + quality_score + risk_score in
  let non_zero_scores :=
    (Z.b2z (Qlt_bool 0 valuation_score) + Z.b2z (Qlt_bool 0 quality_score)
     + Z.b2z (Qlt_bool 0 risk_score))%Z in
  let confidence := inject_Z non_zero_scores / 3 in
  let verdict :=
    if Qle_bool 75 total then Engine.BUY
    else if Qle_bool 55 total then Engine.HOLD
    else Engine.SELL in
  (total, confidence, verdict).

(** Step 2 of [run_analyst]: the scores of a collected snapshot. *)
Definition run_analyst_scores (snapshot : Snapshot) : Q * Q * Engine.Verdict :=
  let valuation_score := calculate_valuation_score snapshot in
  let quality_score := calculate_quality_score snapshot in
  let risk_score := calculate_risk_score snapshot in
  calculate_overall_score valuation_score quality_score risk_score.

End Analyst.

(* ===================================================================== *)
(** ** Definitions used to state the properties *)
(* ===================================================================== *)

Import Engine.
Local Open Scope engine_scope.

(** *** Rebalance dates, read off the trading calendar by position *)

(** The trading day before position [i], none for the first one. *)
Definition previous (dates : list Timestamp) (i : nat) : option Timestamp :=
  match i with
  | O => None
  | S j => dates !! j
  end.

(** The dates of the calendar, in order, whose position satisfies a test
    on the date and on the trading day before it. *)
Definition dates_where (test : option Timestamp → Timestamp → bool)
    (dates : list Timestamp) : list Timestamp :=
  omap (λ i, match dates !! i with
             | Some d => if test (previous dates i) d then Some d else None
             | None => None
             end)
       (seq 0 (length dates)).

(** The dates selected among those of [l], which sit behind [pre] in the
    calendar [pre ++ l]. *)
Definition selected_behind (test : option Timestamp → Timestamp → bool)
    (pre l : list Timestamp) : list Timestamp :=
  omap (λ i, match (pre ++ l) !! i with
             | Some d => if test (previous (pre ++ l) i) d then Some d else None
             | None => None
             end)
       (seq (length pre) (length l)).

Definition is_monday (prev : option Timestamp) (d : Timestamp) : bool :=
  bool_decide (weekday d = 0).

Definition month_differs (prev : option Timestamp) (d : Timestamp) : bool :=
  bool_decide (month <$> prev ≠ Some (month d)).

Definition quarter_of (d : Timestamp) : Z := (month d - 1) `div` 3.

Definition quarter_differs (prev : option Timestamp) (d : Timestamp) : bool :=
  bool_decide ((λ p, (year p, quarter_of p)) <$> prev ≠ Some (year d, quarter_of d)).

(** *** The allocation ladder in percent, as the specification words it *)

Definition allocation_pct (num_buy : nat) : Z * Z * Z :=
  if (15 <=? num_buy)%nat then (90, 5, 5)
  else if (10 <=? num_buy)%nat then (80, 10, 10)
  else if (5 <=? num_buy)%nat then (60, 25, 15)
  else (40, 45, 15).

(** *** Ranking *)

(** Largest key first. *)
Definition descending {A} (key : A → Q) (l : list A) : Prop :=
  StronglySorted (λ a b, (key b <= key a)%Q) l.

(** The entries whose key is [q], in the order they have in [l]. *)
Definition with_key {A} (key : A → Q) (q : Q) (l : list A) : list A :=
  List.filter (λ x, Qeq_bool (key x) q) l.

Definition tier (v : Verdict) (decisions : list Decision) : list Decision :=
  List.filter (λ d, bool_decide (verdict d = v)) decisions.

(** *** What one method call added to the logs *)

Definition new_calls (before after : BacktestEngine) : list LedgerCall :=
  drop (length (ledger_calls before)) (ledger_calls after).

Definition new_trades (before after : Ledger.Portfolio) : list Ledger.Trade :=
  drop (length (Ledger.trades before)) (Ledger.trades after).

Definition call_ticker (c : LedgerCall) : option string :=
  match c with
  | CallSell tk _ _ _ => Some tk
  | CallBuy tk _ _ _ _ _ _ => Some tk
  | _ => None
  end.

Definition is_buy_call (c : LedgerCall) : bool :=
  match c with CallBuy _ _ _ _ _ _ _ => true | _ => false end.


Definition is_selic_call (c : LedgerCall) : bool :=
  match c with CallApplySelic _ _ => true | _ => false end.

(** The position of a ticker once the day's price row is applied. *)
Definition refreshed (current_prices : gmap string Q) (tk : string)
    (pos : Ledger.Position) : Ledger.Position :=
  match current_prices !! tk with
  | Some c => Ledger.set_current_price c pos
  | None => pos
  end.

(** The [sell] calls the selling loop makes when it walks [l]. *)
Definition sell_calls (current_prices : gmap string Q) (date : Timestamp)
    (l : list string) : list LedgerCall :=
  omap (λ tk, (λ price, CallSell tk price date Ledger.NO_SIGNAL) <$> current_prices !! tk) l.

(** What a ledger operation did to the position map and the trade log, as
    far as one ticker [tk] can tell: [untouched tk p p'] when the position
    of [tk] is the same and no trade on [tk] was added. *)
Definition untouched (tk : string) (p p' : Ledger.Portfolio) : Prop :=
  Ledger.positions p' !! tk = Ledger.positions p !! tk ∧
  ∃ news, Ledger.trades p' = Ledger.trades p ++ news ∧
          Forall (λ tr, Ledger.trade_ticker tr ≠ tk) news.

(** *** The loops of [rebalance_portfolio] as folds over the engine state *)

(** The state after a ledger call that returns nothing of interest. *)
Definition after_call (c : LedgerCall) (f : Ledger.Portfolio → Ledger.Portfolio)
    (s : BacktestEngine) : BacktestEngine :=
  log_call c (set_portfolio (f (portfolio s)) s).

(** One turn of the selling loop. *)
Definition sell_step (current_prices : gmap string Q) (date : Timestamp)
    (s : BacktestEngine) (tk : string) : BacktestEngine :=
  match current_prices !! tk with
  | Some price =>
      after_call (CallSell tk price date Ledger.NO_SIGNAL)
        (λ p, (Ledger.sell tk price date Ledger.NO_SIGNAL p).1) s
  | None => s
  end.

(** One turn of a buying loop. *)
Definition buy_step (current_prices : gmap string Q) (date : Timestamp)
    (position_pct : Q) (reason : Ledger.Reason)
    (s : BacktestEngine) (signal : Decision) : BacktestEngine :=
  match current_prices !! ticker signal with
  | None => s
  | Some price =>
      match Ledger.positions (portfolio s) !! ticker signal with
      | Some _ => s
      | None =>
          after_call
            (CallBuy (ticker signal) price position_pct date
               (stop_loss signal) (take_profit signal) reason)
            (λ p, (Ledger.buy (ticker signal) price position_pct date
                     (stop_loss signal) (take_profit signal) reason p).1)
            s
      end
  end.

(** The state once [rebalance_portfolio] has refreshed prices and accrued
    interest. *)
Definition opened (current_prices : gmap string Q) (date : Timestamp)
    (s : BacktestEngine) : BacktestEngine :=
  after_call (CallApplySelic date selic_daily)
    (Ledger.apply_selic_to_cash date selic_daily)
    (after_call (CallUpdatePrices current_prices)
       (Ledger.update_prices current_prices) s).

Definition keep_set (w : World) (tickers : list string) (date : Timestamp) : gset string :=
  let decisions := analyse w tickers date in
  keep_tickers_of (buy_signals_of w decisions) (hold_signals_of w decisions).

(** The state once the positions without a signal are sold. *)
Definition liquidated (w : World) (current_prices : gmap string Q) (date : Timestamp)
    (tickers : list string) (s : BacktestEngine) : BacktestEngine :=
  let s2 := opened current_prices date s in
  let to_sell := dom (Ledger.positions (portfolio s2)) ∖ keep_set w tickers date in
  foldl (sell_step current_prices date) s2 (set_order w to_sell).

(** The percentage of total value one position of a tier is sized at. *)
Definition position_pct (total_capital share : Q) (pool signals : nat) : Q :=
  (total_capital * share / inject_Z (Z.of_nat (pool `min` (1 `max` signals)))
   / total_capital * 100)%Q.

(** A turn of a buying loop ends in the [TypeError] of the print: the
    purchase went through, the engine is verbose and the signal has no
    score. *)
Definition buy_trips (current_prices : gmap string Q) (date : Timestamp)
    (position_pct : Q) (reason : Ledger.Reason)
    (s : BacktestEngine) (signal : Decision) : bool :=
  match current_prices !! ticker signal with
  | None => false
  | Some price =>
      match Ledger.positions (portfolio s) !! ticker signal with
      | Some _ => false
      | None =>
          bool_decide
            (is_Some (Ledger.buy (ticker signal) price position_pct date
                        (stop_loss signal) (take_profit signal) reason
                        (portfolio s)).2)
          && verbose s && bool_decide (analyst_score signal = None)
      end
  end.

(** A buying loop: the turns are taken until one trips. *)
Fixpoint buy_walk (current_prices : gmap string Q) (date : Timestamp)
    (position_pct : Q) (reason : Ledger.Reason)
    (s : BacktestEngine) (signals : list Decision) : Outcome unit * BacktestEngine :=
  match signals with
  | [] => (Returns tt, s)
  | signal :: signals' =>
      let s' := buy_step current_prices date position_pct reason s signal in
      if buy_trips current_prices date position_pct reason s signal
      then (Raises TypeError, s')
      else buy_walk current_prices date position_pct reason s' signals'
  end.

(** The state once the buying loops have taken the turns of [done1], of
    the BUY tier, and of [done2], of the HOLD tier. *)
Definition bought (w : World) (current_prices : gmap string Q) (date : Timestamp)
    (tickers : list string) (s : BacktestEngine) (done1 done2 : list Decision)
    : BacktestEngine :=
  let decisions := analyse w tickers date in
  let buy_signals := buy_signals_of w decisions in
  let hold_signals := hold_signals_of w decisions in
  let total_capital := Ledger.total_value (portfolio (opened current_prices date s)) in
  let shares := allocation (length buy_signals) in
  let s3 := liquidated w current_prices date tickers s in
  let s4 :=
    foldl (buy_step current_prices date
             (position_pct total_capital shares.1.1 15 (length buy_signals))
             Ledger.REBALANCE)
          s3 done1 in
  foldl (buy_step current_prices date
           (position_pct total_capital shares.1.2 20 (length hold_signals))
           Ledger.HOLD_EXPOSURE)
        s4 done2.

(** The state at the end of a [rebalance_portfolio] that returns. *)
Definition rebalanced (w : World) (current_prices : gmap string Q) (date : Timestamp)
    (tickers : list string) (s : BacktestEngine) : BacktestEngine :=
  let decisions := analyse w tickers date in
  save_decisions decisions date
    (bought w current_prices date tickers s
       (take 15 (buy_signals_of w decisions)) (take 20 (hold_signals_of w decisions))).

(** The state after the three calls that open every day of the main loop. *)
Definition day_opened (current_prices : gmap string Q) (date : Timestamp)
    (s : BacktestEngine) : BacktestEngine :=
  after_call (CallCheckStops date) (Ledger.check_stops date)
    (after_call (CallApplySelic date (35 # 100000))
       (Ledger.apply_selic_to_cash date (35 # 100000))
       (after_call (CallUpdatePrices current_prices)
          (Ledger.update_prices current_prices) s)).

Definition day_closed (date : Timestamp) (s : BacktestEngine) : BacktestEngine :=
  after_call (CallRecordState date) (Ledger.record_state date) s.

(** *** Loading the data *)

(** The universe [prepare_data] derives when the caller passed none. *)
Definition derived_universe (w : World) (s : BacktestEngine) : list string :=
  Universe.get_universe (download w) (start_date s) (end_date s) 400.

(** The second half of [prepare_data]: prices are downloaded for the
    universe in force, and an empty table stops the run. *)
Definition load_prices (w : World) (tickers : list string) (s : BacktestEngine)
    : Outcome unit * BacktestEngine :=
  let prices :=
    Universe.get_price_data (download w) tickers (start_date s) (end_date s) in
  if Universe.empty prices
  then (Raises PriceDownloadFailed, set_price_data (Some prices) s)
  else (Returns tt,
        set_cdi_data (Some (get_cdi_data w (start_date s) (end_date s)))
          (set_price_data (Some prices) s)).

Definition valid_frequencies : list string := ["weekly"; "monthly"; "quarterly"].

(** The same world, except that an analysis that would raise returns a
    state without a decision instead. *)
Definition silenced (w : World) : World :=
  mkWorld (download w)
    (λ tk date,
       match run_trading_pipeline w tk date with
       | PipelineRaises _ => PipelineReturns (mkState "failed" None None)
       | returned => returned
       end)
    (get_cdi_data w)
    (float_mul w) (float_mul_0_l w) (float_mul_0_r w)
    (set_order w) (set_order_enumerates w).

(** What [run] comes to when the configuration is at fault: the error, and
    an engine whose ledger and logs are those it started with. *)
Definition stopped_with (e : Exception) (s : BacktestEngine)
    (result : Outcome unit * BacktestEngine) : Prop :=
  result.1 = Raises e ∧
  portfolio result.2 = portfolio s ∧
  ledger_calls result.2 = ledger_calls s ∧
  rebalance_dates result.2 = rebalance_dates s ∧
  decisions_history result.2 = decisions_history s.

(** *** The universe and the price table *)

(** The three validations of [get_universe], as integer inequalities. *)
Definition passes_validation (min_data_points : Z) (df : Universe.Series) : Prop :=
  let num_points := Z.of_nat (length df) in
  min_data_points <= num_points ∧
  10 * Universe.count Universe.is_nan (df.*2) <= num_points ∧
  95 * num_points <= 100 * Universe.count Universe.is_positive (df.*2).

(** One turn of the loop of [get_price_data]. *)
Definition load_column (download : Universe.Downloader) (start_date end_date : string)
    (prices : Universe.RawFrame) (ticker : string) : Universe.RawFrame :=
  match download ticker start_date end_date with
  | Some df => Universe.set_column prices ticker df
  | None => prices
  end.

(** The frame when the loop of [get_price_data] is over. *)
Definition raw_prices (download : Universe.Downloader) (tickers : list string)
    (start_date end_date : string) : Universe.RawFrame :=
  foldl (load_column download start_date end_date) Universe.empty_frame tickers.

(** [prices.columns] *)
Definition column_names (f : Universe.RawFrame) : list string := (Universe.raw_cols f).*1.

(** Every column is as long as the index. *)
Definition aligned (f : Universe.RawFrame) : Prop :=
  Forall (λ c : string * list (option Q), length c.2 = length (Universe.raw_index f))
    (Universe.raw_cols f).

(** Every row has [n] cells. *)
Definition width (n : nat) (rs : list Universe.RawRow) : Prop :=
  Forall (λ r : Universe.RawRow, length r.2 = n) rs.

(** The downloads are indexed by date: no date twice in a series.  This
    is what the embedding of the price table stands for: pandas does not
    align a series that repeats a date, and [loc] of a repeated date is a
    frame, not a row. *)
Definition date_indexed (download : Universe.Downloader) : Prop :=
  ∀ tk start_date end_date s, download tk start_date end_date = Some s → NoDup s.*1.

(** [v] is a close some download of [tk] returned. *)
Definition is_close_of (download : Universe.Downloader) (start_date end_date : string)
    (tk : string) (v : Q) : Prop :=
  ∃ s d, download tk start_date end_date = Some s ∧ (d, Some v) ∈ s.

(** Every number in a column of the frame is a close of the column's ticker. *)
Definition sourced (download : Universe.Downloader) (start_date end_date : string)
    (f : Universe.RawFrame) : Prop :=
  Forall (λ c : string * list (option Q),
            ∀ v, Some v ∈ c.2 → is_close_of download start_date end_date c.1 v)
    (Universe.raw_cols f).

(** The same of one row, whose cells follow [names]. *)
Definition row_sourced (download : Universe.Downloader) (start_date end_date : string)
    (names : list string) (cells : list (option Q)) : Prop :=
  Forall2 (λ n cell, ∀ v, cell = Some v → is_close_of download start_date end_date n v)
    names cells.

(** *** The books of the engine *)

(** Everything of the engine but its ledger and the call log is as it was. *)
Definition same_books (s s' : BacktestEngine) : Prop :=
  start_date s' = start_date s ∧ end_date s' = end_date s ∧
  rebalance_frequency s' = rebalance_frequency s ∧
  universe_tickers s' = universe_tickers s ∧ price_data s' = price_data s ∧
  cdi_data s' = cdi_data s ∧ decisions_history s' = decisions_history s ∧
  rebalance_dates s' = rebalance_dates s ∧ verbose s' = verbose s.

(** The [record_state] calls of a log. *)
Definition is_record_call (c : LedgerCall) : bool :=
  match c with CallRecordState _ => true | _ => false end.

(** The call a buying loop makes for a signal it buys at [price]. *)
Definition buy_call_for (date : Timestamp) (pct : Q) (reason : Ledger.Reason)
    (signal : Decision) (price : Q) : LedgerCall :=
  CallBuy (ticker signal) price pct date (stop_loss signal) (take_profit signal) reason.

(** *** The figures the analyst reads *)

(** The fields the three scores read. *)
Definition valuation_fields : list string := ["pe"; "pb"; "ps"; "dividend_yield"]%string.
Definition quality_fields : list string := ["net_margin"; "roe"; "op_margin"]%string.
Definition risk_fields : list string := ["debt_to_equity"; "current_ratio"]%string.

(** [snapshot'] reports every figure of [fields] that [snapshot] reports,
    and at least as high. *)
Definition at_least (fields : list string) (snapshot snapshot' : Analyst.Snapshot)
    : Prop :=
  ∀ key x, key ∈ fields → Analyst.safe_get snapshot key None = Some x →
    ∃ y, Analyst.safe_get snapshot' key None = Some y ∧ (x <= y)%Q.

(** *** Tactics *)

(** Case analysis on the membership [H] in a list that is written out. *)
Ltac in_list H :=
  repeat (apply elem_of_cons in H as [->|H]); [..|by apply elem_of_nil in H].

(** Case analysis on every band a score compares a figure with; [lt] and
    [ge] turn the two outcomes of a comparison into inequalities. *)
Ltac bands_with lt ge :=
  repeat match goal with
         | |- context [Analyst.Qlt_bool ?a ?b] =>
             let H := fresh "Hband" in
             destruct (Analyst.Qlt_bool a b) eqn:H;
             [apply lt in H|apply ge in H]
         | |- context [Analyst.truthy ?a] => destruct (Analyst.truthy a)
         end; cbn [andb].

(** *** A small market, used to exercise the statements *)

Module Scenario.

Definition monday1 : Timestamp := mkDate 2024 1 1.
Definition tuesday1 : Timestamp := mkDate 2024 1 2.
Definition monday2 : Timestamp := mkDate 2024 1 8.

Definition closes (a b c : Q) : Universe.Series :=
  [(monday1, Some a); (tuesday1, Some b); (monday2, Some c)].

Definition download : Universe.Downloader :=
  λ tk _ _,
    if decide (tk = "AAA") then Some (closes 10 11 12)
    else if decide (tk = "BBB") then Some (closes 20 19 18)
    else if decide (tk = "CCC") then Some (closes 50 50 50)
    else if decide (tk = "DDD") then Some (closes 5 5 6)
    else None.

Definition signal (v : Verdict) (score confidence stop target : Q) : PipelineResult :=
  PipelineReturns
    (mkState "completed"
       (Some (mkSenior v (Some (5 # 100)) (Some confidence) (Some stop) (Some target)))
       (Some (mkReport (Some score)))).

(** On the first Monday AAA and DDD are BUY, BBB is HOLD and CCC fails; on
    the second Monday AAA fails, BBB is HOLD, CCC and DDD are BUY. *)
Definition pipeline (tk : string) (date : Timestamp) : PipelineResult :=
  if decide (date = monday1) then
    if decide (tk = "AAA") then signal BUY 80 (9 # 10) 9 15
    else if decide (tk = "BBB") then signal HOLD 50 (5 # 10) (37 # 2) 30
    else if decide (tk = "DDD") then signal BUY 70 (8 # 10) 4 9
    else PipelineRaises "timeout"
  else
    if decide (tk = "BBB") then signal HOLD 55 (5 # 10) 15 30
    else if decide (tk = "CCC") then signal BUY 90 (9 # 10) 45 70
    else if decide (tk = "DDD") then signal BUY 70 (8 # 10) 4 9
    else PipelineRaises "timeout".

(** The products of the scenario's scores and confidences are exact in
    floating point (80 x 0.9 is 72.0, and so on), and the interpreter is
    one that walks a set from its last element to its first. *)
Definition float_mul : Q → Q → Q := Qmult.

Definition set_order (X : gset string) : list string := reverse (elements X).

Definition world : World :=
  mkWorld download pipeline (λ _ _, [])
    float_mul Qmult_0_l Qmult_0_r set_order (λ X, reverse_Permutation (elements X)).

Definition universe : list string := ["AAA"; "BBB"; "CCC"; "DDD"].

Definition engine : BacktestEngine :=
  init 1000000 "2024-01-01" "2024-01-09" "weekly" (Some universe) (1 # 1000) 2 10 true.

Definition prepared : BacktestEngine := (prepare_data world engine).2.

Definition table : Universe.DataFrame :=
  Universe.get_price_data download universe "2024-01-01" "2024-01-09".

Definition mondays : list Timestamp := [monday1; monday2].

(** The engine in the morning of the second Monday. *)
Definition after_two_days : BacktestEngine :=
  (for_each [monday1; tuesday1] (run_day world mondays) prepared).2.

Definition row_monday2 : gmap string Q :=
  list_to_map [("AAA", 12%Q); ("BBB", 18%Q); ("CCC", 50%Q); ("DDD", 6%Q)].

(** The engine when the second rebalance is entered. *)
Definition at_rebalance : BacktestEngine := day_opened row_monday2 monday2 after_two_days.

(** A market where every analysis fails, so that no trade is ever made. *)
Definition quiet_world : World :=
  mkWorld download (λ _ _, PipelineRaises "timeout") (λ _ _, [])
    float_mul Qmult_0_l Qmult_0_r set_order (λ X, reverse_Permutation (elements X)).

Definition quiet_engine : BacktestEngine :=
  init 1000000 "2024-01-01" "2024-01-09" "weekly" (Some ["AAA"]) (1 # 1000) 2 10 true.

(** The same run asked for with a frequency the engine does not know. *)
Definition daily_engine : BacktestEngine :=
  init 1000000 "2024-01-01" "2024-01-09" "daily" (Some universe) (1 # 1000) 2 10 true.

(** The same run asked for with an explicit, empty universe. *)
Definition empty_engine : BacktestEngine :=
  init 1000000 "2024-01-01" "2024-01-09" "weekly" (Some []) (1 # 1000) 2 10 true.

Definition quiet_prepared : BacktestEngine := (prepare_data quiet_world quiet_engine).2.

Definition quiet_row (price : Q) : gmap string Q := list_to_map [("AAA", price)].

(** A run over tickers the market does not list. *)
Definition unlisted_engine : BacktestEngine :=
  init 1000000 "2024-01-01" "2024-01-09" "weekly" (Some ["YYY"; "ZZZ"]) (1 # 1000) 2 10 true.

(** A snapshot without any of the figures the scores read. *)
Definition bare_snapshot : Analyst.Snapshot :=
  list_to_map [("pe", None); ("beta", Some 1%Q)].

Definition lean_snapshot : Analyst.Snapshot :=
  list_to_map [("roe", Some (12 # 100)); ("debt_to_equity", Some (18 # 10));
               ("current_ratio", Some (8 # 10))].

Definition strong_snapshot : Analyst.Snapshot :=
  list_to_map [("roe", Some (25 # 100)); ("net_margin", Some (1 # 10));
               ("debt_to_equity", Some (4 # 10))].

(** A market that lists one of the candidates. *)
Definition listed_download : Universe.Downloader :=
  λ tk _ _, if decide (tk = "PETR4.SA") then Some (closes 30 31 32) else None.

End Scenario.

(* ===================================================================== *)
(** ** Rebalance dates *)
(* ===================================================================== *)

Section Calendar.

Variable test : option Timestamp → Timestamp → bool.

Lemma previous_behind (pre : list Timestamp) d rest :
  previous (pre ++ d :: rest) (length pre) = last pre.
Proof.
  destruct pre as [|p pre'] using rev_ind; [done|].
  rewrite length_app, Nat.add_comm. simpl.
  rewrite last_snoc, <- app_assoc. simpl.
  apply list_lookup_middle. done.
Qed.

Lemma selected_behind_cons pre d rest :
  selected_behind test pre (d :: rest) =
  (if test (last pre) d then [d] else []) ++ selected_behind test (pre ++ [d]) rest.
Proof.
  unfold selected_behind. simpl.
  rewrite list_lookup_middle by done.
  rewrite previous_behind.
  rewrite <- app_assoc. simpl.
  rewrite length_app. simpl. rewrite Nat.add_1_r.
  destruct (test (last pre) d); done.
Qed.

Lemma dates_where_behind l : dates_where test l = selected_behind test [] l.
Proof. done. Qed.

End Calendar.

Lemma weekly_dates_behind pre l :
  List.filter (λ d, bool_decide (weekday d = 0)) l = selected_behind is_monday pre l.
Proof.
  revert pre. induction l as [|d rest IH]; intros pre; [done|].
  rewrite selected_behind_cons. simpl. unfold is_monday at 1.
  rewrite (IH (pre ++ [d])). destruct (bool_decide (weekday d = 0)); done.
Qed.

Lemma first_days_behind pre l :
  first_days (month <$> last pre) l = selected_behind month_differs pre l.
Proof.
  revert pre. induction l as [|d rest IH]; intros pre; [done|].
  rewrite selected_behind_cons. simpl. unfold month_differs at 1.
  rewrite <- (IH (pre ++ [d])), last_snoc. simpl.
  destruct (decide (Some (month d) ≠ month <$> last pre)) as [Hne|Heq].
  - rewrite bool_decide_eq_true_2 by congruence. done.
  - rewrite bool_decide_eq_false_2 by (intros ?; apply Heq; congruence).
    apply dec_stable in Heq. rewrite Heq. done.
Qed.

Lemma quarterly_dates_behind pre l :
  quarterly_dates (year_quarter <$> last pre) l = selected_behind quarter_differs pre l.
Proof.
  revert pre. induction l as [|d rest IH]; intros pre; [done|].
  rewrite selected_behind_cons. simpl. unfold quarter_differs at 1.
  rewrite <- (IH (pre ++ [d])), last_snoc. simpl.
  change (λ p, (year p, quarter_of p)) with year_quarter.
  change (year d, quarter_of d) with (year_quarter d).
  destruct (decide (Some (year_quarter d) ≠ year_quarter <$> last pre)) as [Hne|Heq].
  - rewrite bool_decide_eq_true_2 by congruence. done.
  - rewrite bool_decide_eq_false_2 by (intros ?; apply Heq; congruence).
    apply dec_stable in Heq. rewrite Heq. done.
Qed.

(** C3.  Once the price table is loaded, [get_rebalance_dates] returns,
    without touching the engine: for 'weekly' exactly the dates of the index
    that fall on a Monday; for 'monthly' exactly the dates whose month
    differs from the month of the trading day before (the first date of the
    index, which has no trading day before it, is one of them); for
    'quarterly' exactly the dates whose (year, quarter) pair, with
    quarter = (month - 1) div 3, differs from that of the trading day
    before. *)
Theorem rebalance_dates_by_frequency (self : BacktestEngine) (df : Universe.DataFrame) :
  price_data self = Some df →
  let calendar := Universe.index df in
  (rebalance_frequency self = "weekly" →
     get_rebalance_dates self = (Returns (dates_where is_monday calendar), self)) ∧
  (rebalance_frequency self = "monthly" →
     get_rebalance_dates self = (Returns (dates_where month_differs calendar), self)) ∧
  (rebalance_frequency self = "quarterly" →
     get_rebalance_dates self = (Returns (dates_where quarter_differs calendar), self)).
Proof.
  intros Hdf calendar. subst calendar.
  unfold get_rebalance_dates, the_price_data, bind, get, from_option, ret.
  repeat split; intros Hfreq; rewrite Hfreq, !dates_where_behind.
  - rewrite decide_True by done. rewrite Hdf. simpl.
    by rewrite (weekly_dates_behind []).
  - rewrite decide_False, decide_True by done. rewrite Hdf. simpl.
    by rewrite <- (first_days_behind []).
  - rewrite !decide_False, decide_True by done. rewrite Hdf. simpl.
    by rewrite <- (quarterly_dates_behind []).
Qed.

Lemma rebalance_dates_by_frequency_witness :
  let self :=
    set_price_data
      (Some (Universe.mkFrame ["X"]
               [(mkDate 2024 1 30, {["X" := 10%Q]}); (mkDate 2024 1 31, {["X" := 10%Q]});
                (mkDate 2024 2 1, {["X" := 10%Q]}); (mkDate 2024 2 5, {["X" := 10%Q]});
                (mkDate 2024 4 1, {["X" := 10%Q]})]))
      (init 1000 "2024-01-30" "2024-04-02" "monthly" (Some ["X"])
         (1 # 1000) (2 # 100) (10 # 100) true) in
  (get_rebalance_dates self).1 =
  Returns [mkDate 2024 1 30; mkDate 2024 2 1; mkDate 2024 4 1].
Proof.
  intros self.
  pose proof (rebalance_dates_by_frequency self _ eq_refl) as (_ & Hmonthly & _).
  rewrite (Hmonthly eq_refl). reflexivity.
Defined.

(* ===================================================================== *)
(** ** Ranking and allocation *)
(* ===================================================================== *)

Section Sorting.

Context {A : Type} (key : A → Q).

Lemma insert_desc_perm x l : insert_desc key x l ≡ₚ x :: l.
Proof.
  induction l as [|y l IH]; simpl; [done|].
  destruct (Qle_bool (key y) (key x)); [done|].
  rewrite IH. apply Permutation_swap.
Qed.

Lemma sort_desc_perm l : sort_desc key l ≡ₚ l.
Proof.
  induction l as [|x l IH]; simpl; [done|].
  rewrite insert_desc_perm. by f_equiv.
Qed.

Lemma sort_desc_length l : length (sort_desc key l) = length l.
Proof. apply Permutation_length, sort_desc_perm. Qed.

Lemma insert_desc_descending x l :
  descending key l → descending key (insert_desc key x l).
Proof.
  unfold descending. induction l as [|y l IH]; intros Hl; simpl.
  - constructor; constructor.
  - apply StronglySorted_inv in Hl as [Hl Hy].
    destruct (Qle_bool (key y) (key x)) eqn:Hle.
    + apply Qle_bool_iff in Hle.
      constructor; [by constructor|].
      constructor; [done|].
      eapply Forall_impl; [exact Hy|].
      intros b Hb. simpl in Hb. by eapply Qle_trans.
    + constructor; [by apply IH|].
      rewrite insert_desc_perm. constructor; [|done].
      destruct (Qlt_le_dec (key y) (key x)) as [Hlt|Hge]; [|done].
      apply Qlt_le_weak, Qle_bool_iff in Hlt. congruence.
Qed.

Lemma sort_desc_descending l : descending key (sort_desc key l).
Proof.
  induction l as [|x l IH]; simpl.
  - constructor.
  - by apply insert_desc_descending.
Qed.

(** Inserting does not disturb the relative order of entries that share a
    key: the new entry lands in front of the ones with its own key. *)
Lemma insert_desc_with_key q x l :
  with_key key q (insert_desc key x l) = with_key key q (x :: l).
Proof.
  unfold with_key. induction l as [|y l IH]; [done|].
  simpl. destruct (Qle_bool (key y) (key x)) eqn:Hle; [done|].
  simpl. simpl in IH. rewrite IH.
  destruct (Qeq_bool (key y) q) eqn:Hy, (Qeq_bool (key x) q) eqn:Hx; try done.
  apply Qeq_bool_iff in Hy, Hx.
  assert (Qle_bool (key y) (key x) = true) as Habs; [|congruence].
  apply Qle_bool_iff. rewrite Hy, Hx. apply Qle_refl.
Qed.

Lemma sort_desc_stable q l : with_key key q (sort_desc key l) = with_key key q l.
Proof.
  induction l as [|x l IH]; [done|].
  simpl. rewrite insert_desc_with_key. unfold with_key in *. simpl.
  by rewrite IH.
Qed.

End Sorting.

(** Each tier is the list of the decisions with its verdict, ranked: the
    ranked list has the same entries, runs from the largest key to the
    smallest, and keeps the entries that share a key in the order they were
    met; a score or confidence that is missing counts as 0 in the key. *)
Lemma ranked_tiers w (decisions : list Decision) :
  (buy_signals_of w decisions ≡ₚ tier BUY decisions ∧
   descending (quality w) (buy_signals_of w decisions) ∧
   ∀ q, with_key (quality w) q (buy_signals_of w decisions)
        = with_key (quality w) q (tier BUY decisions)) ∧
  (hold_signals_of w decisions ≡ₚ tier HOLD decisions ∧
   descending (quality w) (hold_signals_of w decisions) ∧
   ∀ q, with_key (quality w) q (hold_signals_of w decisions)
        = with_key (quality w) q (tier HOLD decisions)) ∧
  (∀ x : Decision,
     quality w x
     = float_mul w (default 0%Q (analyst_score x)) (default 0%Q (confidence x)) ∧
     (analyst_score x = None ∨ confidence x = None → (quality w x == 0)%Q)).
Proof.
  unfold buy_signals_of, hold_signals_of, tier.
  repeat split;
    auto using sort_desc_perm, sort_desc_descending, sort_desc_stable.
  intros [Hnone|Hnone]; unfold quality; rewrite Hnone; simpl.
  - apply float_mul_0_l.
  - apply float_mul_0_r.
Qed.

(** The ladder of the allocation in percent, for the number of decisions
    with a BUY verdict. *)
Lemma allocation_ladder w (decisions : list Decision) :
  let num_buy := length (buy_signals_of w decisions) in
  num_buy = length (tier BUY decisions) ∧
  let '(buy_allocation, hold_allocation, cash_target) := allocation num_buy in
  let '(buy_pct, hold_pct, cash_pct) := allocation_pct num_buy in
  (buy_allocation * 100 == inject_Z buy_pct)%Q ∧
  (hold_allocation * 100 == inject_Z hold_pct)%Q ∧
  (cash_target * 100 == inject_Z cash_pct)%Q.
Proof.
  intros num_buy. split.
  - apply sort_desc_length.
  - unfold allocation, allocation_pct.
    repeat case_decide;
      repeat match goal with
             | |- context [(?a <=? ?b)%nat] => destruct (Nat.leb_spec a b); try lia
             end;
      done.
Qed.

(* ===================================================================== *)
(** ** Running the engine's methods *)
(* ===================================================================== *)

Lemma call_unit_op c f s : call c (unit_op f) s = (Returns tt, after_call c f s).
Proof. done. Qed.

Lemma for_each_ext {A} (l : list A) (f g : A → M unit) s :
  (∀ x s', f x s' = g x s') → for_each l f s = for_each l g s.
Proof.
  intros Hfg. revert s. induction l as [|x l IH]; intros s; [done|].
  simpl. unfold bind. rewrite Hfg. destruct (g x s) as [[[]|err] s']; [apply IH|done].
Qed.

(** A loop whose body always returns is a fold. *)
Lemma for_each_fold {A} (step : BacktestEngine → A → BacktestEngine)
    (body : A → M unit) (l : list A) s :
  (∀ x s', body x s' = (Returns tt, step s' x)) →
  for_each l body s = (Returns tt, foldl step s l).
Proof.
  intros Hbody. revert s. induction l as [|x l IH]; intros s; [done|].
  simpl. unfold bind. rewrite Hbody. apply IH.
Qed.

Lemma sell_no_signal_run w cp date (to_sell : gset string) s :
  sell_no_signal w cp date to_sell s
  = (Returns tt, foldl (sell_step cp date) s (set_order w to_sell)).
Proof.
  apply for_each_fold. intros tk s'. unfold sell_step.
  destruct (cp !! tk) as [price|]; [|done].
  unfold bind, call, after_call.
  destruct (Ledger.sell tk price date Ledger.NO_SIGNAL (portfolio s')); done.
Qed.

(** A buying loop takes its turns until the print of one of them raises. *)
Lemma buy_signals_loop_run cp date signals pct reason s :
  buy_signals_loop cp date signals pct reason s = buy_walk cp date pct reason s signals.
Proof.
  revert s. induction signals as [|signal l IH]; intros s; [done|].
  unfold buy_signals_loop in *. simpl. unfold bind at 1.
  unfold buy_trips, buy_step.
  destruct (cp !! ticker signal) as [price|]; [|apply IH].
  unfold bind at 1, get at 1.
  destruct (Ledger.positions (portfolio s) !! ticker signal); [apply IH|].
  unfold bind at 1, call at 1, after_call.
  destruct (Ledger.buy _ _ _ _ _ _ _ _) as [p' [trade|]]; cbn [fst snd].
  - rewrite bool_decide_eq_true_2 by done.
    destruct (verbose s); cbn [andb]; [|apply IH].
    destruct (analyst_score signal); cbn [format_score]; [|done].
    rewrite bool_decide_eq_false_2 by done. apply IH.
  - rewrite bool_decide_eq_false_2 by (by intros [? ?]). cbn [andb]. apply IH.
Qed.

Lemma price_row_run date s df cp :
  price_data s = Some df → Universe.loc (Universe.rows df) date = Some cp →
  price_row date s = (Returns cp, s).
Proof.
  intros Hdf Hcp. unfold price_row, the_price_data, bind, get, from_option.
  rewrite Hdf. simpl. rewrite Hcp. done.
Qed.

Lemma buy_fold_verbose cp date pct reason l s :
  verbose (foldl (buy_step cp date pct reason) s l) = verbose s.
Proof.
  revert s. induction l as [|signal l IH]; intros s; [done|].
  simpl. rewrite IH. unfold buy_step.
  destruct (cp !! ticker signal); [|done].
  by destruct (Ledger.positions (portfolio s) !! ticker signal).
Qed.

Lemma sell_fold_verbose cp date l s :
  verbose (foldl (sell_step cp date) s l) = verbose s.
Proof.
  revert s. induction l as [|tk l IH]; intros s; [done|].
  simpl. rewrite IH. unfold sell_step. by destruct (cp !! tk).
Qed.

(** Where a buying loop stands when it is over: it has taken the turns of a
    prefix of its signals, all of them if it returns; if it raises, the
    engine is verbose and the last signal it bought has no score. *)
Lemma buy_walk_done cp date pct reason l s :
  ∃ done,
    done `prefix_of` l ∧
    (buy_walk cp date pct reason s l).2 = foldl (buy_step cp date pct reason) s done ∧
    match (buy_walk cp date pct reason s l).1 with
    | Returns _ => done = l
    | Raises e =>
        e = TypeError ∧ verbose s = true ∧
        ∃ signal, last done = Some signal ∧ analyst_score signal = None
    end.
Proof.
  revert s. induction l as [|signal l IH]; intros s.
  - exists []. by simpl.
  - simpl. destruct (buy_trips cp date pct reason s signal) eqn:Htrips.
    + exists [signal]. split; [by apply prefix_cons, prefix_nil|]. split; [done|].
      simpl. unfold buy_trips in Htrips.
      destruct (cp !! ticker signal); [|done].
      destruct (Ledger.positions (portfolio s) !! ticker signal); [done|].
      apply andb_true_iff in Htrips as [Htrips Hnone].
      apply andb_true_iff in Htrips as [_ Hverbose].
      apply bool_decide_eq_true in Hnone.
      split; [done|]. split; [done|]. by exists signal.
    + destruct (IH (buy_step cp date pct reason s signal)) as (done & Hpre & Hst & Hout).
      exists (signal :: done). split; [by apply prefix_cons|]. split; [done|].
      destruct (buy_walk cp date pct reason _ l).1 as [[]|e].
      * by rewrite Hout.
      * destruct Hout as (He & Hverbose & sg & Hlast & Hnone).
        split; [done|]. split.
        { rewrite <- Hverbose. symmetry.
          apply (buy_fold_verbose cp date pct reason [signal] s). }
        exists sg. split; [|done]. destruct done; [done|]. done.
Qed.

(** [rebalance_portfolio] on a loaded engine: it sells; it stops at the
    first division when the portfolio is worth nothing; else it takes the
    turns of its two buying loops, until the print of one of them raises or
    to their end, where it saves the decisions. *)
Lemma rebalance_portfolio_shape w date s df cp tickers :
  price_data s = Some df → Universe.loc (Universe.rows df) date = Some cp →
  universe_tickers s = Some tickers →
  let decisions := analyse w tickers date in
  let total := Ledger.total_value (portfolio (opened cp date s)) in
  ∃ done1 done2,
    done1 `prefix_of` take 15 (buy_signals_of w decisions) ∧
    done2 `prefix_of` take 20 (hold_signals_of w decisions) ∧
    let s5 := bought w cp date tickers s done1 done2 in
    ((total == 0)%Q ∧ done1 = [] ∧ done2 = [] ∧
     rebalance_portfolio w date s = (Raises ZeroDivisionError, s5)) ∨
    (¬ (total == 0)%Q ∧ verbose s = true ∧
     (∃ signal, signal ∈ done1 ++ done2 ∧ analyst_score signal = None) ∧
     rebalance_portfolio w date s = (Raises TypeError, s5)) ∨
    (¬ (total == 0)%Q ∧ done1 = take 15 (buy_signals_of w decisions) ∧
     done2 = take 20 (hold_signals_of w decisions) ∧
     rebalance_portfolio w date s = (Returns tt, save_decisions decisions date s5)).
Proof.
  intros Hdf Hcp Htk decisions total.
  destruct (rebalance_portfolio w date s) as [out s'] eqn:Hrun. revert Hrun.
  unfold rebalance_portfolio.
  unfold bind at 1. rewrite (price_row_run _ _ _ _ Hdf Hcp).
  unfold bind at 1. rewrite call_unit_op.
  unfold bind at 1. rewrite call_unit_op.
  fold (opened cp date s).
  unfold bind at 1, get at 1.
  assert (universe_tickers (opened cp date s) = Some tickers) as -> by done.
  unfold bind at 1, from_option at 1, ret at 1.
  fold decisions. fold total.
  unfold bought, liquidated, keep_set, position_pct.
  fold decisions. fold total.
  destruct (allocation _) as [[buy_allocation hold_allocation] cash_target].
  cbn [fst snd]. lazy beta iota zeta.
  unfold bind at 1. rewrite sell_no_signal_run.
  set (s3 := foldl (sell_step cp date) (opened cp date s) _).
  assert (verbose s3 = verbose s) as Hv3
    by exact (sell_fold_verbose cp date _ (opened cp date s)).
  unfold bind at 1, divide at 1.
  destruct (Qeq_bool total 0) eqn:Hzero.
  { intros [= <- <-]. exists [], []. split; [apply prefix_nil|]. split; [apply prefix_nil|].
    left. split; [by apply Qeq_bool_iff|]. done. }
  assert (¬ (total == 0)%Q) as Hpos.
  { intros Heq. apply Qeq_bool_iff in Heq. congruence. }
  unfold ret at 1.
  unfold bind at 1. rewrite buy_signals_loop_run.
  match goal with
  | |- context [buy_walk cp date ?pct Ledger.REBALANCE s3 ?l] =>
      destruct (buy_walk_done cp date pct Ledger.REBALANCE l s3)
        as (done1 & Hpre1 & Hst1 & Hout1);
      destruct (buy_walk cp date pct Ledger.REBALANCE s3 l) as [[[]|e1] s4]
  end; cbn [fst snd] in Hst1, Hout1.
  2: { destruct Hout1 as (-> & Hverbose & signal & Hlast & Hnone).
       intros [= <- <-].
       exists done1, []. split; [done|]. split; [apply prefix_nil|].
       right. left. split; [done|]. split; [congruence|]. split.
       - exists signal. split; [|done]. rewrite app_nil_r.
         apply last_Some in Hlast as (l' & ->). apply elem_of_app. right. by left.
       - simpl. by rewrite Hst1. }
  subst done1.
  unfold bind at 1, divide at 1. rewrite Hzero. unfold ret at 1.
  unfold bind at 1. rewrite buy_signals_loop_run.
  match goal with
  | |- context [buy_walk cp date ?pct Ledger.HOLD_EXPOSURE s4 ?l] =>
      destruct (buy_walk_done cp date pct Ledger.HOLD_EXPOSURE l s4)
        as (done2 & Hpre2 & Hst2 & Hout2);
      destruct (buy_walk cp date pct Ledger.HOLD_EXPOSURE s4 l) as [[[]|e2] s5]
  end; cbn [fst snd] in Hst2, Hout2.
  - subst done2. unfold modify. intros [= <- <-].
    eexists _, _. split; [done|]. split; [done|].
    right. right. split; [done|]. split; [done|]. split; [done|].
    by rewrite Hst2, Hst1.
  - destruct Hout2 as (-> & Hverbose & signal & Hlast & Hnone).
    intros [= <- <-].
    eexists _, done2. split; [done|]. split; [done|].
    right. left. split; [done|]. split.
    { rewrite <- Hv3, <- Hverbose, Hst1. symmetry. apply buy_fold_verbose. }
    split.
    + exists signal. split; [|done].
      apply last_Some in Hlast as (l' & ->). rewrite !elem_of_app, elem_of_cons. tauto.
    + by rewrite Hst2, Hst1.
Qed.

(* ===================================================================== *)
(** ** The ledger operations, one ticker at a time *)
(* ===================================================================== *)

Lemma update_prices_lookup cp p tk :
  Ledger.positions (Ledger.update_prices cp p) !! tk
  = refreshed cp tk <$> Ledger.positions p !! tk.
Proof.
  unfold Ledger.update_prices, refreshed. simpl.
  rewrite map_lookup_imap. by destruct (Ledger.positions p !! tk).
Qed.

Lemma update_prices_dom cp p :
  dom (Ledger.positions (Ledger.update_prices cp p)) = dom (Ledger.positions p).
Proof.
  apply set_eq. intros tk. rewrite !elem_of_dom, update_prices_lookup.
  by rewrite fmap_is_Some.
Qed.

Lemma sell_cases tk price date reason p :
  Ledger.sell tk price date reason p = (p, None) ∨
  ∃ pos trade,
    Ledger.positions p !! tk = Some pos ∧
    Ledger.trade_ticker trade = tk ∧ Ledger.action trade = Ledger.SELL ∧
    Ledger.reason trade = reason ∧ Ledger.trade_shares trade = Ledger.shares pos ∧
    Ledger.positions (Ledger.sell tk price date reason p).1
      = delete tk (Ledger.positions p) ∧
    Ledger.trades (Ledger.sell tk price date reason p).1 = Ledger.trades p ++ [trade].
Proof.
  unfold Ledger.sell. destruct (Ledger.positions p !! tk) as [pos|]; [|by left].
  destruct (Qle_bool price 0); [by left|].
  right. eexists pos, _. simpl. repeat split; reflexivity.
Qed.

Lemma buy_cases tk price pct date sl tp reason p :
  Ledger.buy tk price pct date sl tp reason p = (p, None) ∨
  ∃ pos trade,
    Ledger.positions p !! tk = None ∧
    Ledger.trade_ticker trade = tk ∧ Ledger.action trade = Ledger.BUY ∧
    Ledger.reason trade = reason ∧
    Ledger.positions (Ledger.buy tk price pct date sl tp reason p).1
      = <[tk := pos]> (Ledger.positions p) ∧
    Ledger.trades (Ledger.buy tk price pct date sl tp reason p).1 = Ledger.trades p ++ [trade].
Proof.
  unfold Ledger.buy. destruct (Ledger.positions p !! tk) as [pos|]; [by left|].
  destruct (Qle_bool price 0); [by left|].
  case_decide; [by left|].
  destruct (negb _); [by left|].
  right. eexists _, _. simpl. repeat split; reflexivity.
Qed.

Lemma untouched_refl tk p : untouched tk p p.
Proof. split; [done|]. exists []. by rewrite app_nil_r. Qed.

Lemma untouched_trans tk p1 p2 p3 :
  untouched tk p1 p2 → untouched tk p2 p3 → untouched tk p1 p3.
Proof.
  intros [Hpos1 (n1 & Ht1 & Hn1)] [Hpos2 (n2 & Ht2 & Hn2)].
  split; [congruence|].
  exists (n1 ++ n2). rewrite Ht2, Ht1, app_assoc. split; [done|].
  by apply Forall_app.
Qed.

Lemma sell_untouched tk tk' price date reason p :
  tk ≠ tk' → untouched tk p (Ledger.sell tk' price date reason p).1.
Proof.
  intros Hne.
  destruct (sell_cases tk' price date reason p)
    as [->|(pos & trade & _ & Htk & _ & _ & _ & Hpos & Htr)].
  - apply untouched_refl.
  - split.
    + rewrite Hpos. by apply lookup_delete_ne.
    + exists [trade]. split; [done|]. constructor; [congruence|constructor].
Qed.

Lemma buy_untouched tk tk' price pct date sl tp reason p :
  tk ≠ tk' → untouched tk p (Ledger.buy tk' price pct date sl tp reason p).1.
Proof.
  intros Hne.
  destruct (buy_cases tk' price pct date sl tp reason p)
    as [->|(pos & trade & _ & Htk & _ & _ & Hpos & Htr)].
  - apply untouched_refl.
  - split.
    + rewrite Hpos. by apply lookup_insert_ne.
    + exists [trade]. split; [done|]. constructor; [congruence|constructor].
Qed.

(* ===================================================================== *)
(** ** The selling loop *)
(* ===================================================================== *)

Lemma sell_step_cases cp date s tk :
  (cp !! tk = None ∧ sell_step cp date s tk = s) ∨
  ∃ price p',
    cp !! tk = Some price ∧
    sell_step cp date s tk
      = log_call (CallSell tk price date Ledger.NO_SIGNAL) (set_portfolio p' s) ∧
    (p' = portfolio s ∨
     ∃ trade,
       is_Some (Ledger.positions (portfolio s) !! tk) ∧
       Ledger.trade_ticker trade = tk ∧ Ledger.action trade = Ledger.SELL ∧
       Ledger.reason trade = Ledger.NO_SIGNAL ∧
       Ledger.positions p' = delete tk (Ledger.positions (portfolio s)) ∧
       Ledger.trades p' = Ledger.trades (portfolio s) ++ [trade]).
Proof.
  unfold sell_step. destruct (cp !! tk) as [price|]; [right|by left].
  eexists price, _. split; [done|]. split; [reflexivity|].
  destruct (sell_cases tk price date Ledger.NO_SIGNAL (portfolio s))
    as [->|(pos & trade & Hheld & ? & ? & ? & _ & ? & ?)]; [by left|].
  right. exists trade. by rewrite Hheld.
Qed.

Lemma sell_fold_calls cp date l s :
  ledger_calls (foldl (sell_step cp date) s l) = ledger_calls s ++ sell_calls cp date l.
Proof.
  revert s. induction l as [|tk l IH]; intros s; simpl.
  - by rewrite app_nil_r.
  - rewrite IH. unfold sell_calls, sell_step. simpl.
    destruct (cp !! tk); simpl; [|done].
    by rewrite <- app_assoc.
Qed.

Lemma sell_step_trades cp date s tk :
  ∃ one,
    Ledger.trades (portfolio (sell_step cp date s tk)) = Ledger.trades (portfolio s) ++ one ∧
    Forall (λ tr, Ledger.action tr = Ledger.SELL ∧
                  Ledger.reason tr = Ledger.NO_SIGNAL ∧
                  Ledger.trade_ticker tr = tk ∧
                  is_Some (cp !! tk)) one.
Proof.
  destruct (sell_step_cases cp date s tk)
    as [[_ ->]|(price & p' & Hprice & -> & [->|(trade & _ & Htk & ? & ? & _ & Htrades)])].
  - exists []. by rewrite app_nil_r.
  - exists []. by rewrite app_nil_r.
  - exists [trade]. simpl. split; [done|].
    constructor; [|constructor]. by rewrite Hprice.
Qed.

Lemma sell_fold_trades cp date l s :
  ∃ news,
    Ledger.trades (portfolio (foldl (sell_step cp date) s l))
      = Ledger.trades (portfolio s) ++ news ∧
    Forall (λ tr, Ledger.action tr = Ledger.SELL ∧
                  Ledger.reason tr = Ledger.NO_SIGNAL ∧
                  Ledger.trade_ticker tr ∈ l ∧
                  is_Some (cp !! Ledger.trade_ticker tr)) news.
Proof.
  revert s. induction l as [|tk l IH]; intros s; simpl.
  - exists []. by rewrite app_nil_r.
  - destruct (IH (sell_step cp date s tk)) as (news & Htr & Hnews).
    destruct (sell_step_trades cp date s tk) as (one & Hone & Hfirst).
    exists (one ++ news). rewrite Htr, Hone, <- app_assoc. split; [done|].
    apply Forall_app. split.
    + eapply Forall_impl; [exact Hfirst|]. intros tr (? & ? & -> & ?).
      repeat split; try done. by left.
    + eapply Forall_impl; [exact Hnews|]. intros tr (? & ? & ? & ?).
      repeat split; try done. by right.
Qed.

Lemma sell_fold_other cp date l s tk :
  tk ∉ l ∨ cp !! tk = None →
  Ledger.positions (portfolio (foldl (sell_step cp date) s l)) !! tk
  = Ledger.positions (portfolio s) !! tk.
Proof.
  revert s. induction l as [|tk' l IH]; intros s Hnot; [done|].
  simpl. rewrite IH.
  - destruct (sell_step_cases cp date s tk')
      as [[_ ->]|(price & p' & Hprice & -> & [->|(trade & _ & _ & _ & _ & Hpos & _)])];
      try done.
    simpl. rewrite Hpos. apply lookup_delete_ne.
    intros ->. destruct Hnot as [Hnot|Hnone]; [|congruence].
    apply Hnot. by left.
  - destruct Hnot as [Hnot|Hnone]; [left|by right].
    intros Hin. apply Hnot. by right.
Qed.

(* ===================================================================== *)
(** ** The buying loops *)
(* ===================================================================== *)

Lemma buy_step_cases cp date pct reason s signal :
  buy_step cp date pct reason s signal = s ∨
  ∃ c p',
    Ledger.positions (portfolio s) !! ticker signal = None ∧
    buy_step cp date pct reason s signal = log_call c (set_portfolio p' s) ∧
    is_buy_call c = true ∧ call_ticker c = Some (ticker signal) ∧
    (p' = portfolio s ∨
     ∃ pos trade,
       Ledger.trade_ticker trade = ticker signal ∧ Ledger.action trade = Ledger.BUY ∧
       Ledger.positions p' = <[ticker signal := pos]> (Ledger.positions (portfolio s)) ∧
       Ledger.trades p' = Ledger.trades (portfolio s) ++ [trade]).
Proof.
  unfold buy_step. destruct (cp !! ticker signal) as [price|]; [|by left].
  destruct (Ledger.positions (portfolio s) !! ticker signal) eqn:Hheld; [by left|].
  right. eexists _, _. split; [done|]. split; [reflexivity|].
  split; [done|]. split; [done|].
  destruct (buy_cases (ticker signal) price pct date (stop_loss signal)
              (take_profit signal) reason (portfolio s))
    as [->|(pos & trade & _ & ? & ? & _ & ? & ?)]; [by left|].
  right. by exists pos, trade.
Qed.

(** A position that is open when a buying loop starts is still there, as
    it was, when the loop ends. *)
Lemma buy_fold_held cp date pct reason l s tk pos :
  Ledger.positions (portfolio s) !! tk = Some pos →
  Ledger.positions (portfolio (foldl (buy_step cp date pct reason) s l)) !! tk = Some pos.
Proof.
  revert s. induction l as [|signal l IH]; intros s Hheld; [done|].
  simpl. apply IH.
  destruct (buy_step_cases cp date pct reason s signal)
    as [->|(c & p' & Hfree & -> & _ & _ & [->|(pos' & trade & _ & _ & Hpos & _)])];
    try done.
  simpl. rewrite Hpos, lookup_insert_ne; [done|]. congruence.
Qed.

Lemma buy_fold_other cp date pct reason l s tk :
  tk ∉ map ticker l →
  Ledger.positions (portfolio (foldl (buy_step cp date pct reason) s l)) !! tk
  = Ledger.positions (portfolio s) !! tk.
Proof.
  revert s. induction l as [|signal l IH]; intros s Hnot; [done|].
  simpl. rewrite IH.
  - destruct (buy_step_cases cp date pct reason s signal)
      as [->|(c & p' & Hfree & -> & _ & _ & [->|(pos' & trade & _ & _ & Hpos & _)])];
      try done.
    simpl. rewrite Hpos. apply lookup_insert_ne.
    intros Heq. apply Hnot. simpl. rewrite Heq. by left.
  - intros Hin. apply Hnot. by right.
Qed.

Lemma buy_step_log cp date pct reason s signal :
  ∃ cs ts,
    ledger_calls (buy_step cp date pct reason s signal) = ledger_calls s ++ cs ∧
    Ledger.trades (portfolio (buy_step cp date pct reason s signal))
      = Ledger.trades (portfolio s) ++ ts ∧
    Forall (λ c, is_buy_call c = true ∧ call_ticker c = Some (ticker signal) ∧
                 Ledger.positions (portfolio s) !! ticker signal = None) cs ∧
    Forall (λ tr, Ledger.action tr = Ledger.BUY ∧
                  Ledger.trade_ticker tr = ticker signal ∧
                  Ledger.positions (portfolio s) !! ticker signal = None) ts.
Proof.
  destruct (buy_step_cases cp date pct reason s signal)
    as [->|(c & p' & Hfree & -> & Hbuy & Htk & [->|(pos & trade & ? & ? & _ & Hnew)])].
  - exists [], []. by rewrite !app_nil_r.
  - exists [c], []. simpl. rewrite app_nil_r. repeat split; try done.
    by constructor.
  - exists [c], [trade]. simpl. repeat split; try done; by constructor.
Qed.

(** The calls and the trades of a buying loop are purchases of tickers of
    its signals that had no position when the loop started. *)
Lemma buy_fold_log cp date pct reason l s :
  ∃ calls news,
    ledger_calls (foldl (buy_step cp date pct reason) s l) = ledger_calls s ++ calls ∧
    Ledger.trades (portfolio (foldl (buy_step cp date pct reason) s l))
      = Ledger.trades (portfolio s) ++ news ∧
    Forall (λ c, is_buy_call c = true ∧
                 ∃ tk, call_ticker c = Some tk ∧ tk ∈ map ticker l ∧
                       Ledger.positions (portfolio s) !! tk = None) calls ∧
    Forall (λ tr, Ledger.action tr = Ledger.BUY ∧
                  Ledger.trade_ticker tr ∈ map ticker l ∧
                  Ledger.positions (portfolio s) !! Ledger.trade_ticker tr = None) news.
Proof.
  revert s. induction l as [|signal l IH]; intros s; simpl.
  - exists [], []. by rewrite !app_nil_r.
  - destruct (IH (buy_step cp date pct reason s signal))
      as (calls & news & Hcalls & Htrades & Hc & Hn).
    destruct (buy_step_log cp date pct reason s signal)
      as (cs & ts & Hcs & Hts & Hc1 & Hn1).
    assert (∀ tk, Ledger.positions (portfolio (buy_step cp date pct reason s signal)) !! tk
                  = None →
                  Ledger.positions (portfolio s) !! tk = None) as Hmono.
    { intros tk Hnone. destruct (Ledger.positions (portfolio s) !! tk) as [pos|] eqn:Hs;
        [|done].
      pose proof (buy_fold_held cp date pct reason [signal] s tk pos Hs) as Hstill.
      simpl in Hstill. congruence. }
    exists (cs ++ calls), (ts ++ news).
    rewrite Hcalls, Hcs, Htrades, Hts, <- !app_assoc.
    split; [done|]. split; [done|]. split; apply Forall_app; split.
    + eapply Forall_impl; [exact Hc1|]. intros c (? & ? & ?).
      split; [done|]. exists (ticker signal). repeat split; [done|by left|done].
    + eapply Forall_impl; [exact Hc|]. intros c (? & tk & ? & ? & ?).
      split; [done|]. exists tk. repeat split; [done|by right|by apply Hmono].
    + eapply Forall_impl; [exact Hn1|]. intros tr (? & -> & ?).
      repeat split; [done|by left|done].
    + eapply Forall_impl; [exact Hn|]. intros tr (? & ? & ?).
      repeat split; [done|by right|by apply Hmono].
Qed.

(* ===================================================================== *)
(** ** One rebalance, seen from outside *)
(* ===================================================================== *)

Lemma opened_positions cp date s :
  Ledger.positions (portfolio (opened cp date s))
  = Ledger.positions (Ledger.update_prices cp (portfolio s)).
Proof. done. Qed.

Lemma opened_calls cp date s :
  ledger_calls (opened cp date s)
  = ledger_calls s ++ [CallUpdatePrices cp; CallApplySelic date selic_daily].
Proof. simpl. by rewrite <- app_assoc. Qed.

Lemma prefix_tickers (done l : list Decision) tk :
  done `prefix_of` l → tk ∈ map ticker done → tk ∈ map ticker l.
Proof. intros [rest ->] Hin. rewrite map_app, elem_of_app. by left. Qed.

Lemma elem_of_set_order w (X : gset string) tk : tk ∈ set_order w X ↔ tk ∈ X.
Proof. by rewrite (set_order_enumerates w X), elem_of_elements. Qed.

Lemma liquidated_to_sell w cp date tickers s :
  liquidated w cp date tickers s
  = foldl (sell_step cp date) (opened cp date s)
      (set_order w (dom (Ledger.positions (portfolio s)) ∖ keep_set w tickers date)).
Proof. unfold liquidated. by rewrite opened_positions, update_prices_dom. Qed.

Lemma keep_set_top w tickers date tk :
  tk ∈ keep_set w tickers date ↔
  tk ∈ map ticker (take 15 (buy_signals_of w (analyse w tickers date))) ∨
  tk ∈ map ticker (take 20 (hold_signals_of w (analyse w tickers date))).
Proof.
  unfold keep_set, keep_tickers_of. by rewrite elem_of_list_to_set, elem_of_app.
Qed.

(** A held ticker that is in the keep set, or has no price that day, comes
    out of the selling loop as it went in, with its price refreshed. *)
Lemma liquidated_kept w cp date tickers s tk :
  tk ∈ keep_set w tickers date ∨ cp !! tk = None →
  Ledger.positions (portfolio (liquidated w cp date tickers s)) !! tk
  = refreshed cp tk <$> Ledger.positions (portfolio s) !! tk.
Proof.
  intros Hkept. rewrite liquidated_to_sell, sell_fold_other.
  - by rewrite opened_positions, update_prices_lookup.
  - destruct Hkept as [Hkeep|Hnone]; [left|by right].
    rewrite elem_of_set_order, elem_of_difference. tauto.
Qed.

Lemma liquidated_free w cp date tickers s tk :
  tk ∈ keep_set w tickers date →
  Ledger.positions (portfolio (liquidated w cp date tickers s)) !! tk = None →
  Ledger.positions (portfolio s) !! tk = None.
Proof.
  intros Hkeep. rewrite liquidated_kept by by left.
  by destruct (Ledger.positions (portfolio s) !! tk).
Qed.

Lemma new_calls_app s s' calls :
  ledger_calls s' = ledger_calls s ++ calls → new_calls s s' = calls.
Proof. intros Heq. unfold new_calls. by rewrite Heq, drop_app_length. Qed.

Lemma new_trades_app p p' news :
  Ledger.trades p' = Ledger.trades p ++ news → new_trades p p' = news.
Proof. intros Heq. unfold new_trades. by rewrite Heq, drop_app_length. Qed.

(** The calls and trades of one rebalance, whether it ends or stops at the
    division: two opening calls, the sales of the held tickers outside the
    keep set, then purchases of keep-set tickers that were not held. *)
Lemma rebalance_effects w date s df cp tickers out s' :
  price_data s = Some df → Universe.loc (Universe.rows df) date = Some cp →
  universe_tickers s = Some tickers →
  rebalance_portfolio w date s = (out, s') →
  let keep := keep_set w tickers date in
  let to_sell := dom (Ledger.positions (portfolio s)) ∖ keep in
  ∃ buys sold bought,
    ledger_calls s'
      = ledger_calls s
        ++ [CallUpdatePrices cp; CallApplySelic date selic_daily]
        ++ sell_calls cp date (set_order w to_sell) ++ buys ∧
    Ledger.trades (portfolio s') = Ledger.trades (portfolio s) ++ sold ++ bought ∧
    Forall (λ c, is_buy_call c = true ∧
                 ∃ tk, call_ticker c = Some tk ∧ tk ∈ keep ∧
                       Ledger.positions (portfolio s) !! tk = None) buys ∧
    Forall (λ tr, Ledger.action tr = Ledger.SELL ∧
                  Ledger.reason tr = Ledger.NO_SIGNAL ∧
                  Ledger.trade_ticker tr ∈ to_sell ∧
                  is_Some (cp !! Ledger.trade_ticker tr)) sold ∧
    Forall (λ tr, Ledger.action tr = Ledger.BUY ∧
                  Ledger.trade_ticker tr ∈ keep ∧
                  Ledger.positions (portfolio s) !! Ledger.trade_ticker tr = None) bought ∧
    (∀ tk pos, Ledger.positions (portfolio s) !! tk = Some pos →
               tk ∈ keep ∨ cp !! tk = None →
               Ledger.positions (portfolio s') !! tk = Some (refreshed cp tk pos)).
Proof.
  intros Hdf Hcp Htk Hrun keep to_sell.
  destruct (rebalance_portfolio_shape w date s df cp tickers Hdf Hcp Htk)
    as (done1 & done2 & Hpre1 & Hpre2 & Hcases).
  assert (portfolio s' = portfolio (bought w cp date tickers s done1 done2) ∧
          ledger_calls s' = ledger_calls (bought w cp date tickers s done1 done2))
    as [Hp Hc].
  { destruct Hcases as [(_&_&_&Heq)|[(_&_&_&Heq)|(_&_&_&Heq)]];
      rewrite Heq in Hrun; by inversion Hrun. }
  rewrite Hp, Hc. clear Hp Hc Hcases Hrun.
  pose proof (liquidated_to_sell w cp date tickers s) as Hliq.
  fold keep in Hliq. fold to_sell in Hliq.
  pose proof (sell_fold_calls cp date (set_order w to_sell) (opened cp date s)) as Hsc.
  destruct (sell_fold_trades cp date (set_order w to_sell) (opened cp date s))
    as (sold & Hst & Hsold).
  rewrite <- Hliq in Hsc, Hst. rewrite opened_calls, <- app_assoc in Hsc.
  change (Ledger.trades (portfolio (opened cp date s)))
    with (Ledger.trades (portfolio s)) in Hst.
  assert (Forall (λ tr, Ledger.action tr = Ledger.SELL ∧
                        Ledger.reason tr = Ledger.NO_SIGNAL ∧
                        Ledger.trade_ticker tr ∈ to_sell ∧
                        is_Some (cp !! Ledger.trade_ticker tr)) sold) as Hsold'.
  { eapply Forall_impl; [exact Hsold|]. intros tr (? & ? & Hin & ?).
    by rewrite elem_of_set_order in Hin. }
  unfold bought.
  set (s3 := liquidated w cp date tickers s) in *.
  set (buy_signals := buy_signals_of w (analyse w tickers date)) in *.
  set (hold_signals := hold_signals_of w (analyse w tickers date)) in *.
  set (pct1 := position_pct _ _ 15 _). set (pct2 := position_pct _ _ 20 _).
  set (s4 := foldl (buy_step cp date pct1 Ledger.REBALANCE) s3 done1).
  set (s5 := foldl (buy_step cp date pct2 Ledger.HOLD_EXPOSURE) s4 done2).
  destruct (buy_fold_log cp date pct1 Ledger.REBALANCE done1 s3)
    as (c1 & n1 & Hc1 & Hn1 & Hfc1 & Hfn1).
  destruct (buy_fold_log cp date pct2 Ledger.HOLD_EXPOSURE done2 s4)
    as (c2 & n2 & Hc2 & Hn2 & Hfc2 & Hfn2).
  fold s4 in Hc1, Hn1. fold s5 in Hc2, Hn2.
  assert (∀ tk, Ledger.positions (portfolio s4) !! tk = None →
                Ledger.positions (portfolio s3) !! tk = None) as Hmono.
  { intros tk Hnone.
    destruct (Ledger.positions (portfolio s3) !! tk) as [pos|] eqn:Hs3; [|done].
    pose proof (buy_fold_held cp date pct1 Ledger.REBALANCE done1
                  s3 tk pos Hs3) as Hstill.
    fold s4 in Hstill. congruence. }
  assert (∀ tk, tk ∈ map ticker done1 → tk ∈ keep) as Hkeep1.
  { intros tk Hin. apply keep_set_top. left. by eapply prefix_tickers. }
  assert (∀ tk, tk ∈ map ticker done2 → tk ∈ keep) as Hkeep2.
  { intros tk Hin. apply keep_set_top. right. by eapply prefix_tickers. }
  exists (c1 ++ c2), sold, (n1 ++ n2).
  split; [|split; [|split; [|split; [done|split]]]].
  + by rewrite Hc2, Hc1, Hsc, <- !app_assoc.
  + by rewrite Hn2, Hn1, Hst, <- !app_assoc.
  + apply Forall_app. split.
    * eapply Forall_impl; [exact Hfc1|]. intros c (? & tk & ? & Hin & Hfree).
      split; [done|]. exists tk.
      split; [done|]. split; [by apply Hkeep1|]. eapply liquidated_free; [|done].
      by apply Hkeep1.
    * eapply Forall_impl; [exact Hfc2|]. intros c (? & tk & ? & Hin & Hfree).
      split; [done|]. exists tk.
      split; [done|]. split; [by apply Hkeep2|].
      eapply liquidated_free; [by apply Hkeep2|]. by apply Hmono.
  + apply Forall_app. split.
    * eapply Forall_impl; [exact Hfn1|]. intros tr (? & Hin & Hfree).
      split; [done|]. split; [by apply Hkeep1|]. eapply liquidated_free; [|done].
      by apply Hkeep1.
    * eapply Forall_impl; [exact Hfn2|]. intros tr (? & Hin & Hfree).
      split; [done|]. split; [by apply Hkeep2|].
      eapply liquidated_free; [by apply Hkeep2|]. by apply Hmono.
  + intros tk pos Hheld Hkept.
    pose proof (liquidated_kept w cp date tickers s tk Hkept) as Hs3.
    fold s3 in Hs3. rewrite Hheld in Hs3. simpl in Hs3.
    apply (buy_fold_held cp date pct2 Ledger.HOLD_EXPOSURE done2 s4).
    by apply buy_fold_held.
Qed.

Lemma buy_signals_member w (decisions : list Decision) x :
  x ∈ buy_signals_of w decisions ↔ x ∈ decisions ∧ verdict x = BUY.
Proof.
  unfold buy_signals_of. rewrite sort_desc_perm, list_elem_of_In, List.filter_In.
  by rewrite bool_decide_eq_true, <- list_elem_of_In.
Qed.

Lemma hold_signals_member w (decisions : list Decision) x :
  x ∈ hold_signals_of w decisions ↔ x ∈ decisions ∧ verdict x = HOLD.
Proof.
  unfold hold_signals_of. rewrite sort_desc_perm, list_elem_of_In, List.filter_In.
  by rewrite bool_decide_eq_true, <- list_elem_of_In.
Qed.

Lemma prefix_take_elem {A} (done l : list A) n x :
  done `prefix_of` take n l → x ∈ done → x ∈ l.
Proof.
  intros [rest Heq] Hin. rewrite <- (take_drop n l), Heq, !elem_of_app. by left; left.
Qed.

(** What a rebalance on a loaded engine comes to, whatever the analyses
    did: it returns, unless the portfolio is worth nothing, or the engine is
    verbose and has bought on a decision without a score. *)
Lemma rebalance_portfolio_outcome w date s df cp tickers :
  price_data s = Some df → Universe.loc (Universe.rows df) date = Some cp →
  universe_tickers s = Some tickers →
  (rebalance_portfolio w date s).1 = Returns tt ∨
  ((rebalance_portfolio w date s).1 = Raises ZeroDivisionError ∧
   (Ledger.total_value (portfolio (opened cp date s)) == 0)%Q) ∨
  ((rebalance_portfolio w date s).1 = Raises TypeError ∧ verbose s = true ∧
   ∃ signal, signal ∈ analyse w tickers date ∧ analyst_score signal = None).
Proof.
  intros Hdf Hcp Htk.
  destruct (rebalance_portfolio_shape w date s df cp tickers Hdf Hcp Htk)
    as (done1 & done2 & Hpre1 & Hpre2 & Hcases).
  destruct Hcases as [(Hzero&_&_&->)|[(_&Hverbose&Hsignal&->)|(_&_&_&->)]];
    [right; by left| |by left].
  right. right. split; [done|]. split; [done|].
  destruct Hsignal as (signal & Hin & Hnone). exists signal. split; [|done].
  apply elem_of_app in Hin as [Hin|Hin].
  - eapply prefix_take_elem in Hin; [|done]. by apply buy_signals_member in Hin as [? _].
  - eapply prefix_take_elem in Hin; [|done]. by apply hold_signals_member in Hin as [? _].
Qed.

(** C5.  In a rebalance, the keep set is made of the tickers of the 15
    best-ranked BUY signals and of the 20 best-ranked HOLD signals; the
    [sell] calls of the rebalance are exactly one kind: for each ticker that
    is held, is outside the keep set and has a price in the day's row, a
    call at that price, on that date, with reason NO_SIGNAL.  A held ticker
    that the row lacks gets no call at all and keeps its position. *)
Theorem unkept_positions_are_sold w date s df cp tickers out s' :
  price_data s = Some df → Universe.loc (Universe.rows df) date = Some cp →
  universe_tickers s = Some tickers →
  rebalance_portfolio w date s = (out, s') →
  let decisions := analyse w tickers date in
  let keep_tickers :=
    keep_tickers_of (buy_signals_of w decisions) (hold_signals_of w decisions) in
  (∀ tk, tk ∈ keep_tickers ↔
         tk ∈ map ticker (take 15 (buy_signals_of w decisions)) ∨
         tk ∈ map ticker (take 20 (hold_signals_of w decisions))) ∧
  (∀ tk price d r,
     CallSell tk price d r ∈ new_calls s s' ↔
     is_Some (Ledger.positions (portfolio s) !! tk) ∧ (tk ∉ keep_tickers) ∧
     cp !! tk = Some price ∧ d = date ∧ r = Ledger.NO_SIGNAL) ∧
  (∀ tk pos,
     Ledger.positions (portfolio s) !! tk = Some pos → cp !! tk = None →
     Ledger.positions (portfolio s') !! tk = Some pos ∧
     ∀ c, c ∈ new_calls s s' → call_ticker c ≠ Some tk).
Proof.
  intros Hdf Hcp Htk Hrun decisions keep_tickers.
  destruct (rebalance_effects _ _ _ _ _ _ _ _ Hdf Hcp Htk Hrun)
    as (buys & sold & bought & Hcalls & _ & Hbuys & _ & _ & Hkept).
  apply new_calls_app in Hcalls.
  fold (keep_set w tickers date) in keep_tickers.
  assert (∀ tk price d r,
            CallSell tk price d r ∈
              sell_calls cp date
                (set_order w (dom (Ledger.positions (portfolio s)) ∖ keep_set w tickers date)) ↔
            is_Some (Ledger.positions (portfolio s) !! tk) ∧ (tk ∉ keep_tickers) ∧
            cp !! tk = Some price ∧ d = date ∧ r = Ledger.NO_SIGNAL) as Hsell.
  { intros tk price d r. unfold sell_calls. rewrite list_elem_of_omap. split.
    - intros (tk' & Hin & Hcall).
      rewrite elem_of_set_order, elem_of_difference, elem_of_dom in Hin.
      destruct (cp !! tk') as [price'|] eqn:Hprice; [|done].
      simpl in Hcall. injection Hcall as -> -> -> ->. tauto.
    - intros (Hheld & Hout & Hprice & -> & ->). exists tk.
      rewrite elem_of_set_order, elem_of_difference, elem_of_dom, Hprice. done. }
  split; [apply keep_set_top|]. split.
  - intros tk price d r. rewrite <- Hsell, Hcalls.
    rewrite !elem_of_app, !elem_of_cons, elem_of_nil. split; [|tauto].
    intros [[?|[?|[]]]|[?|Hin]]; try done.
    rewrite Forall_forall in Hbuys. by destruct (Hbuys _ Hin) as [? _].
  - intros tk pos Hheld Hnone. split.
    + rewrite (Hkept tk pos Hheld) by by right. unfold refreshed. by rewrite Hnone.
    + intros c. rewrite Hcalls, !elem_of_app, !elem_of_cons, elem_of_nil.
      intros [[->|[->|[]]]|[Hin|Hin]]; try done.
      * unfold sell_calls in Hin. apply list_elem_of_omap in Hin as (tk' & _ & Hcall).
        destruct (cp !! tk') as [price'|] eqn:Hprice; [|done].
        simpl in Hcall. injection Hcall as <-. simpl. congruence.
      * rewrite Forall_forall in Hbuys.
        destruct (Hbuys _ Hin) as (_ & tk' & -> & _ & Hfree). congruence.
Qed.

Lemma unkept_positions_are_sold_witness :
  CallSell "AAA" 12 Scenario.monday2 Ledger.NO_SIGNAL
    ∈ new_calls Scenario.at_rebalance
        (rebalance_portfolio Scenario.world Scenario.monday2 Scenario.at_rebalance).2.
Proof.
  pose proof (unkept_positions_are_sold Scenario.world Scenario.monday2
                Scenario.at_rebalance Scenario.table Scenario.row_monday2
                Scenario.universe
                (rebalance_portfolio Scenario.world Scenario.monday2
                   Scenario.at_rebalance).1
                (rebalance_portfolio Scenario.world Scenario.monday2
                   Scenario.at_rebalance).2)
    as Hsold.
  destruct Hsold as (_ & Hsold & _).
  - vm_compute. reflexivity.
  - vm_compute. reflexivity.
  - reflexivity.
  - apply surjective_pairing.
  - apply Hsold. repeat split.
    + vm_compute. eauto.
    + apply not_elem_of_list_to_set. vm_compute.
      intros Hin. repeat (apply elem_of_cons in Hin as [Hin|Hin]; [discriminate|]).
      by apply elem_of_nil in Hin.
Defined.

(* ===================================================================== *)
(** ** The stop check *)
(* ===================================================================== *)

(** What holds of the ledger all along the walk of [check_stops]:
    positions are only ever removed, and every trade added is the sale of
    a ticker that was held and no longer is. *)
Lemma check_stops_walk date p (l : list string) acc :
  (∀ tk, Ledger.positions acc !! tk = None ∨
         Ledger.positions acc !! tk = Ledger.positions p !! tk) →
  (∃ news, Ledger.trades acc = Ledger.trades p ++ news ∧
           Forall (λ tr, Ledger.action tr = Ledger.SELL ∧
                         is_Some (Ledger.positions p !! Ledger.trade_ticker tr) ∧
                         Ledger.positions acc !! Ledger.trade_ticker tr = None) news) →
  let final :=
    foldl
      (λ acc tk,
         match Ledger.positions p !! tk with
         | Some pos =>
             match Ledger.stop_reason pos with
             | Some r => (Ledger.sell tk (Ledger.current_price pos) date r acc).1
             | None => acc
             end
         | None => acc
         end)
      acc l in
  (∀ tk, Ledger.positions final !! tk = None ∨
         Ledger.positions final !! tk = Ledger.positions p !! tk) ∧
  (∃ news, Ledger.trades final = Ledger.trades p ++ news ∧
           Forall (λ tr, Ledger.action tr = Ledger.SELL ∧
                         is_Some (Ledger.positions p !! Ledger.trade_ticker tr) ∧
                         Ledger.positions final !! Ledger.trade_ticker tr = None) news).
Proof.
  revert acc. induction l as [|tk l IH]; intros acc Hpos Htrades; [done|].
  simpl. apply IH; clear IH.
  - intros tk'. destruct (Ledger.positions p !! tk) as [pos|] eqn:Hheld; [|done].
    destruct (Ledger.stop_reason pos) as [r|]; [|done].
    destruct (sell_cases tk (Ledger.current_price pos) date r acc)
      as [->|(_ & _ & _ & _ & _ & _ & _ & Hdel & _)]; [done|].
    rewrite Hdel. destruct (decide (tk = tk')) as [->|Hne].
    + left. apply lookup_delete_eq.
    + rewrite lookup_delete_ne by done. apply Hpos.
  - destruct Htrades as (news & Hnews & Hall).
    destruct (Ledger.positions p !! tk) as [pos|] eqn:Hheld; [|by exists news].
    destruct (Ledger.stop_reason pos) as [r|]; [|by exists news].
    destruct (sell_cases tk (Ledger.current_price pos) date r acc)
      as [->|(_ & trade & _ & Htk & Hact & _ & _ & Hdel & Hadd)]; [by exists news|].
    exists (news ++ [trade]). rewrite Hadd, Hnews, app_assoc. split; [done|].
    apply Forall_app. split.
    + eapply Forall_impl; [exact Hall|]. intros tr (? & ? & Hgone).
      repeat split; try done. rewrite Hdel.
      destruct (decide (tk = Ledger.trade_ticker tr)) as [->|Hne].
      * apply lookup_delete_eq.
      * by rewrite lookup_delete_ne.
    + constructor; [|constructor]. rewrite Htk, Hdel, Hheld.
      repeat split; [done|done|apply lookup_delete_eq].
Qed.

Lemma check_stops_effects date p :
  (∀ tk, Ledger.positions (Ledger.check_stops date p) !! tk = None ∨
         Ledger.positions (Ledger.check_stops date p) !! tk = Ledger.positions p !! tk) ∧
  (∃ news,
     Ledger.trades (Ledger.check_stops date p) = Ledger.trades p ++ news ∧
     Forall (λ tr, Ledger.action tr = Ledger.SELL ∧
                   is_Some (Ledger.positions p !! Ledger.trade_ticker tr) ∧
                   Ledger.positions (Ledger.check_stops date p) !! Ledger.trade_ticker tr
                   = None) news).
Proof.
  apply check_stops_walk.
  - intros tk. by right.
  - exists []. by rewrite app_nil_r.
Qed.

(* ===================================================================== *)
(** ** One day of the main loop *)
(* ===================================================================== *)

Lemma run_day_run w rd date s df cp :
  price_data s = Some df → Universe.loc (Universe.rows df) date = Some cp →
  run_day w rd date s =
  if decide (date ∈ rd) then
    match rebalance_portfolio w date (day_opened cp date s) with
    | (Returns _, s4) => (Returns tt, day_closed date s4)
    | (Raises e, s4) => (Raises e, s4)
    end
  else (Returns tt, day_closed date (day_opened cp date s)).
Proof.
  intros Hdf Hcp. unfold run_day.
  unfold bind at 1. rewrite (price_row_run _ _ _ _ Hdf Hcp).
  unfold bind at 1. rewrite call_unit_op.
  unfold bind at 1. rewrite call_unit_op.
  unfold bind at 1. rewrite call_unit_op.
  fold (day_opened cp date s).
  unfold bind at 1. case_decide.
  - destruct (rebalance_portfolio w date (day_opened cp date s)) as [[[]|e] s4]; done.
  - done.
Qed.

Lemma day_opened_calls cp date s :
  ledger_calls (day_opened cp date s)
  = ledger_calls s
    ++ [CallUpdatePrices cp; CallApplySelic date (35 # 100000); CallCheckStops date].
Proof. simpl. by rewrite <- !app_assoc. Qed.


Lemma refreshed_idempotent cp tk pos :
  refreshed cp tk (refreshed cp tk pos) = refreshed cp tk pos.
Proof. unfold refreshed. by destruct (cp !! tk). Qed.

(** A position that is open once the day is opened already carries the
    day's price. *)
Lemma day_opened_refreshed cp date s tk pos :
  Ledger.positions (portfolio (day_opened cp date s)) !! tk = Some pos →
  refreshed cp tk pos = pos.
Proof.
  change (portfolio (day_opened cp date s))
    with (Ledger.check_stops date
            (Ledger.apply_selic_to_cash date (35 # 100000)
               (Ledger.update_prices cp (portfolio s)))).
  intros Hpos.
  destruct (check_stops_effects date
              (Ledger.apply_selic_to_cash date (35 # 100000)
                 (Ledger.update_prices cp (portfolio s)))) as [Hsame _].
  destruct (Hsame tk) as [Hnone|Heq]; [congruence|].
  rewrite Hpos in Heq.
  change (Ledger.positions (Ledger.apply_selic_to_cash date (35 # 100000)
                              (Ledger.update_prices cp (portfolio s))))
    with (Ledger.positions (Ledger.update_prices cp (portfolio s))) in Heq.
  rewrite update_prices_lookup in Heq.
  destruct (Ledger.positions (portfolio s) !! tk) as [pos0|]; [|done].
  injection Heq as ->. apply refreshed_idempotent.
Qed.

(** C7.  A buying loop passes over a signal whose ticker has a position,
    leaving the engine as it is.  In a rebalance, a ticker held at the start
    is the object of no [buy] call; a trade on it can only be its sale, and
    then it is outside the keep set; if it is in the keep set no trade
    touches it and its position stays as it was, but for the current price
    taken from the day's row, which in the main loop, where the day's prices
    are already in, leaves the position unchanged.  Every trade of the
    rebalance is the sale of a held ticker outside the keep set or the
    purchase of a keep-set ticker that was not held. *)
Theorem held_positions_are_not_resized w date s df cp tickers out s' :
  price_data s = Some df → Universe.loc (Universe.rows df) date = Some cp →
  universe_tickers s = Some tickers →
  rebalance_portfolio w date s = (out, s') →
  let keep := keep_set w tickers date in
  let trades := new_trades (portfolio s) (portfolio s') in
  (∀ current_prices d signal pct reason st,
     is_Some (Ledger.positions (portfolio st) !! ticker signal) →
     buy_signals_loop current_prices d [signal] pct reason st = (Returns tt, st)) ∧
  (∀ tk pos,
     Ledger.positions (portfolio s) !! tk = Some pos →
     (∀ c, c ∈ new_calls s s' → is_buy_call c = true → call_ticker c ≠ Some tk) ∧
     (∀ tr, tr ∈ trades → Ledger.trade_ticker tr = tk →
            Ledger.action tr = Ledger.SELL ∧ tk ∉ keep) ∧
     (tk ∈ keep →
        Ledger.positions (portfolio s') !! tk = Some (refreshed cp tk pos) ∧
        (∀ tr, tr ∈ trades → Ledger.trade_ticker tr ≠ tk) ∧
        (∀ s0, s = day_opened cp date s0 →
               Ledger.positions (portfolio s') !! tk = Some pos))) ∧
  (∀ tr, tr ∈ trades →
     (Ledger.action tr = Ledger.SELL ∧
      is_Some (Ledger.positions (portfolio s) !! Ledger.trade_ticker tr) ∧
      Ledger.trade_ticker tr ∉ keep) ∨
     (Ledger.action tr = Ledger.BUY ∧
      Ledger.positions (portfolio s) !! Ledger.trade_ticker tr = None ∧
      Ledger.trade_ticker tr ∈ keep)).
Proof.
  intros Hdf Hcp Htk Hrun keep trades.
  destruct (rebalance_effects _ _ _ _ _ _ _ _ Hdf Hcp Htk Hrun)
    as (buys & sold & bought & Hcalls & Htrades & Hbuys & Hsold & Hbought & Hkept).
  apply new_calls_app in Hcalls. apply new_trades_app in Htrades.
  fold keep in Hbuys, Hsold, Hbought, Hkept. fold trades in Htrades.
  rewrite Forall_forall in Hbuys. rewrite Forall_forall in Hsold.
  rewrite Forall_forall in Hbought.
  assert (∀ tr, tr ∈ trades →
            (Ledger.action tr = Ledger.SELL ∧
             is_Some (Ledger.positions (portfolio s) !! Ledger.trade_ticker tr) ∧
             Ledger.trade_ticker tr ∉ keep) ∨
            (Ledger.action tr = Ledger.BUY ∧
             Ledger.positions (portfolio s) !! Ledger.trade_ticker tr = None ∧
             Ledger.trade_ticker tr ∈ keep)) as Hkinds.
  { intros tr. rewrite Htrades, elem_of_app. intros [Hin|Hin].
    - left. destruct (Hsold _ Hin) as (? & _ & Hto_sell & _).
      rewrite elem_of_difference, elem_of_dom in Hto_sell. tauto.
    - right. destruct (Hbought _ Hin) as (? & ? & ?). done. }
  split; [|split; [|done]].
  - intros current_prices d signal pct reason st [pos Hheld].
    rewrite buy_signals_loop_run. simpl. unfold buy_trips, buy_step.
    rewrite Hheld. by destruct (current_prices !! ticker signal).
  - intros tk pos Hheld.
    assert (∀ tr, tr ∈ trades → Ledger.trade_ticker tr = tk →
                  Ledger.action tr = Ledger.SELL ∧ tk ∉ keep) as Honly_sold.
    { intros tr Hin <-. destruct (Hkinds _ Hin) as [(? & _ & ?)|(_ & Hfree & _)];
        [done|congruence]. }
    split; [|split; [done|]].
    + intros c. rewrite Hcalls, !elem_of_app, !elem_of_cons, elem_of_nil.
      intros [[->|[->|[]]]|[Hin|Hin]] Hbuy; try done.
      * unfold sell_calls in Hin. apply list_elem_of_omap in Hin as (tk' & _ & Hcall).
        destruct (cp !! tk'); [|done]. simpl in Hcall. by injection Hcall as <-.
      * destruct (Hbuys _ Hin) as (_ & tk' & -> & _ & Hfree). congruence.
    + intros Hkeep. split; [|split].
      * apply Hkept; [done|by left].
      * intros tr Hin Heq. by destruct (Honly_sold _ Hin Heq).
      * intros s0 ->. rewrite (Hkept tk pos Hheld) by by left.
        f_equal. by eapply day_opened_refreshed.
Qed.

Lemma held_positions_are_not_resized_witness :
  Ledger.positions
    (portfolio (rebalance_portfolio Scenario.world Scenario.monday2
                  Scenario.at_rebalance).2) !! "DDD"
  = Ledger.positions (portfolio Scenario.at_rebalance) !! "DDD".
Proof.
  destruct (Ledger.positions (portfolio Scenario.at_rebalance) !! "DDD")
    as [pos|] eqn:Hheld; [|vm_compute in Hheld; discriminate].
  pose proof (held_positions_are_not_resized Scenario.world Scenario.monday2
                Scenario.at_rebalance Scenario.table Scenario.row_monday2
                Scenario.universe
                (rebalance_portfolio Scenario.world Scenario.monday2
                   Scenario.at_rebalance).1
                (rebalance_portfolio Scenario.world Scenario.monday2
                   Scenario.at_rebalance).2)
    as Hkept.
  destruct Hkept as (_ & Hkept & _).
  - vm_compute. reflexivity.
  - vm_compute. reflexivity.
  - reflexivity.
  - apply surjective_pairing.
  - destruct (Hkept "DDD" pos Hheld) as (_ & _ & Hsame).
    destruct Hsame as (_ & _ & Hsame).
    + apply elem_of_list_to_set. vm_compute. apply elem_of_cons. right.
      apply elem_of_cons. by left.
    + by apply (Hsame Scenario.after_two_days).
Defined.



(* ===================================================================== *)
(** ** Cash accrual *)
(* ===================================================================== *)

Lemma filter_none {A} (f : A → bool) (l : list A) :
  Forall (λ x, f x = false) l → List.filter f l = [].
Proof.
  induction 1 as [|x l Hx _ IH]; [done|]. simpl. by rewrite Hx.
Qed.

(** The accrual calls of one completed day of the main loop: one on an
    ordinary day; on a rebalance date the strategy adds its own after the
    stop check. *)
Lemma selic_calls_of_a_day w rd date s df cp tickers s' :
  price_data s = Some df → Universe.loc (Universe.rows df) date = Some cp →
  universe_tickers s = Some tickers →
  run_day w rd date s = (Returns tt, s') →
  List.filter is_selic_call (new_calls s s')
  = if decide (date ∈ rd)
    then [CallApplySelic date (35 # 100000); CallApplySelic date selic_daily]
    else [CallApplySelic date (35 # 100000)].
Proof.
  intros Hdf Hcp Htk Hrun.
  rewrite (run_day_run _ _ _ _ _ _ Hdf Hcp) in Hrun.
  pose proof (day_opened_calls cp date s) as Hopen.
  destruct (decide (date ∈ rd)) as [Hin|Hout].
  - destruct (rebalance_portfolio w date (day_opened cp date s)) as [out4 s4] eqn:Hreb.
    destruct (rebalance_effects w date (day_opened cp date s) df cp tickers out4 s4)
      as (buys & _ & _ & Hcalls & _ & Hbuys & _); try done.
    destruct out4 as [[]|e]; inversion Hrun; subst s'.
    assert (ledger_calls (day_closed date s4) = ledger_calls s4 ++ [CallRecordState date])
      as Hclose by done.
    rewrite Hcalls, Hopen, <- !app_assoc in Hclose.
    rewrite (new_calls_app _ _ _ Hclose).
    rewrite !List.filter_app. simpl.
    rewrite (filter_none is_selic_call (sell_calls _ _ _)).
    + rewrite (filter_none is_selic_call buys); [done|].
      eapply Forall_impl; [exact Hbuys|]. intros c [Hbuy _]. by destruct c.
    + apply Forall_forall. intros c Hc. unfold sell_calls in Hc.
      apply list_elem_of_omap in Hc as (tk & _ & Hcall).
      destruct (cp !! tk); [|done]. simpl in Hcall. by injection Hcall as <-.
  - inversion Hrun; subst s'.
    assert (ledger_calls (day_closed date (day_opened cp date s))
            = ledger_calls (day_opened cp date s) ++ [CallRecordState date])
      as Hclose by done.
    rewrite Hopen, <- !app_assoc in Hclose.
    by rewrite (new_calls_app _ _ _ Hclose).
Qed.

(** C1.  Cash is to accrue interest once per simulated day, before any
    trade of that day, rebalance date or not.  On a rebalance date the
    engine accrues twice: in the main loop, and again at the head of
    [rebalance_portfolio], after the stop check.  Here, on a Monday (a
    weekly rebalance date) of a market without a single trade, cash of
    1,000,000 grows by the daily factor twice, while on the Tuesday that
    follows it grows once. *)
Theorem selic_accrued_twice_on_rebalance_day :
  let monday :=
    run_day Scenario.quiet_world Scenario.mondays Scenario.monday1
      Scenario.quiet_prepared in
  let tuesday :=
    run_day Scenario.quiet_world Scenario.mondays Scenario.tuesday1 monday.2 in
  monday.1 = Returns tt ∧ tuesday.1 = Returns tt ∧
  new_calls Scenario.quiet_prepared monday.2
    = [CallUpdatePrices (Scenario.quiet_row 10);
       CallApplySelic Scenario.monday1 (35 # 100000);
       CallCheckStops Scenario.monday1;
       CallUpdatePrices (Scenario.quiet_row 10);
       CallApplySelic Scenario.monday1 selic_daily;
       CallRecordState Scenario.monday1] ∧
  new_calls monday.2 tuesday.2
    = [CallUpdatePrices (Scenario.quiet_row 11);
       CallApplySelic Scenario.tuesday1 (35 # 100000);
       CallCheckStops Scenario.tuesday1;
       CallRecordState Scenario.tuesday1] ∧
  Ledger.trades (portfolio tuesday.2) = [] ∧
  (Ledger.cash (portfolio monday.2)
   == 1000000 * (1 + (35 # 100000)) * (1 + (35 # 100000)))%Q ∧
  ¬ (Ledger.cash (portfolio monday.2) == 1000000 * (1 + (35 # 100000)))%Q ∧
  (Ledger.cash (portfolio tuesday.2)
   == Ledger.cash (portfolio monday.2) * (1 + (35 # 100000)))%Q.
Proof.
  vm_compute. repeat split; (reflexivity || discriminate).
Qed.

(* ===================================================================== *)
(** ** Configuration errors *)
(* ===================================================================== *)

Lemma prepare_data_run w s :
  prepare_data w s =
  match universe_tickers s with
  | Some tickers => load_prices w tickers s
  | None =>
      if decide (length (derived_universe w s) < 10)%nat
      then (Raises (UniverseTooSmall (length (derived_universe w s))),
            set_universe_tickers (Some (derived_universe w s)) s)
      else load_prices w (derived_universe w s)
             (set_universe_tickers (Some (derived_universe w s)) s)
  end.
Proof.
  unfold prepare_data, load_prices, bind, get, modify, raise, ret, from_option.
  change (Universe.get_universe (download w) (start_date s) (end_date s) 400)
    with (derived_universe w s).
  generalize (derived_universe w s). intros derived.
  destruct (universe_tickers s) as [tickers|] eqn:Htk.
  - rewrite Htk. simpl. by destruct (Universe.empty _).
  - simpl. case_decide; [done|]. simpl. by destruct (Universe.empty _).
Qed.

Lemma get_rebalance_dates_invalid s :
  rebalance_frequency s ∉ valid_frequencies →
  get_rebalance_dates s = (Raises (InvalidFrequency (rebalance_frequency s)), s).
Proof.
  intros Hinvalid. unfold get_rebalance_dates, bind, get.
  rewrite !decide_False; [done| | |];
    intros Heq; apply Hinvalid; rewrite Heq; unfold valid_frequencies; set_solver.
Qed.

Lemma empty_universe_empty_table download start_date end_date :
  Universe.empty (Universe.get_price_data download [] start_date end_date) = true.
Proof. done. Qed.

(** C10 (amended).  When the caller passes a universe, [prepare_data]
    keeps it as passed and never raises the universe-size error, however
    short the list; the run goes on exactly when the price table of that
    universe is not empty.  The table of an empty universe is empty, so an
    empty list is refused with the price-table error. *)
Theorem explicit_universe_is_not_size_checked w s tickers :
  universe_tickers s = Some tickers →
  let prices :=
    Universe.get_price_data (download w) tickers (start_date s) (end_date s) in
  universe_tickers (prepare_data w s).2 = Some tickers ∧
  (∀ n, (prepare_data w s).1 ≠ Raises (UniverseTooSmall n)) ∧
  (prepare_data w s).1
    = (if Universe.empty prices then Raises PriceDownloadFailed else Returns tt) ∧
  (tickers = [] → (prepare_data w s).1 = Raises PriceDownloadFailed).
Proof.
  intros Htk prices. rewrite prepare_data_run, Htk. unfold load_prices.
  fold prices. split; [|split; [|split]].
  - by destruct (Universe.empty prices).
  - intros n. by destruct (Universe.empty prices).
  - by destruct (Universe.empty prices).
  - intros ->. subst prices. by rewrite empty_universe_empty_table.
Qed.

Lemma explicit_universe_is_not_size_checked_witness :
  (prepare_data Scenario.quiet_world Scenario.quiet_engine).1 = Returns tt.
Proof.
  pose proof (explicit_universe_is_not_size_checked Scenario.quiet_world
                Scenario.quiet_engine ["AAA"] eq_refl) as (_ & _ & Hout & _).
  rewrite Hout. vm_compute. reflexivity.
Defined.

(** C10, read without the amendment, does not hold: an explicit universe
    that is the empty list is not accepted, [prepare_data] raises the
    configuration error of the empty price table. *)
Lemma explicit_empty_universe_is_refused :
  (prepare_data Scenario.world Scenario.empty_engine).1 = Raises PriceDownloadFailed.
Proof. vm_compute. reflexivity. Qed.

Lemma run_stops_at_prepare w s e s1 :
  prepare_data w s = (Raises e, s1) → run w s = (Raises e, s1).
Proof. intros Hprep. unfold run, bind. by rewrite Hprep. Qed.

Lemma run_stops_at_dates w s s1 e s2 :
  prepare_data w s = (Returns tt, s1) → get_rebalance_dates s1 = (Raises e, s2) →
  run w s = (Raises e, s2).
Proof. intros Hprep Hdates. unfold run, bind. by rewrite Hprep, Hdates. Qed.

Lemma run_universe_too_small w s :
  universe_tickers s = None → (length (derived_universe w s) < 10)%nat →
  stopped_with (UniverseTooSmall (length (derived_universe w s))) s (run w s).
Proof.
  intros Hnone Hsmall.
  pose proof (prepare_data_run w s) as Hprep. rewrite Hnone in Hprep.
  revert Hsmall Hprep. generalize (derived_universe w s). intros derived Hsmall Hprep.
  rewrite decide_True in Hprep by done.
  by rewrite (run_stops_at_prepare _ _ _ _ Hprep).
Qed.

Lemma run_after_load w s tickers s1 :
  prepare_data w s = load_prices w tickers s1 →
  portfolio s1 = portfolio s → ledger_calls s1 = ledger_calls s →
  rebalance_dates s1 = rebalance_dates s → decisions_history s1 = decisions_history s →
  rebalance_frequency s1 = rebalance_frequency s →
  let prices :=
    Universe.get_price_data (download w) tickers (start_date s1) (end_date s1) in
  (Universe.empty prices = true → stopped_with PriceDownloadFailed s (run w s)) ∧
  (Universe.empty prices = false → rebalance_frequency s ∉ valid_frequencies →
   stopped_with (InvalidFrequency (rebalance_frequency s)) s (run w s)).
Proof.
  intros Hprep Hp Hc Hr Hd Hf prices. unfold load_prices in Hprep. fold prices in Hprep.
  split.
  - intros Hempty. rewrite Hempty in Hprep.
    rewrite (run_stops_at_prepare _ _ _ _ Hprep). by repeat split.
  - intros Hempty Hinvalid. rewrite Hempty in Hprep.
    erewrite run_stops_at_dates; [|exact Hprep|].
    2: { apply get_rebalance_dates_invalid. by rewrite <- Hf in Hinvalid. }
    unfold stopped_with. cbn [fst snd]. rewrite <- Hf. by repeat split.
Qed.

(** C8.  [run] stops with an error, before the first day of the main
    loop, in each of three cases: the universe it derived itself has fewer
    than 10 tickers; the price table of the universe in force is empty; the
    rebalance frequency is none of 'weekly', 'monthly', 'quarterly'.  In
    each case the ledger is as it was: no call was made on it, no snapshot
    was recorded, no rebalance was noted. *)
Theorem configuration_errors_stop_the_run w s :
  let derived := derived_universe w s in
  let too_small := universe_tickers s = None ∧ (length derived < 10)%nat in
  let tickers := default derived (universe_tickers s) in
  let prices :=
    Universe.get_price_data (download w) tickers (start_date s) (end_date s) in
  let invalid := rebalance_frequency s ∉ valid_frequencies in
  (too_small → stopped_with (UniverseTooSmall (length derived)) s (run w s)) ∧
  (¬ too_small → Universe.empty prices = true →
     stopped_with PriceDownloadFailed s (run w s)) ∧
  (¬ too_small → Universe.empty prices = false → invalid →
     stopped_with (InvalidFrequency (rebalance_frequency s)) s (run w s)).
Proof.
  cbv zeta.
  pose proof (run_universe_too_small w s) as Hsmall.
  pose proof (prepare_data_run w s) as Hprep.
  revert Hsmall Hprep. generalize (derived_universe w s). intros derived Hsmall Hprep.
  destruct (universe_tickers s) as [explicit|] eqn:Htk.
  - change (default derived (Some explicit)) with explicit.
    destruct (run_after_load w s explicit s Hprep eq_refl eq_refl eq_refl eq_refl eq_refl)
      as [Hempty Hfreq].
    split; [intros [? _]; discriminate|].
    split; [intros _; exact Hempty|intros _; exact Hfreq].
  - change (default derived None) with derived.
    destruct (decide (length derived < 10)%nat) as [Hlt|Hge].
    + split; [intros _; by apply Hsmall|].
      split; intros Hnot; exfalso; apply Hnot; by split.
    + destruct (run_after_load w s derived (set_universe_tickers (Some derived) s)
                  Hprep eq_refl eq_refl eq_refl eq_refl eq_refl)
        as [Hempty Hfreq].
      split; [intros [_ ?]; contradiction|].
      split; [intros _; exact Hempty|intros _; exact Hfreq].
Qed.

Lemma configuration_errors_stop_the_run_witness :
  stopped_with (InvalidFrequency "daily") Scenario.daily_engine
    (run Scenario.world Scenario.daily_engine).
Proof.
  pose proof (configuration_errors_stop_the_run Scenario.world Scenario.daily_engine)
    as (_ & _ & Hinvalid).
  apply Hinvalid.
  - intros [Hnone _]. discriminate.
  - vm_compute. reflexivity.
  - unfold valid_frequencies. intros Hin.
    repeat (apply elem_of_cons in Hin as [Hin|Hin]; [discriminate|]).
    by apply elem_of_nil in Hin.
Defined.

(* ===================================================================== *)
(** ** Failed analyses *)
(* ===================================================================== *)

Lemma run_agents_silenced w tk date :
  run_agents_for_ticker (silenced w) tk date = run_agents_for_ticker w tk date.
Proof.
  unfold run_agents_for_ticker, silenced. simpl.
  by destruct (run_trading_pipeline w tk date).
Qed.

Lemma analyse_silenced w tickers date :
  analyse (silenced w) tickers date = analyse w tickers date.
Proof.
  unfold analyse. apply list_omap_ext, Forall2_same_length_lookup.
  split; [done|]. intros i tk tk' Htk Htk'.
  rewrite Htk in Htk'. injection Htk' as <-. apply run_agents_silenced.
Qed.

Lemma analyse_skips w tk date before after :
  run_agents_for_ticker w tk date = None →
  analyse w (before ++ tk :: after) date = analyse w before date ++ analyse w after date.
Proof.
  intros Hnone. unfold analyse. rewrite omap_app. simpl. by rewrite Hnone.
Qed.

Lemma bind_ext {A B} (m : M A) (k k' : A → M B) s :
  (∀ a s', k a s' = k' a s') → bind m k s = bind m k' s.
Proof. intros Hk. unfold bind. destruct (m s) as [[a|e] s']; [apply Hk|done]. Qed.

Lemma rebalance_portfolio_silenced w date s :
  rebalance_portfolio (silenced w) date s = rebalance_portfolio w date s.
Proof.
  unfold rebalance_portfolio.
  apply bind_ext; intros cp s1.
  apply bind_ext; intros [] s2.
  apply bind_ext; intros [] s3.
  apply bind_ext; intros self s4.
  apply bind_ext; intros tickers s5.
  by rewrite analyse_silenced.
Qed.

Lemma run_day_silenced w rd date s :
  run_day (silenced w) rd date s = run_day w rd date s.
Proof.
  unfold run_day.
  apply bind_ext; intros cp s1.
  apply bind_ext; intros [] s2.
  apply bind_ext; intros [] s3.
  apply bind_ext; intros [] s4.
  case_decide; [|done]. unfold bind. by rewrite rebalance_portfolio_silenced.
Qed.

Lemma run_silenced w s : run (silenced w) s = run w s.
Proof.
  unfold run, bind.
  change (prepare_data (silenced w) s) with (prepare_data w s).
  destruct (prepare_data w s) as [[[]|e] s1]; [|done].
  destruct (get_rebalance_dates s1) as [[rd|e] s2]; [|done].
  destruct (the_price_data s2) as [[df|e] s3]; [|done].
  apply for_each_ext. intros date s'. apply run_day_silenced.
Qed.

(** A decision of the day is the decision of its own ticker. *)
Lemma analysed_decision w tickers date d :
  d ∈ analyse w tickers date →
  ticker d ∈ tickers ∧ run_agents_for_ticker w (ticker d) date = Some d.
Proof.
  unfold analyse. intros (tk & Hin & Hd)%list_elem_of_omap.
  assert (ticker d = tk) as ->; [|done].
  unfold run_agents_for_ticker in Hd.
  destruct (run_trading_pipeline w tk date) as [state|]; [|done].
  destruct (senior_decision state); [|done].
  case_decide; [|done]. by injection Hd as <-.
Qed.

(** C9.  An analysis that raises gives no decision for its ticker; the
    decisions of the day are then those of the other tickers, in their
    order; the rebalance of that day is the rebalance of the world in which
    the analysis, instead of raising, returns without a decision, and it
    returns unless the portfolio is worth nothing or the engine, being
    verbose, prints the missing score of a decision it has bought on, which
    is the decision of another ticker: the failure itself stops nothing;
    and the whole run is the run of that other world. *)
Theorem failed_analyses_are_skipped w tk date message :
  run_trading_pipeline w tk date = PipelineRaises message →
  run_agents_for_ticker w tk date = None ∧
  (∀ before after,
     analyse w (before ++ tk :: after) date
     = analyse w before date ++ analyse w after date) ∧
  (∀ s df cp tickers,
     price_data s = Some df → Universe.loc (Universe.rows df) date = Some cp →
     universe_tickers s = Some tickers → tk ∈ tickers →
     rebalance_portfolio w date s = rebalance_portfolio (silenced w) date s ∧
     ((rebalance_portfolio w date s).1 = Returns tt ∨
      ((rebalance_portfolio w date s).1 = Raises ZeroDivisionError ∧
       (Ledger.total_value (portfolio (opened cp date s)) == 0)%Q) ∨
      ((rebalance_portfolio w date s).1 = Raises TypeError ∧ verbose s = true ∧
       ∃ signal, signal ∈ analyse w tickers date ∧ analyst_score signal = None ∧
                 ticker signal ≠ tk))) ∧
  (∀ s, run w s = run (silenced w) s).
Proof.
  intros Hraises.
  assert (run_agents_for_ticker w tk date = None) as Hnone.
  { unfold run_agents_for_ticker. by rewrite Hraises. }
  split; [done|]. split; [|split].
  - intros before after. by apply analyse_skips.
  - intros s df cp tickers Hdf Hcp Htk _.
    split; [by rewrite rebalance_portfolio_silenced|].
    destruct (rebalance_portfolio_outcome w date s df cp tickers Hdf Hcp Htk)
      as [Hout|[Hout|(Hout & Hverbose & signal & Hin & Hscore)]];
      [by left|right; by left|].
    right. right. split; [done|]. split; [done|].
    exists signal. split; [done|]. split; [done|].
    intros Heq. apply analysed_decision in Hin as [_ Hsome]. congruence.
  - intros s. by rewrite run_silenced.
Qed.

Lemma failed_analyses_are_skipped_witness :
  analyse Scenario.world Scenario.universe Scenario.monday2
  = analyse Scenario.world ["BBB"; "CCC"; "DDD"] Scenario.monday2.
Proof.
  pose proof (failed_analyses_are_skipped Scenario.world "AAA" Scenario.monday2
                "timeout" eq_refl) as (_ & Hskip & _).
  exact (Hskip [] ["BBB"; "CCC"; "DDD"]).
Defined.

(* ===================================================================== *)
(** ** The universe of candidates *)
(* ===================================================================== *)

Lemma flat_map_keep_sublist {A} (keep : A → list A) (l : list A) :
  (∀ x, keep x = [x] ∨ keep x = []) → flat_map keep l `sublist_of` l.
Proof.
  intros Hkeep. induction l as [|x l IH]; simpl; [done|].
  destruct (Hkeep x) as [->| ->]; simpl.
  - by apply sublist_skip.
  - by apply sublist_cons.
Qed.

Lemma flat_map_keep_elem {A} (keep : A → list A) (l : list A) x :
  (∀ y, keep y = [y] ∨ keep y = []) →
  x ∈ flat_map keep l ↔ x ∈ l ∧ keep x = [x].
Proof.
  intros Hkeep. rewrite list_elem_of_In, in_flat_map. split.
  - intros (y & Hy & Hin). apply list_elem_of_In in Hy.
    destruct (Hkeep y) as [Heq|Heq]; rewrite Heq in Hin; simpl in Hin; [|done].
    destruct Hin as [->|[]]. done.
  - intros [Hx Heq]. exists x. rewrite Heq. split; [by apply list_elem_of_In|by left].
Qed.

Lemma nan_share_le (a b : Z) :
  0 <= a <= b →
  Qle_bool (inject_Z a / inject_Z b) (1 # 10) = true ↔ 10 * a <= b.
Proof.
  intros Hab. rewrite Qle_bool_iff.
  destruct (decide (b = 0)) as [->|Hb].
  - assert (a = 0) as -> by lia. done.
  - assert (0 < inject_Z b)%Q as Hpos.
    { change 0%Q with (inject_Z 0). rewrite <- Zlt_Qlt. lia. }
    split.
    + intros Hle. apply (Qmult_le_r _ _ _ Hpos) in Hle.
      assert (inject_Z a / inject_Z b * inject_Z b == inject_Z a)%Q as Hcancel.
      { field. intros Hz. rewrite Hz in Hpos. by apply Qlt_irrefl in Hpos. }
      rewrite Hcancel in Hle.
      unfold Qle in Hle. simpl in Hle. lia.
    + intros Hle. apply (Qmult_le_r _ _ _ Hpos).
      assert (inject_Z a / inject_Z b * inject_Z b == inject_Z a)%Q as Hcancel.
      { field. intros Hz. rewrite Hz in Hpos. by apply Qlt_irrefl in Hpos. }
      rewrite Hcancel. unfold Qle. simpl. lia.
Qed.

Lemma positive_share_le (n p : Z) :
  Qle_bool (inject_Z n * (95 # 100)) (inject_Z p) = true ↔ 95 * n <= 100 * p.
Proof.
  rewrite Qle_bool_iff. unfold Qle. simpl. lia.
Qed.

Lemma count_bounds {A} (f : A → bool) (l : list A) :
  0 <= Universe.count f l <= Z.of_nat (length l).
Proof.
  unfold Universe.count. pose proof (List.filter_length_le f l). lia.
Qed.

Lemma ticker_is_valid_iff m df :
  Universe.ticker_is_valid m df = true ↔ passes_validation m df.
Proof.
  unfold Universe.ticker_is_valid, passes_validation. cbv zeta.
  pose proof (count_bounds Universe.is_nan (df.*2)) as Hnan.
  rewrite length_fmap in Hnan.
  case_decide as Hshort; [split; [done|lia]|].
  destruct (Qle_bool (_ / _) _) eqn:Hshare; simpl.
  - apply nan_share_le in Hshare; [|done].
    destruct (Qle_bool (_ * _) _) eqn:Hpos; simpl.
    + apply positive_share_le in Hpos. split; [lia|done].
    + split; [done|]. intros (_ & _ & Hp). apply positive_share_le in Hp. congruence.
  - split; [done|]. intros (_ & Hn & _). apply nan_share_le in Hn; [congruence|done].
Qed.

Lemma candidates_nodup : NoDup Universe.LIQUID_STOCKS_B3.
Proof. apply (bool_decide_unpack (NoDup Universe.LIQUID_STOCKS_B3)). vm_compute. exact I. Qed.

(** X1.  For a positive minimum of data points, the universe [get_universe]
    returns is the candidate list filtered, in its order and without repeats
    (so at most 30 tickers): a candidate is in it exactly when its download
    succeeds, has at least the minimum of rows, at most 10% of NaN closes
    and at least 95% of positive closes.  (The minimum is 400 in the engine;
    with a minimum of 0 an empty download would divide by zero in the
    source.) *)
Theorem universe_is_the_valid_candidates download start_date end_date m :
  0 < m →
  let universe := Universe.get_universe download start_date end_date m in
  universe `sublist_of` Universe.LIQUID_STOCKS_B3 ∧
  NoDup universe ∧ (length universe <= 30)%nat ∧
  ∀ tk, tk ∈ universe ↔
        tk ∈ Universe.LIQUID_STOCKS_B3 ∧
        ∃ df, download tk start_date end_date = Some df ∧ passes_validation m df.
Proof.
  intros _ universe.
  assert (∀ tk,
            match download tk start_date end_date with
            | Some df => if Universe.ticker_is_valid m df then [tk] else []
            | None => []
            end = [tk] ∨
            match download tk start_date end_date with
            | Some df => if Universe.ticker_is_valid m df then [tk] else []
            | None => []
            end = []) as Hkeep.
  { intros tk. destruct (download tk start_date end_date) as [df|]; [|by right].
    destruct (Universe.ticker_is_valid m df); [by left|by right]. }
  assert (universe `sublist_of` Universe.LIQUID_STOCKS_B3) as Hsub.
  { by apply flat_map_keep_sublist. }
  split; [done|]. split; [|split].
  - eapply sublist_NoDup; [apply candidates_nodup|exact Hsub].
  - apply sublist_length in Hsub. exact Hsub.
  - intros tk. unfold universe, Universe.get_universe.
    rewrite flat_map_keep_elem by done.
    split; intros [Hin Hvalid]; (split; [done|]).
    + destruct (download tk start_date end_date) as [df|]; [|done].
      exists df. split; [done|]. apply ticker_is_valid_iff.
      by destruct (Universe.ticker_is_valid m df).
    + destruct Hvalid as (df & -> & Hvalid). apply ticker_is_valid_iff in Hvalid.
      by rewrite Hvalid.
Qed.

Lemma universe_is_the_valid_candidates_witness :
  "PETR4.SA" ∈ Universe.get_universe Scenario.listed_download "2024-01-01" "2024-01-09" 3.
Proof.
  pose proof (universe_is_the_valid_candidates Scenario.listed_download
                "2024-01-01" "2024-01-09" 3) as Huniverse.
  destruct Huniverse as (_ & _ & _ & Hin); [lia|].
  apply Hin. split.
  - apply (bool_decide_unpack _). vm_compute. exact I.
  - exists (Scenario.closes 30 31 32). split; [reflexivity|].
    unfold passes_validation. vm_compute. intuition discriminate.
Defined.

(* ===================================================================== *)
(** ** The price table *)
(* ===================================================================== *)

Lemma scenario_downloads_dated : date_indexed Scenario.download.
Proof.
  intros tk start_date end_date s. unfold Scenario.download.
  repeat case_decide; intros [= <-];
    apply (bool_decide_unpack _); vm_compute; exact I.
Qed.

Lemma get_price_data_raw download tickers start_date end_date :
  Universe.get_price_data download tickers start_date end_date =
  let prices := raw_prices download tickers start_date end_date in
  let names := column_names prices in
  if decide (0 < length names)%nat then
    Universe.mkFrame names
      (Universe.dropna names
         (Universe.ffill (Universe.dropna_all (Universe.raw_rows prices))))
  else Universe.mkFrame [] [].
Proof. done. Qed.

Lemma replace_col_names name col cols :
  match Universe.replace_col name col cols with
  | Some cols' => name ∈ cols.*1 ∧ cols'.*1 = cols.*1 ∧
                  (Forall (λ c, length c.2 = length col) cols →
                   Forall (λ c, length c.2 = length col) cols')
  | None => name ∉ cols.*1
  end.
Proof.
  induction cols as [|[n c] cols IH]; simpl.
  - apply not_elem_of_nil.
  - case_decide as Hn.
    + subst n. split; [by left|]. split; [done|].
      intros Hall. apply Forall_cons in Hall as [_ Hall]. by constructor.
    + destruct (Universe.replace_col name col cols) as [cols'|]; simpl.
      * destruct IH as (Hin & Hnames & Hlen). split; [by right|].
        split; [f_equal; exact Hnames|].
        intros Hall. apply Forall_cons in Hall as [Hc Hall]. constructor; [done|by apply Hlen].
      * intros Hin. apply elem_of_cons in Hin as [Heq|Hin]; [congruence|done].
Qed.

Lemma set_column_names f name s :
  column_names (Universe.set_column f name s)
  = if decide (name ∈ column_names f) then column_names f else column_names f ++ [name].
Proof.
  unfold column_names, Universe.set_column.
  destruct (Universe.raw_cols f) as [|c cols] eqn:Hcols.
  - cbn [fmap list_fmap fst]. rewrite decide_False; [done|apply not_elem_of_nil].
  - pose proof (replace_col_names name (map (Universe.series_at s) (Universe.raw_index f))
                  (c :: cols)) as Hrep.
    destruct (Universe.replace_col _ _ (c :: cols)) as [cols'|]; simpl.
    + destruct Hrep as (Hin & Hnames & _). by rewrite decide_True.
    + rewrite decide_False by done. by rewrite fmap_app.
Qed.

Lemma set_column_aligned f name s :
  aligned f → aligned (Universe.set_column f name s).
Proof.
  unfold aligned, Universe.set_column. intros Hal.
  destruct (Universe.raw_cols f) as [|c cols] eqn:Hcols.
  - simpl. constructor; [|constructor]. simpl. by rewrite !length_fmap.
  - set (col := map (Universe.series_at s) (Universe.raw_index f)).
    assert (length col = length (Universe.raw_index f)) as Hcol
      by (unfold col; by rewrite length_map).
    pose proof (replace_col_names name col (c :: cols)) as Hrep.
    destruct (Universe.replace_col _ _ (c :: cols)) as [cols'|]; simpl.
    + destruct Hrep as (_ & _ & Hlen). rewrite <- Hcol. apply Hlen. by rewrite Hcol.
    + apply (Forall_app _ (c :: cols) [(name, col)]). split; [done|].
      constructor; [done|constructor].
Qed.

Lemma set_column_index f name s :
  Universe.raw_cols f ≠ [] →
  Universe.raw_index (Universe.set_column f name s) = Universe.raw_index f ∧
  Universe.raw_cols (Universe.set_column f name s) ≠ [].
Proof.
  unfold Universe.set_column. intros Hne.
  destruct (Universe.raw_cols f) as [|c cols] eqn:Hcols; [done|].
  pose proof (replace_col_names name (map (Universe.series_at s) (Universe.raw_index f))
                (c :: cols)) as Hrep.
  destruct (Universe.replace_col _ _ (c :: cols)) as [cols'|]; simpl.
  - split; [done|]. destruct Hrep as (_ & Hnames & _). intros ->. done.
  - split; [done|]. by destruct cols.
Qed.

Section Loading.

Context (download : Universe.Downloader) (start_date end_date : string).

Lemma load_fold_names f tickers :
  NoDup (column_names f) →
  NoDup (column_names (foldl (load_column download start_date end_date) f tickers)) ∧
  ∀ tk, tk ∈ column_names (foldl (load_column download start_date end_date) f tickers) ↔
        tk ∈ column_names f ∨
        (tk ∈ tickers ∧ is_Some (download tk start_date end_date)).
Proof.
  revert f. induction tickers as [|t tickers IH]; intros f Hnd; simpl.
  - split; [done|]. intros tk. rewrite elem_of_nil. tauto.
  - assert (NoDup (column_names (load_column download start_date end_date f t)) ∧
            ∀ tk, tk ∈ column_names (load_column download start_date end_date f t) ↔
                  tk ∈ column_names f ∨
                  (tk = t ∧ is_Some (download t start_date end_date))) as [Hnd' Hstep].
    { unfold load_column. destruct (download t start_date end_date) as [s|].
      - rewrite set_column_names. case_decide as Hin.
        + split; [done|]. intros tk. split; [tauto|]. intros [?|[-> _]]; done.
        + split.
          * apply NoDup_app. split; [done|]. split; [|apply NoDup_singleton].
            intros x Hx Hx'. apply list_elem_of_singleton in Hx'. by subst.
          * intros tk. rewrite elem_of_app, list_elem_of_singleton.
            split; [intros [?| ->]; eauto|]. intros [?|[-> _]]; eauto.
      - split; [done|]. intros tk. split; [tauto|]. intros [?|[_ [? ?]]]; done. }
    destruct (IH _ Hnd') as [Hnd'' Hrest]. split; [done|].
    intros tk. rewrite Hrest, Hstep, elem_of_cons. split.
    + intros [[?|[-> ?]]|[? ?]]; eauto.
    + intros [?|[[->|?] ?]]; eauto.
Qed.

Lemma load_fold_aligned f tickers :
  aligned f → aligned (foldl (load_column download start_date end_date) f tickers).
Proof.
  revert f. induction tickers as [|t tickers IH]; intros f Hal; [done|].
  simpl. apply IH. unfold load_column.
  destruct (download t start_date end_date); [by apply set_column_aligned|done].
Qed.

Lemma load_fold_index f tickers :
  Universe.raw_cols f ≠ [] →
  Universe.raw_index (foldl (load_column download start_date end_date) f tickers)
  = Universe.raw_index f.
Proof.
  revert f. induction tickers as [|t tickers IH]; intros f Hne; [done|].
  simpl. unfold load_column at 2.
  destruct (download t start_date end_date) as [s|]; [|by apply IH].
  destruct (set_column_index f t s Hne) as [Hidx Hne']. by rewrite IH.
Qed.

Lemma load_fold_failures f tickers :
  (∀ tk, tk ∈ tickers → download tk start_date end_date = None) →
  foldl (load_column download start_date end_date) f tickers = f.
Proof.
  revert f. induction tickers as [|t tickers IH]; intros f Hfail; [done|].
  simpl. unfold load_column at 2. rewrite Hfail by by left.
  apply IH. intros tk Hin. apply Hfail. by right.
Qed.

End Loading.

Lemma raw_rows_dates f : (Universe.raw_rows f).*1 = Universe.raw_index f.
Proof.
  unfold Universe.raw_rows. generalize (Universe.raw_cols f). intros cols.
  apply list_eq. intros i. rewrite list_lookup_fmap, list_lookup_imap.
  by destruct (Universe.raw_index f !! i).
Qed.

Lemma raw_rows_width f : width (length (Universe.raw_cols f)) (Universe.raw_rows f).
Proof.
  unfold width, Universe.raw_rows. apply Forall_forall. intros r Hr.
  apply elem_of_lookup_imap_1 in Hr as (i & d & -> & _). simpl. by rewrite length_map.
Qed.

Lemma dropna_all_sublist rs : Universe.dropna_all rs `sublist_of` rs.
Proof.
  unfold Universe.dropna_all. induction rs as [|r rs IH]; simpl; [done|].
  destruct (negb _); [by apply sublist_skip|by apply sublist_cons].
Qed.

Lemma dropna_all_width n rs : width n rs → width n (Universe.dropna_all rs).
Proof.
  unfold width, Universe.dropna_all. rewrite !Forall_forall. intros Hw r Hr.
  apply list_elem_of_In, List.filter_In in Hr as [Hr _].
  by apply Hw, list_elem_of_In.
Qed.

Lemma ffill_from_dates prev rs : (Universe.ffill_from prev rs).*1 = rs.*1.
Proof.
  revert prev. induction rs as [|[d cells] rs IH]; intros prev; [done|].
  simpl. by rewrite IH.
Qed.

Lemma ffill_dates rs : (Universe.ffill rs).*1 = rs.*1.
Proof. destruct rs as [|r rs]; [done|]. simpl. by rewrite ffill_from_dates. Qed.

Lemma ffill_from_width n prev rs :
  length prev = n → width n rs → width n (Universe.ffill_from prev rs).
Proof.
  unfold width. revert prev. induction rs as [|[d cells] rs IH]; intros prev Hprev Hrs;
    [done|].
  apply Forall_cons in Hrs as [Hcells Hrs]. simpl in Hcells.
  assert (length (Universe.fill_from prev cells) = n) as Hfilled.
  { unfold Universe.fill_from. rewrite length_zip_with. lia. }
  simpl. constructor; [done|]. by apply IH.
Qed.

Lemma ffill_width n rs : width n rs → width n (Universe.ffill rs).
Proof.
  unfold width. destruct rs as [|r rs]; [done|]. intros Hrs.
  apply Forall_cons in Hrs as [Hr Hrs]. simpl. constructor; [done|].
  by apply ffill_from_width.
Qed.

Lemma all_prices_length cells qs :
  Universe.all_prices cells = Some qs → length qs = length cells.
Proof.
  revert qs. induction cells as [|[q|] cells IH]; intros qs Hall; simpl in Hall.
  - by injection Hall as <-.
  - destruct (Universe.all_prices cells) as [qs'|]; [|done].
    injection Hall as <-. simpl. by rewrite (IH qs').
  - done.
Qed.

Lemma dropna_dates names rs : (Universe.dropna names rs).*1 `sublist_of` rs.*1.
Proof.
  unfold Universe.dropna. induction rs as [|r rs IH]; [done|].
  cbn [omap list_omap]. destruct (Universe.all_prices r.2) as [qs|]; simpl.
  - by apply sublist_skip.
  - by apply sublist_cons.
Qed.

Lemma dropna_rows names rs d (r : gmap string Q) :
  width (length names) rs → (d, r) ∈ Universe.dropna names rs →
  dom r = list_to_set names.
Proof.
  unfold Universe.dropna, width. intros Hw Hin.
  apply list_elem_of_omap in Hin as (raw & Hraw & Hrow).
  rewrite Forall_forall in Hw. specialize (Hw _ Hraw).
  destruct (Universe.all_prices raw.2) as [qs|] eqn:Hall; [|done].
  simpl in Hrow. injection Hrow as _ <-.
  apply all_prices_length in Hall.
  rewrite dom_list_to_map_L, fst_zip; [done|lia].
Qed.

Lemma loc_index (rs : list (Timestamp * gmap string Q)) d :
  d ∈ rs.*1 → ∃ r, Universe.loc rs d = Some r ∧ (d, r) ∈ rs.
Proof.
  induction rs as [|[d' r'] rs IH]; simpl; intros Hin.
  - by apply elem_of_nil in Hin.
  - case_decide as Heq.
    + subst d'. exists r'. split; [done|by left].
    + apply elem_of_cons in Hin as [Hd|Hin]; [congruence|].
      destruct (IH Hin) as (r & Hloc & Hr). exists r. split; [done|by right].
Qed.

Lemma raw_prices_names download tickers start_date end_date :
  Universe.columns (Universe.get_price_data download tickers start_date end_date)
  = column_names (raw_prices download tickers start_date end_date).
Proof.
  rewrite get_price_data_raw. cbv zeta. case_decide as Hlen; [done|].
  simpl. destruct (column_names _); [done|simpl in Hlen; lia].
Qed.

(** X2.  For date-indexed downloads, the columns of the table of
    [get_price_data] are the requested tickers whose download succeeded,
    each once, whatever the repeats in the request. *)
Theorem price_table_columns download tickers start_date end_date :
  date_indexed download →
  let table := Universe.get_price_data download tickers start_date end_date in
  NoDup (Universe.columns table) ∧
  ∀ tk, tk ∈ Universe.columns table ↔
        tk ∈ tickers ∧ is_Some (download tk start_date end_date).
Proof.
  intros _ table. unfold table. rewrite raw_prices_names.
  destruct (load_fold_names download start_date end_date Universe.empty_frame tickers)
    as [Hnd Hnames]; [apply NoDup_nil_2|].
  split; [done|]. intros tk. unfold raw_prices. rewrite Hnames.
  split; [intros [Hin|?]; [by apply elem_of_nil in Hin|done]|by right].
Qed.

Lemma price_table_columns_witness :
  NoDup (Universe.columns Scenario.table).
Proof.
  apply (price_table_columns Scenario.download Scenario.universe
           "2024-01-01" "2024-01-09" scenario_downloads_dated).
Defined.

(** X3.  Every date of the price table has a row, and the row holds a price
    for every column of the table and for nothing else: after the cleaning
    no NaN is left. *)
Theorem price_table_rows_are_complete download tickers start_date end_date date :
  date ∈ Universe.index (Universe.get_price_data download tickers start_date end_date) →
  let table := Universe.get_price_data download tickers start_date end_date in
  ∃ row, Universe.loc (Universe.rows table) date = Some row ∧
         ∀ tk, is_Some (row !! tk) ↔ tk ∈ Universe.columns table.
Proof.
  intros Hdate table. destruct (loc_index _ _ Hdate) as (row & Hloc & Hrow).
  exists row. split; [done|]. intros tk.
  assert (dom row = list_to_set (Universe.columns table)) as Hdom.
  { revert Hrow. unfold table. rewrite get_price_data_raw. cbv zeta.
    case_decide as Hlen; simpl; [|by intros ?%elem_of_nil].
    apply dropna_rows, ffill_width, dropna_all_width.
    unfold column_names. rewrite length_fmap. apply raw_rows_width. }
  by rewrite <- elem_of_dom, Hdom, elem_of_list_to_set.
Qed.

Lemma price_table_rows_are_complete_witness :
  ∃ row, Universe.loc (Universe.rows Scenario.table) Scenario.monday2 = Some row ∧
         ∀ tk, is_Some (row !! tk) ↔ tk ∈ Universe.columns Scenario.table.
Proof.
  apply (price_table_rows_are_complete Scenario.download Scenario.universe
           "2024-01-01" "2024-01-09" Scenario.monday2).
  vm_compute. repeat constructor.
Defined.

Lemma table_index_raw download tickers start_date end_date :
  Universe.index (Universe.get_price_data download tickers start_date end_date)
  `sublist_of` Universe.raw_index (raw_prices download tickers start_date end_date).
Proof.
  rewrite get_price_data_raw. cbv zeta.
  case_decide as Hlen; [|apply sublist_nil_l].
  unfold Universe.index. simpl.
  etrans; [apply dropna_dates|]. rewrite ffill_dates.
  etrans; [apply (fmap_sublist fst), dropna_all_sublist|].
  by rewrite raw_rows_dates.
Qed.

Lemma raw_prices_first download start_date end_date
    (failed : list string) first (df : Universe.Series) (others : list string) :
  (∀ tk, tk ∈ failed → download tk start_date end_date = None) →
  download first start_date end_date = Some df →
  Universe.raw_index (raw_prices download (failed ++ first :: others) start_date end_date)
  = df.*1.
Proof.
  intros Hfailed Hfirst. unfold raw_prices.
  rewrite foldl_app, (load_fold_failures _ _ _ _ failed Hfailed). simpl.
  unfold load_column at 2. rewrite Hfirst.
  by rewrite load_fold_index.
Qed.

Lemma first_download (download : Universe.Downloader) start_date end_date tickers :
  (∀ tk, tk ∈ tickers → download tk start_date end_date = None) ∨
  ∃ failed first df others,
    tickers = failed ++ first :: others ∧
    (∀ tk, tk ∈ failed → download tk start_date end_date = None) ∧
    download first start_date end_date = Some df.
Proof.
  induction tickers as [|t tickers IH].
  - left. by intros tk ?%elem_of_nil.
  - destruct (download t start_date end_date) as [df|] eqn:Ht.
    + right. exists [], t, df, tickers. split; [done|]. split; [|done].
      by intros tk ?%elem_of_nil.
    + destruct IH as [Hall|(failed & first & df & others & -> & Hfailed & Hfirst)].
      * left. intros tk [->|Hin]%elem_of_cons; [done|by apply Hall].
      * right. exists (t :: failed), first, df, others. split; [done|]. split; [|done].
        intros tk [->|Hin]%elem_of_cons; [done|by apply Hfailed].
Qed.

Lemma table_index_nodup download tickers start_date end_date :
  date_indexed download →
  NoDup (Universe.index (Universe.get_price_data download tickers start_date end_date)).
Proof.
  intros Hdated.
  eapply sublist_NoDup; [|apply table_index_raw].
  destruct (first_download download start_date end_date tickers)
    as [Hall|(failed & first & df & others & -> & Hfailed & Hfirst)].
  - unfold raw_prices. rewrite (load_fold_failures _ _ _ _ tickers Hall). apply NoDup_nil_2.
  - rewrite (raw_prices_first _ _ _ _ _ df _ Hfailed Hfirst). by eapply Hdated.
Qed.

(** X4.  The dates of the price table are dates of the first ticker whose
    download succeeds, in their order: a date only later tickers trade on
    never enters the table. *)
Theorem price_table_keeps_first_calendar download start_date end_date
    (failed : list string) first (df : Universe.Series) (others : list string) :
  (∀ tk, tk ∈ failed → download tk start_date end_date = None) →
  download first start_date end_date = Some df →
  Universe.index
    (Universe.get_price_data download (failed ++ first :: others) start_date end_date)
  `sublist_of` df.*1.
Proof.
  intros Hfailed Hfirst.
  rewrite <- (raw_prices_first download start_date end_date failed first df others)
    by done.
  apply table_index_raw.
Qed.

Lemma price_table_keeps_first_calendar_witness :
  Universe.index
    (Universe.get_price_data Scenario.download ["ZZZ"; "AAA"; "BBB"]
       "2024-01-01" "2024-01-09")
  `sublist_of` (Scenario.closes 10 11 12).*1.
Proof.
  apply (price_table_keeps_first_calendar Scenario.download "2024-01-01" "2024-01-09"
           ["ZZZ"] "AAA" (Scenario.closes 10 11 12) ["BBB"]).
  - intros tk Hin. in_list Hin. reflexivity.
  - reflexivity.
Defined.

(** X5.  When the universe is given and none of its downloads succeeds,
    [prepare_data] raises the empty-table error, leaving an empty table as
    [price_data] and the rest of the engine untouched. *)
Theorem no_download_no_table w s tickers :
  universe_tickers s = Some tickers →
  (∀ tk, tk ∈ tickers → download w tk (start_date s) (end_date s) = None) →
  prepare_data w s
  = (Raises PriceDownloadFailed, set_price_data (Some (Universe.mkFrame [] [])) s).
Proof.
  intros Htk Hfail. rewrite prepare_data_run, Htk. unfold load_prices.
  rewrite get_price_data_raw. cbv zeta. unfold raw_prices.
  by rewrite (load_fold_failures _ _ _ _ tickers Hfail).
Qed.

Lemma no_download_no_table_witness :
  prepare_data Scenario.world Scenario.unlisted_engine
  = (Raises PriceDownloadFailed,
     set_price_data (Some (Universe.mkFrame [] [])) Scenario.unlisted_engine).
Proof.
  apply (no_download_no_table Scenario.world Scenario.unlisted_engine ["YYY"; "ZZZ"]).
  - reflexivity.
  - intros tk Hin. in_list Hin; reflexivity.
Defined.

Lemma series_at_elem s d v :
  Universe.series_at s d = Some v → (d, Some v) ∈ s.
Proof.
  induction s as [|[d' c] s IH]; simpl; [done|].
  case_decide as Heq.
  - intros ->. subst d'. by left.
  - intros H. right. by apply IH.
Qed.

Lemma replace_col_Forall (P : string * list (option Q) → Prop) name col cols cols' :
  Universe.replace_col name col cols = Some cols' →
  P (name, col) → Forall P cols → Forall P cols'.
Proof.
  revert cols'. induction cols as [|[n c] cols IH]; intros cols'; simpl; [done|].
  case_decide as Heq.
  - intros [= <-] Hp Hall. subst n. apply Forall_cons in Hall as [_ Hall]. by constructor.
  - destruct (Universe.replace_col name col cols) as [r|]; [|done].
    intros [= <-] Hp Hall. apply Forall_cons in Hall as [Hc Hall].
    constructor; [done|by apply IH].
Qed.

Section Sourcing.

Context (download : Universe.Downloader) (start_date end_date : string).

Lemma set_column_sourced f name s :
  download name start_date end_date = Some s →
  sourced download start_date end_date f →
  sourced download start_date end_date (Universe.set_column f name s).
Proof.
  intros Hs Hf. unfold sourced, Universe.set_column in *.
  destruct (Universe.raw_cols f) as [|c cols] eqn:Hcols.
  - simpl. constructor; [|constructor]. simpl. intros v Hv.
    apply list_elem_of_fmap in Hv as ([d c] & Hc & Hin). simpl in Hc. subst c.
    by exists s, d.
  - set (col := map (Universe.series_at s) (Universe.raw_index f)).
    assert (∀ v, Some v ∈ col → is_close_of download start_date end_date name v) as Hcol.
    { intros v Hv. apply list_elem_of_In, in_map_iff in Hv as (d & Hat & _).
      exists s, d. split; [done|]. by apply series_at_elem. }
    destruct (Universe.replace_col name col (c :: cols)) as [cols'|] eqn:Hrep; simpl.
    + by eapply replace_col_Forall.
    + apply (Forall_app _ (c :: cols) [(name, col)]). split; [done|].
      constructor; [done|constructor].
Qed.

Lemma load_fold_sourced f tickers :
  sourced download start_date end_date f →
  sourced download start_date end_date
    (foldl (load_column download start_date end_date) f tickers).
Proof.
  revert f. induction tickers as [|t tickers IH]; intros f Hf; [done|].
  simpl. apply IH. unfold load_column.
  destruct (download t start_date end_date) as [s|] eqn:Hs; [|done].
  by apply set_column_sourced.
Qed.

Lemma raw_rows_sourced f :
  sourced download start_date end_date f →
  Forall (λ r : Universe.RawRow,
            row_sourced download start_date end_date (column_names f) r.2)
    (Universe.raw_rows f).
Proof.
  unfold sourced, column_names, Universe.raw_rows. intros Hf.
  apply Forall_forall. intros r Hr.
  apply elem_of_lookup_imap_1 in Hr as (i & d & -> & _). simpl.
  induction Hf as [|c cols Hc Hcols IH]; simpl; [constructor|].
  constructor; [|exact IH].
  intros v Hv. apply Hc. destruct (c.2 !! i) as [cell|] eqn:Hcell; [|done].
  simpl in Hv. subst cell. by eapply list_elem_of_lookup_2.
Qed.

Lemma fill_from_sourced names prev cur :
  row_sourced download start_date end_date names prev →
  row_sourced download start_date end_date names cur →
  row_sourced download start_date end_date names (Universe.fill_from prev cur).
Proof.
  unfold row_sourced, Universe.fill_from. intros Hprev. revert cur.
  induction Hprev as [|n p names prev Hp Hprev IH]; intros cur Hcur.
  - inversion Hcur. constructor.
  - inversion Hcur as [|n' c names' cur' Hc Hcur']; subst. simpl.
    constructor; [|by apply IH]. by destruct c.
Qed.

Lemma ffill_from_sourced names prev rs :
  row_sourced download start_date end_date names prev →
  Forall (λ r : Universe.RawRow, row_sourced download start_date end_date names r.2) rs →
  Forall (λ r : Universe.RawRow, row_sourced download start_date end_date names r.2)
    (Universe.ffill_from prev rs).
Proof.
  revert prev. induction rs as [|[d cells] rs IH]; intros prev Hprev Hrs; [done|].
  apply Forall_cons in Hrs as [Hcells Hrs]. simpl in *.
  assert (row_sourced download start_date end_date names (Universe.fill_from prev cells))
    by by apply fill_from_sourced.
  constructor; [done|]. by apply IH.
Qed.

Lemma ffill_sourced names rs :
  Forall (λ r : Universe.RawRow, row_sourced download start_date end_date names r.2) rs →
  Forall (λ r : Universe.RawRow, row_sourced download start_date end_date names r.2)
    (Universe.ffill rs).
Proof.
  destruct rs as [|r rs]; [done|]. intros Hrs.
  apply Forall_cons in Hrs as [Hr Hrs]. simpl. constructor; [done|].
  by apply ffill_from_sourced.
Qed.

Lemma dropna_all_sourced names rs :
  Forall (λ r : Universe.RawRow, row_sourced download start_date end_date names r.2) rs →
  Forall (λ r : Universe.RawRow, row_sourced download start_date end_date names r.2)
    (Universe.dropna_all rs).
Proof.
  unfold Universe.dropna_all. rewrite !Forall_forall. intros Hrs r Hr.
  apply list_elem_of_In, List.filter_In in Hr as [Hr _].
  by apply Hrs, list_elem_of_In.
Qed.

Lemma all_prices_sourced names cells qs tk v :
  row_sourced download start_date end_date names cells →
  Universe.all_prices cells = Some qs →
  (tk, v) ∈ zip names qs → is_close_of download start_date end_date tk v.
Proof.
  unfold row_sourced. intros Hrow. revert qs.
  induction Hrow as [|n c names cells Hc Hrow IH]; intros qs Hall Hin.
  - by apply elem_of_nil in Hin.
  - simpl in Hall. destruct c as [q|]; [|done].
    destruct (Universe.all_prices cells) as [qs'|]; [|done].
    injection Hall as <-. simpl in Hin.
    apply elem_of_cons in Hin as [[= -> ->]|Hin]; [by apply Hc|by eapply IH].
Qed.

Lemma dropna_sourced names rs d (row : gmap string Q) tk v :
  Forall (λ r : Universe.RawRow, row_sourced download start_date end_date names r.2) rs →
  (d, row) ∈ Universe.dropna names rs → row !! tk = Some v →
  is_close_of download start_date end_date tk v.
Proof.
  unfold Universe.dropna. intros Hrs Hin Hv.
  apply list_elem_of_omap in Hin as (raw & Hraw & Hrow).
  rewrite Forall_forall in Hrs. specialize (Hrs _ Hraw).
  destruct (Universe.all_prices raw.2) as [qs|] eqn:Hall; [|done].
  simpl in Hrow. injection Hrow as _ <-.
  apply elem_of_list_to_map_2 in Hv. by eapply all_prices_sourced.
Qed.

End Sourcing.

Lemma loc_elem (rs : list (Timestamp * gmap string Q)) d r :
  Universe.loc rs d = Some r → (d, r) ∈ rs.
Proof.
  induction rs as [|[d' r'] rs IH]; simpl; [done|].
  case_decide as Heq.
  - intros [= ->]. subst d'. by left.
  - intros H. right. by apply IH.
Qed.

(** X6.  Every price of the table is a close that the download of that very
    ticker returned for some date: cleaning and forward filling never invent
    a price nor move one to another column. *)
Theorem table_prices_are_downloaded_closes download tickers start_date end_date
    date row tk v :
  Universe.loc (Universe.rows (Universe.get_price_data download tickers start_date end_date))
    date = Some row →
  row !! tk = Some v →
  ∃ s d, download tk start_date end_date = Some s ∧ (d, Some v) ∈ s.
Proof.
  intros Hloc Hv. apply loc_elem in Hloc. revert Hloc.
  rewrite get_price_data_raw. cbv zeta.
  case_decide as Hlen; simpl; [|by intros ?%elem_of_nil].
  intros Hrow.
  eapply (dropna_sourced download start_date end_date); [|exact Hrow|exact Hv].
  apply ffill_sourced, dropna_all_sourced, raw_rows_sourced.
  unfold raw_prices. apply load_fold_sourced. constructor.
Qed.

Lemma table_prices_are_downloaded_closes_witness :
  ∃ s d, Scenario.download "AAA" "2024-01-01" "2024-01-09" = Some s ∧ (d, Some 12%Q) ∈ s.
Proof.
  apply (table_prices_are_downloaded_closes Scenario.download Scenario.universe
           "2024-01-01" "2024-01-09" Scenario.monday2 Scenario.row_monday2 "AAA" 12).
  - vm_compute. reflexivity.
  - vm_compute. reflexivity.
Defined.

(* ===================================================================== *)
(** ** The books of a rebalance and of a run *)
(* ===================================================================== *)

Lemma same_books_refl s : same_books s s.
Proof. by repeat split. Qed.

Lemma same_books_trans s1 s2 s3 : same_books s1 s2 → same_books s2 s3 → same_books s1 s3.
Proof.
  unfold same_books. intros (?&?&?&?&?&?&?&?&?) (?&?&?&?&?&?&?&?&?).
  repeat split; congruence.
Qed.

Lemma after_call_books c f s : same_books s (after_call c f s).
Proof. by repeat split. Qed.

Lemma sell_fold_books cp date l s : same_books s (foldl (sell_step cp date) s l).
Proof.
  revert s. induction l as [|tk l IH]; intros s; [apply same_books_refl|].
  simpl. eapply same_books_trans; [|apply IH].
  unfold sell_step. destruct (cp !! tk); [apply after_call_books|apply same_books_refl].
Qed.

Lemma buy_fold_books cp date pct reason l s :
  same_books s (foldl (buy_step cp date pct reason) s l).
Proof.
  revert s. induction l as [|signal l IH]; intros s; [apply same_books_refl|].
  simpl. eapply same_books_trans; [|apply IH].
  unfold buy_step. destruct (cp !! ticker signal); [|apply same_books_refl].
  destruct (Ledger.positions (portfolio s) !! ticker signal);
    [apply same_books_refl|apply after_call_books].
Qed.

Lemma opened_books cp date s : same_books s (opened cp date s).
Proof. by repeat split. Qed.

Lemma liquidated_books w cp date tickers s : same_books s (liquidated w cp date tickers s).
Proof.
  unfold liquidated. cbv zeta.
  eapply same_books_trans; [apply opened_books|apply sell_fold_books].
Qed.

Lemma bought_books w cp date tickers s done1 done2 :
  same_books s (bought w cp date tickers s done1 done2).
Proof.
  unfold bought. cbv zeta.
  eapply same_books_trans; [apply liquidated_books|].
  eapply same_books_trans; apply buy_fold_books.
Qed.

(** What a rebalance leaves of the engine's own books, however it ends. *)
Lemma rebalance_books w date s df cp tickers out s' :
  price_data s = Some df → Universe.loc (Universe.rows df) date = Some cp →
  universe_tickers s = Some tickers →
  rebalance_portfolio w date s = (out, s') →
  price_data s' = Some df ∧ universe_tickers s' = Some tickers ∧
  rebalance_frequency s' = rebalance_frequency s ∧ verbose s' = verbose s ∧
  match out with
  | Returns _ =>
      decisions_history s' = decisions_history s ++ analyse w tickers date ∧
      rebalance_dates s' = rebalance_dates s ++ [date]
  | Raises _ =>
      decisions_history s' = decisions_history s ∧
      rebalance_dates s' = rebalance_dates s
  end.
Proof.
  intros Hdf Hcp Htk Hrun.
  destruct (rebalance_portfolio_shape w date s df cp tickers Hdf Hcp Htk)
    as (done1 & done2 & _ & _ & Hcases).
  pose proof (bought_books w cp date tickers s done1 done2)
    as (_&_&Hf&Hu&Hp&_&Hd&Hr&Hv).
  destruct Hcases as [(_&_&_&Heq)|[(_&_&_&Heq)|(_&_&_&Heq)]];
    rewrite Heq in Hrun; injection Hrun as <- <-.
  - by rewrite Hp, Hu, Hf, Hv, Hd, Hr.
  - by rewrite Hp, Hu, Hf, Hv, Hd, Hr.
  - cbn [price_data universe_tickers rebalance_frequency verbose decisions_history
         rebalance_dates save_decisions].
    by rewrite Hp, Hu, Hf, Hv, Hd, Hr.
Qed.



Lemma filter_sublist {A} (f : A → bool) (l : list A) : List.filter f l `sublist_of` l.
Proof.
  induction l as [|x l IH]; simpl; [done|].
  destruct (f x); [by apply sublist_skip|by apply sublist_cons].
Qed.

Lemma first_days_sublist cur l : first_days cur l `sublist_of` l.
Proof.
  revert cur. induction l as [|d l IH]; intros cur; simpl; [done|].
  case_decide; [apply sublist_skip|apply sublist_cons]; apply IH.
Qed.

Lemma quarterly_dates_sublist cur l : quarterly_dates cur l `sublist_of` l.
Proof.
  revert cur. induction l as [|d l IH]; intros cur; simpl; [done|].
  case_decide; [apply sublist_skip|apply sublist_cons]; apply IH.
Qed.

Lemma first_days_head l : head (first_days None l) = head l.
Proof. by destruct l. Qed.

Lemma quarterly_dates_head l : head (quarterly_dates None l) = head l.
Proof. by destruct l. Qed.

Lemma valid_frequencies_elem f :
  f ∈ valid_frequencies ↔ f = "weekly" ∨ f = "monthly" ∨ f = "quarterly".
Proof.
  unfold valid_frequencies. rewrite !elem_of_cons, elem_of_nil. tauto.
Qed.

(** X8.  [get_rebalance_dates] leaves the engine as it is; the dates it
    returns are trading days of the price table in calendar order, starting
    with the first trading day for the monthly and quarterly frequencies; it
    raises only for an unknown frequency, or for a missing price table under
    a known one. *)
Theorem rebalance_dates_are_trading_days s :
  (get_rebalance_dates s).2 = s ∧
  match (get_rebalance_dates s).1 with
  | Returns dates =>
      rebalance_frequency s ∈ valid_frequencies ∧
      ∃ df, price_data s = Some df ∧
            dates `sublist_of` Universe.index df ∧
            (rebalance_frequency s ≠ "weekly" → head dates = head (Universe.index df))
  | Raises e =>
      (e = InvalidFrequency (rebalance_frequency s) ∧
       rebalance_frequency s ∉ valid_frequencies) ∨
      (e = AttributeError ∧ rebalance_frequency s ∈ valid_frequencies ∧
       price_data s = None)
  end.
Proof.
  unfold get_rebalance_dates, the_price_data, bind, get, from_option.
  pose proof (valid_frequencies_elem (rebalance_frequency s)) as Hvalid.
  destruct (decide (rebalance_frequency s = "weekly")) as [Hw|Hw];
    [|destruct (decide (rebalance_frequency s = "monthly")) as [Hm|Hm];
      [|destruct (decide (rebalance_frequency s = "quarterly")) as [Hq|Hq]]].
  4: { simpl. split; [done|]. left. split; [done|]. rewrite Hvalid. tauto. }
  all: destruct (price_data s) as [df|] eqn:Hdf; simpl;
    [split; [done|]; split; [apply Hvalid; tauto|]; exists df; split; [done|]
    |split; [done|]; right; split; [done|]; split; [apply Hvalid; tauto|done]].
  - split; [apply filter_sublist|]. intros Hne. congruence.
  - split; [apply first_days_sublist|]. intros _. apply first_days_head.
  - split; [apply quarterly_dates_sublist|]. intros _. apply quarterly_dates_head.
Qed.

Lemma run_agents_for_ticker_Some w tk date d :
  run_agents_for_ticker w tk date = Some d ↔
  ∃ state sd,
    run_trading_pipeline w tk date = PipelineReturns state ∧
    pipeline_status state = "completed" ∧ senior_decision state = Some sd ∧
    d = mkDecision tk (final_verdict sd) (sd_position_size sd) (sd_confidence sd)
          (sd_stop_loss sd) (sd_take_profit sd)
          (analyst_report state ≫= score).
Proof.
  unfold run_agents_for_ticker. split.
  - destruct (run_trading_pipeline w tk date) as [state|]; [|done].
    destruct (senior_decision state) as [sd|] eqn:Hsd; [|done].
    case_decide as Hst; [|done]. intros [= <-]. exists state, sd.
    repeat split; try done.
  - intros (state & sd & -> & Hst & -> & ->). rewrite decide_True by done.
    by destruct (analyst_report state).
Qed.

Lemma omap_fmap_sublist {A B} (f : A → option B) (g : B → A) (l : list A) :
  (∀ x y, f x = Some y → g y = x) → g <$> omap f l `sublist_of` l.
Proof.
  intros Hfg. induction l as [|x l IH]; [done|].
  cbn [omap list_omap]. destruct (f x) as [y|] eqn:Hy.
  - rewrite fmap_cons, (Hfg x y Hy). by apply sublist_skip.
  - by apply sublist_cons.
Qed.

(** X9.  The decisions of a rebalance follow the universe in its order, and
    each is the senior decision of a pipeline run that completed for that
    ticker on that date, copied field by field. *)
Theorem decisions_follow_the_universe w tickers date :
  ticker <$> analyse w tickers date `sublist_of` tickers ∧
  (∀ d, d ∈ analyse w tickers date ↔
        ticker d ∈ tickers ∧
        ∃ state sd,
          run_trading_pipeline w (ticker d) date = PipelineReturns state ∧
          pipeline_status state = "completed" ∧ senior_decision state = Some sd ∧
          verdict d = final_verdict sd ∧ position_size d = sd_position_size sd ∧
          confidence d = sd_confidence sd ∧ stop_loss d = sd_stop_loss sd ∧
          take_profit d = sd_take_profit sd ∧
          analyst_score d = analyst_report state ≫= score).
Proof.
  split.
  - apply omap_fmap_sublist. intros tk d Hd.
    apply run_agents_for_ticker_Some in Hd as (state & sd & _ & _ & _ & ->). done.
  - intros d. unfold analyse. rewrite list_elem_of_omap. split.
    + intros (tk & Hin & Hd).
      apply run_agents_for_ticker_Some in Hd as (state & sd & Hp & Hst & Hsd & ->).
      simpl. split; [done|]. exists state, sd. by repeat split.
    + intros (Hin & state & sd & Hp & Hst & Hsd & Hv & Hps & Hc & Hsl & Htp & Has).
      exists (ticker d). split; [done|]. apply run_agents_for_ticker_Some.
      exists state, sd. repeat split; try done.
      destruct d. simpl in *. congruence.
Qed.

(** X10.  Whatever the number of BUY signals, the three shares of the
    allocation add up to 1, the HOLD share is positive, the cash share lies
    between 5% and 15%, and more BUY signals never lower the BUY share. *)
Theorem allocation_sums_to_one (num_buy num_buy' : nat) :
  let '(buy_allocation, hold_allocation, cash_target) := allocation num_buy in
  let '(buy_allocation', _, _) := allocation num_buy' in
  (buy_allocation + hold_allocation + cash_target == 1)%Q ∧
  (0 < hold_allocation)%Q ∧ (5 # 100 <= cash_target <= 15 # 100)%Q ∧
  ((num_buy <= num_buy')%nat → (buy_allocation <= buy_allocation')%Q).
Proof.
  unfold allocation. repeat case_decide; repeat split; try done; try lia.
Qed.

(** One turn of a buying loop: it passes, or it calls [buy] for a signal
    that has a price and no position. *)
Lemma buy_step_turn cp date pct reason s signal :
  (buy_step cp date pct reason s signal = s ∧
   (cp !! ticker signal = None ∨
    is_Some (Ledger.positions (portfolio s) !! ticker signal))) ∨
  (∃ price,
     cp !! ticker signal = Some price ∧
     Ledger.positions (portfolio s) !! ticker signal = None ∧
     ledger_calls (buy_step cp date pct reason s signal)
     = ledger_calls s ++ [buy_call_for date pct reason signal price]).
Proof.
  unfold buy_step. destruct (cp !! ticker signal) as [price|]; [|left; by eauto].
  destruct (Ledger.positions (portfolio s) !! ticker signal) eqn:Hpos;
    [left; by eauto|].
  right. by exists price.
Qed.

(** The [buy] calls of a buying loop: they are made for signals of the
    list, in its order, each at the price of the day's row; every signal
    that has a price and whose ticker had no position when the loop started
    gets one for its ticker, and so does every ticker that has a position
    at the end and had none at the start. *)
Lemma buy_fold_calls cp date pct reason l s :
  ∃ called : list (Decision * Q),
    ledger_calls (foldl (buy_step cp date pct reason) s l)
    = ledger_calls s ++ map (λ sp, buy_call_for date pct reason sp.1 sp.2) called ∧
    called.*1 `sublist_of` l ∧
    Forall (λ sp, cp !! ticker sp.1 = Some sp.2) called ∧
    (∀ signal price,
       signal ∈ l → cp !! ticker signal = Some price →
       Ledger.positions (portfolio s) !! ticker signal = None →
       ∃ signal', (signal', price) ∈ called ∧ ticker signal' = ticker signal) ∧
    (∀ tk,
       is_Some (Ledger.positions
                  (portfolio (foldl (buy_step cp date pct reason) s l)) !! tk) →
       Ledger.positions (portfolio s) !! tk = None →
       ∃ signal' price, (signal', price) ∈ called ∧ ticker signal' = tk).
Proof.
  revert s. induction l as [|signal l IH]; intros s.
  - exists []. simpl. rewrite app_nil_r. repeat split; try done.
    + intros ? ? Hin. by apply elem_of_nil in Hin.
    + intros tk [pos Hpos] Hnone. congruence.
  - simpl.
    destruct (IH (buy_step cp date pct reason s signal))
      as (called & Hcalls & Hsub & Hpriced & Hreach & Hnew).
    assert (∀ tk, tk ≠ ticker signal →
                  Ledger.positions (portfolio (buy_step cp date pct reason s signal)) !! tk
                  = Ledger.positions (portfolio s) !! tk) as Hother.
    { intros tk Hne.
      apply (buy_fold_other cp date pct reason [signal] s tk).
      simpl. rewrite elem_of_cons, elem_of_nil. by intros [?|[]]. }
    destruct (buy_step_turn cp date pct reason s signal)
      as [[Hsame Hskip]|(price0 & Hprice0 & Hfree & Hcall)].
    + rewrite Hsame in Hcalls, Hreach, Hnew |- *.
      exists called. split; [done|]. split; [by apply sublist_cons|].
      split; [done|]. split; [|done].
      intros sg price [->|Hin]%elem_of_cons Hprice Hnone.
      * destruct Hskip as [Hskip|[pos Hskip]]; congruence.
      * by apply Hreach.
    + exists ((signal, price0) :: called).
      split; [rewrite Hcalls, Hcall, <- app_assoc; done|].
      split; [by apply sublist_skip|]. split; [by constructor|]. split.
      * intros sg price Hin Hprice Hnone.
        destruct (decide (ticker sg = ticker signal)) as [Heq|Hne].
        -- exists signal. split; [|done]. rewrite Heq in Hprice.
           assert (price = price0) as -> by congruence. by left.
        -- apply elem_of_cons in Hin as [->|Hin]; [done|].
           destruct (Hreach sg price Hin Hprice) as (sg' & Hsg' & Htk');
             [by rewrite Hother|].
           exists sg'. split; [by right|done].
      * intros tk Hheld Hnone.
        destruct (decide (tk = ticker signal)) as [->|Hne].
        -- exists signal, price0. split; [by left|done].
        -- destruct (Hnew tk Hheld) as (sg' & price & Hsg' & Htk');
             [by rewrite Hother|].
           exists sg', price. split; [by right|done].
Qed.

Lemma position_pct_simplified total share pool signals :
  (0 < pool)%nat → ¬ (total == 0)%Q →
  (position_pct total share pool signals
   == 100 * share / inject_Z (Z.of_nat (pool `min` (1 `max` signals))))%Q.
Proof.
  intros Hpool Htotal. unfold position_pct.
  assert (¬ (inject_Z (Z.of_nat (pool `min` (1 `max` signals))) == 0)%Q) as Hk.
  { intros Hz.
    assert (0 < inject_Z (Z.of_nat (pool `min` (1 `max` signals))))%Q as Hpos.
    { change 0%Q with (inject_Z 0). rewrite <- Zlt_Qlt. lia. }
    rewrite Hz in Hpos. by apply Qlt_irrefl in Hpos. }
  field. tauto.
Qed.

Lemma filter_all {A} (f : A → bool) (l : list A) :
  Forall (λ x, f x = true) l → List.filter f l = l.
Proof.
  induction 1 as [|x l Hx _ IH]; [done|]. simpl. by rewrite Hx, IH.
Qed.

Lemma sell_calls_not_buys cp date l :
  List.filter is_buy_call (sell_calls cp date l) = [].
Proof.
  apply filter_none, Forall_forall. intros c Hc. unfold sell_calls in Hc.
  apply list_elem_of_omap in Hc as (tk & _ & Hcall).
  destruct (cp !! tk); [|done]. simpl in Hcall. by injection Hcall as <-.
Qed.

Lemma buy_calls_are_buys date pct reason (called : list (Decision * Q)) :
  List.filter is_buy_call (map (λ sp, buy_call_for date pct reason sp.1 sp.2) called)
  = map (λ sp, buy_call_for date pct reason sp.1 sp.2) called.
Proof. apply filter_all, Forall_forall. by intros c (sp & -> & _)%list_elem_of_fmap. Qed.

Lemma buy_calls_tickers date pct reason (called : list (Decision * Q)) :
  omap call_ticker (map (λ sp, buy_call_for date pct reason sp.1 sp.2) called)
  = ticker <$> called.*1.
Proof. induction called as [|sp l IH]; [done|]. simpl. f_equal. exact IH. Qed.

(** The calls of one rebalance, however it ends: the two opening calls,
    the sales, the purchases of the BUY tier and those of the HOLD tier.
    The purchases follow the ranked tiers; when the rebalance returns, no
    signal of the top of a tier that has a price and whose ticker was not
    held is left without a call for its ticker. *)
Lemma rebalance_buy_calls w date s df cp tickers out s' :
  price_data s = Some df → Universe.loc (Universe.rows df) date = Some cp →
  universe_tickers s = Some tickers →
  rebalance_portfolio w date s = (out, s') →
  let buy_signals := buy_signals_of w (analyse w tickers date) in
  let hold_signals := hold_signals_of w (analyse w tickers date) in
  let shares := allocation (length buy_signals) in
  let total := Ledger.total_value (portfolio (opened cp date s)) in
  let pct1 := position_pct total shares.1.1 15 (length buy_signals) in
  let pct2 := position_pct total shares.1.2 20 (length hold_signals) in
  let to_sell := dom (Ledger.positions (portfolio s)) ∖ keep_set w tickers date in
  ∃ called1 called2 : list (Decision * Q),
    new_calls s s'
    = [CallUpdatePrices cp; CallApplySelic date selic_daily]
      ++ sell_calls cp date (set_order w to_sell)
      ++ map (λ sp, buy_call_for date pct1 Ledger.REBALANCE sp.1 sp.2) called1
      ++ map (λ sp, buy_call_for date pct2 Ledger.HOLD_EXPOSURE sp.1 sp.2) called2 ∧
    called1.*1 `sublist_of` take 15 buy_signals ∧
    called2.*1 `sublist_of` take 20 hold_signals ∧
    Forall (λ sp, cp !! ticker sp.1 = Some sp.2) (called1 ++ called2) ∧
    (called1 ++ called2 ≠ [] → ¬ (total == 0)%Q) ∧
    (out = Returns tt →
     ∀ signal price,
       signal ∈ take 15 buy_signals ∨ signal ∈ take 20 hold_signals →
       cp !! ticker signal = Some price →
       Ledger.positions (portfolio s) !! ticker signal = None →
       ∃ signal', (signal', price) ∈ called1 ++ called2 ∧ ticker signal' = ticker signal).
Proof.
  intros Hdf Hcp Htk Hrun buy_signals hold_signals shares total pct1 pct2 to_sell.
  destruct (rebalance_portfolio_shape w date s df cp tickers Hdf Hcp Htk)
    as (done1 & done2 & Hpre1 & Hpre2 & Hcases).
  fold buy_signals hold_signals total in Hpre1, Hpre2, Hcases.
  assert (ledger_calls s' = ledger_calls (bought w cp date tickers s done1 done2))
    as Hc.
  { destruct Hcases as [(_&_&_&Heq)|[(_&_&_&Heq)|(_&_&_&Heq)]];
      rewrite Heq in Hrun; by injection Hrun as <- <-. }
  assert ((done1 ++ done2 ≠ [] → ¬ (total == 0)%Q) ∧
          (out = Returns tt →
           done1 = take 15 buy_signals ∧ done2 = take 20 hold_signals))
    as [Htotal Hall].
  { destruct Hcases as [(_&->&->&Heq)|[(?&_&_&Heq)|(?&->&->&Heq)]];
      rewrite Heq in Hrun; injection Hrun as <- <-; by split. }
  clear Hcases Hrun.
  pose proof (sell_fold_calls cp date (set_order w to_sell) (opened cp date s)) as Hsc.
  unfold to_sell in Hsc.
  rewrite <- liquidated_to_sell, opened_calls, <- app_assoc in Hsc.
  unfold bought in Hc. cbv zeta in Hc.
  fold buy_signals hold_signals shares total pct1 pct2 in Hc.
  set (s3 := liquidated w cp date tickers s) in *.
  set (s4 := foldl (buy_step cp date pct1 Ledger.REBALANCE) s3 done1) in *.
  destruct (buy_fold_calls cp date pct1 Ledger.REBALANCE done1 s3)
    as (called1 & Hc1 & Hsub1 & Hpriced1 & Hreach1 & Hnew1).
  destruct (buy_fold_calls cp date pct2 Ledger.HOLD_EXPOSURE done2 s4)
    as (called2 & Hc2 & Hsub2 & Hpriced2 & Hreach2 & _).
  fold s4 in Hc1, Hnew1.
  exists called1, called2.
  split; [|split; [|split; [|split; [|split]]]].
  - apply new_calls_app. by rewrite Hc, Hc2, Hc1, Hsc, <- !app_assoc.
  - destruct Hpre1 as [rest ->]. by apply sublist_inserts_r.
  - destruct Hpre2 as [rest ->]. by apply sublist_inserts_r.
  - by apply Forall_app.
  - intros Hsome. apply Htotal. intros [-> ->]%app_eq_nil.
    apply sublist_nil_r in Hsub1, Hsub2.
    apply fmap_nil_inv in Hsub1, Hsub2. subst. done.
  - intros Hout sg price Htop Hprice Hnone.
    destruct (Hall Hout) as [-> ->].
    assert (ticker sg ∈ keep_set w tickers date) as Hkeep.
    { apply keep_set_top.
      destruct Htop as [Hin|Hin]; [left|right];
        apply list_elem_of_fmap; by exists sg. }
    assert (Ledger.positions (portfolio s3) !! ticker sg = None) as Hnone3.
    { unfold s3. rewrite liquidated_kept by by left. by rewrite Hnone. }
    destruct Htop as [Hin|Hin].
    + destruct (Hreach1 sg price Hin Hprice Hnone3) as (sg' & Hsg' & Htk').
      exists sg'. split; [|done]. apply elem_of_app. by left.
    + destruct (Ledger.positions (portfolio s4) !! ticker sg) as [pos|] eqn:Hpos4.
      * destruct (Hnew1 (ticker sg)) as (sg' & price' & Hsg' & Htk'); [by eexists|done|].
        exists sg'. split; [|done]. apply elem_of_app. left.
        rewrite Forall_forall in Hpriced1. specialize (Hpriced1 _ Hsg').
        simpl in Hpriced1. rewrite Htk' in Hpriced1.
        assert (price = price') as -> by congruence. done.
      * destruct (Hreach2 sg price Hin Hprice Hpos4) as (sg' & Hsg' & Htk').
        exists sg'. split; [|done]. apply elem_of_app. by right.
Qed.

(** X11.  The buy calls of a rebalance are at most 15 REBALANCE calls
    followed by at most 20 HOLD_EXPOSURE calls; each is for a signal of the
    top of its tier, at the price of the day's row, with the signal's own
    stops, and asks for the tier's share divided evenly among the tier's
    signals (at most 15, or 20). *)
Theorem buy_calls_of_a_rebalance w date s df cp tickers out s' :
  price_data s = Some df → Universe.loc (Universe.rows df) date = Some cp →
  universe_tickers s = Some tickers →
  rebalance_portfolio w date s = (out, s') →
  let buy_signals := buy_signals_of w (analyse w tickers date) in
  let hold_signals := hold_signals_of w (analyse w tickers date) in
  let shares := allocation (length buy_signals) in
  ∃ buys holds,
    List.filter is_buy_call (new_calls s s') = buys ++ holds ∧
    (length buys <= 15)%nat ∧ (length holds <= 20)%nat ∧
    Forall (λ c, ∃ signal price pct,
                   signal ∈ take 15 buy_signals ∧ cp !! ticker signal = Some price ∧
                   c = buy_call_for date pct Ledger.REBALANCE signal price ∧
                   (pct == 100 * shares.1.1
                           / inject_Z (Z.of_nat (15 `min` (1 `max` length buy_signals))))%Q)
           buys ∧
    Forall (λ c, ∃ signal price pct,
                   signal ∈ take 20 hold_signals ∧ cp !! ticker signal = Some price ∧
                   c = buy_call_for date pct Ledger.HOLD_EXPOSURE signal price ∧
                   (pct == 100 * shares.1.2
                           / inject_Z (Z.of_nat (20 `min` (1 `max` length hold_signals))))%Q)
           holds.
Proof.
  intros Hdf Hcp Htk Hrun buy_signals hold_signals shares.
  destruct (rebalance_buy_calls _ _ _ _ _ _ _ _ Hdf Hcp Htk Hrun)
    as (called1 & called2 & Hcalls & Hsub1 & Hsub2 & Hpriced & Htotal & _).
  fold buy_signals hold_signals shares in Hcalls, Hsub1, Hsub2, Htotal.
  apply Forall_app in Hpriced as [Hpriced1 Hpriced2].
  rewrite Forall_forall in Hpriced1. rewrite Forall_forall in Hpriced2.
  set (total := Ledger.total_value (portfolio (opened cp date s))) in *.
  exists (map (λ sp, buy_call_for date
                       (position_pct total shares.1.1 15 (length buy_signals))
                       Ledger.REBALANCE sp.1 sp.2) called1),
         (map (λ sp, buy_call_for date
                       (position_pct total shares.1.2 20 (length hold_signals))
                       Ledger.HOLD_EXPOSURE sp.1 sp.2) called2).
  split; [|split; [|split; [|split]]].
  - rewrite Hcalls, !List.filter_app, sell_calls_not_buys, !buy_calls_are_buys. done.
  - rewrite length_map, <- (length_fmap fst).
    apply sublist_length in Hsub1. rewrite length_take in Hsub1. lia.
  - rewrite length_map, <- (length_fmap fst).
    apply sublist_length in Hsub2. rewrite length_take in Hsub2. lia.
  - apply Forall_forall. intros c (sp & -> & Hin)%list_elem_of_fmap.
    eexists sp.1, sp.2, _. split; [|split; [by apply Hpriced1|split; [done|]]].
    + eapply sublist_subseteq; [exact Hsub1|]. apply list_elem_of_fmap. by exists sp.
    + apply position_pct_simplified; [lia|]. apply Htotal.
      intros [-> _]%app_eq_nil. by apply elem_of_nil in Hin.
  - apply Forall_forall. intros c (sp & -> & Hin)%list_elem_of_fmap.
    eexists sp.1, sp.2, _. split; [|split; [by apply Hpriced2|split; [done|]]].
    + eapply sublist_subseteq; [exact Hsub2|]. apply list_elem_of_fmap. by exists sp.
    + apply position_pct_simplified; [lia|]. apply Htotal.
      intros [_ ->]%app_eq_nil. by apply elem_of_nil in Hin.
Qed.

Lemma buy_calls_of_a_rebalance_witness :
  ∃ buys holds,
    List.filter is_buy_call
      (new_calls Scenario.at_rebalance
         (rebalance_portfolio Scenario.world Scenario.monday2 Scenario.at_rebalance).2)
    = buys ++ holds ∧
    (length buys <= 15)%nat ∧ (length holds <= 20)%nat.
Proof.
  pose proof (buy_calls_of_a_rebalance Scenario.world Scenario.monday2
                Scenario.at_rebalance Scenario.table Scenario.row_monday2
                Scenario.universe
                (rebalance_portfolio Scenario.world Scenario.monday2
                   Scenario.at_rebalance).1
                (rebalance_portfolio Scenario.world Scenario.monday2
                   Scenario.at_rebalance).2)
    as Hbuys.
  destruct Hbuys as (buys & holds & Hsplit & Hb & Hh & _).
  - vm_compute. reflexivity.
  - vm_compute. reflexivity.
  - reflexivity.
  - apply surjective_pairing.
  - exists buys, holds. exact (conj Hsplit (conj Hb Hh)).
Defined.

(** C4.  The allocation of a rebalance is the one of the ladder for the
    number of decisions with a BUY verdict: in percent, (90, 5, 5) from 15
    on, (80, 10, 10) from 10 on, (60, 25, 15) from 5 on, and (40, 45, 15)
    below.  It is the allocation the rebalance acts on: every purchase it
    calls asks for the BUY share of the ladder divided among the BUY
    signals (at most 15), or for the HOLD share divided among the HOLD
    signals (at most 20); and a rebalance that returns has called a
    purchase for the ticker of every signal of the top of a tier that has a
    price and was not held.  (The cash share is only printed.) *)
Theorem allocation_by_buy_count w date s df cp tickers out s' :
  price_data s = Some df → Universe.loc (Universe.rows df) date = Some cp →
  universe_tickers s = Some tickers →
  rebalance_portfolio w date s = (out, s') →
  let decisions := analyse w tickers date in
  let num_buy := length (tier BUY decisions) in
  let num_hold := length (tier HOLD decisions) in
  let shares := allocation num_buy in
  let percent := allocation_pct num_buy in
  length (buy_signals_of w decisions) = num_buy ∧
  percent = (if (15 <=? num_buy)%nat then (90, 5, 5)
             else if (10 <=? num_buy)%nat then (80, 10, 10)
             else if (5 <=? num_buy)%nat then (60, 25, 15)
             else (40, 45, 15)) ∧
  (shares.1.1 * 100 == inject_Z percent.1.1)%Q ∧
  (shares.1.2 * 100 == inject_Z percent.1.2)%Q ∧
  (shares.2 * 100 == inject_Z percent.2)%Q ∧
  (∀ tk price pct d sl tp reason,
     CallBuy tk price pct d sl tp reason ∈ new_calls s s' →
     (reason = Ledger.REBALANCE ∧
      (pct == inject_Z percent.1.1
              / inject_Z (Z.of_nat (15 `min` (1 `max` num_buy))))%Q) ∨
     (reason = Ledger.HOLD_EXPOSURE ∧
      (pct == inject_Z percent.1.2
              / inject_Z (Z.of_nat (20 `min` (1 `max` num_hold))))%Q)) ∧
  (out = Returns tt →
   ∀ signal,
     signal ∈ take 15 (buy_signals_of w decisions) ∨
     signal ∈ take 20 (hold_signals_of w decisions) →
     is_Some (cp !! ticker signal) →
     Ledger.positions (portfolio s) !! ticker signal = None →
     ∃ price pct sl tp reason,
       CallBuy (ticker signal) price pct date sl tp reason ∈ new_calls s s').
Proof.
  intros Hdf Hcp Htk Hrun decisions num_buy num_hold shares percent.
  destruct (rebalance_buy_calls _ _ _ _ _ _ _ _ Hdf Hcp Htk Hrun)
    as (called1 & called2 & Hcalls & _ & _ & _ & Htotal & Hreach).
  fold decisions in Hcalls, Htotal, Hreach.
  destruct (allocation_ladder w decisions) as [Hnum Hladder].
  fold num_buy in Hnum. rewrite Hnum in Hladder, Hcalls. fold shares percent in Hladder.
  assert (length (hold_signals_of w decisions) = num_hold) as Hnum'
    by apply sort_desc_length.
  rewrite Hnum' in Hcalls. fold shares in Hcalls.
  assert ((shares.1.1 * 100 == inject_Z percent.1.1)%Q ∧
          (shares.1.2 * 100 == inject_Z percent.1.2)%Q ∧
          (shares.2 * 100 == inject_Z percent.2)%Q) as (Hbuy & Hhold & Hcash).
  { destruct shares as [[? ?] ?], percent as [[? ?] ?]. exact Hladder. }
  split; [done|]. split; [done|]. split; [done|]. split; [done|]. split; [done|].
  split.
  - intros tk price pct d sl tp reason. rewrite Hcalls.
    rewrite !elem_of_app, !elem_of_cons, elem_of_nil.
    intros [[?|[?|[]]]|[Hin|[Hin|Hin]]]; try done.
    + unfold sell_calls in Hin. apply list_elem_of_omap in Hin as (tk' & _ & Hcall).
      destruct (cp !! tk'); [|done]. simpl in Hcall. by injection Hcall.
    + apply list_elem_of_fmap in Hin as (sp & Hcall & Hin).
      injection Hcall as -> -> -> -> -> -> ->. left. split; [done|].
      rewrite position_pct_simplified; [|lia|].
      * rewrite <- Hbuy. field.
        intros Hz.
        assert (0 < inject_Z (Z.of_nat (15 `min` (1 `max` num_buy))))%Q as Hpos.
        { change 0%Q with (inject_Z 0). rewrite <- Zlt_Qlt. lia. }
        rewrite Hz in Hpos. by apply Qlt_irrefl in Hpos.
      * apply Htotal. intros [-> _]%app_eq_nil. by apply elem_of_nil in Hin.
    + apply list_elem_of_fmap in Hin as (sp & Hcall & Hin).
      injection Hcall as -> -> -> -> -> -> ->. right. split; [done|].
      rewrite position_pct_simplified; [|lia|].
      * rewrite <- Hhold. field.
        intros Hz.
        assert (0 < inject_Z (Z.of_nat (20 `min` (1 `max` num_hold))))%Q as Hpos.
        { change 0%Q with (inject_Z 0). rewrite <- Zlt_Qlt. lia. }
        rewrite Hz in Hpos. by apply Qlt_irrefl in Hpos.
      * apply Htotal. intros [_ ->]%app_eq_nil. by apply elem_of_nil in Hin.
  - intros Hout sg Htop [price Hprice] Hnone.
    destruct (Hreach Hout sg price Htop Hprice Hnone) as (sg' & Hsg' & Htk').
    rewrite <- Htk'. rewrite Hcalls.
    apply elem_of_app in Hsg' as [Hsg'|Hsg'].
    + eexists price, _, _, _, _. rewrite !elem_of_app. right. right. left.
      apply list_elem_of_fmap. exists (sg', price). split; [|done]. reflexivity.
    + eexists price, _, _, _, _. rewrite !elem_of_app. right. right. right.
      apply list_elem_of_fmap. exists (sg', price). split; [|done]. reflexivity.
Qed.

Lemma allocation_by_buy_count_witness :
  ∃ price pct sl tp reason,
    CallBuy "CCC" price pct Scenario.monday2 sl tp reason
    ∈ new_calls Scenario.at_rebalance
        (rebalance_portfolio Scenario.world Scenario.monday2 Scenario.at_rebalance).2.
Proof.
  pose proof (allocation_by_buy_count Scenario.world Scenario.monday2
                Scenario.at_rebalance Scenario.table Scenario.row_monday2
                Scenario.universe
                (rebalance_portfolio Scenario.world Scenario.monday2
                   Scenario.at_rebalance).1
                (rebalance_portfolio Scenario.world Scenario.monday2
                   Scenario.at_rebalance).2)
    as Hladder.
  destruct Hladder as (_ & _ & _ & _ & _ & _ & Hcalled).
  - vm_compute. reflexivity.
  - vm_compute. reflexivity.
  - reflexivity.
  - apply surjective_pairing.
  - apply (Hcalled eq_refl
             (mkDecision "CCC" BUY (Some (5 # 100)) (Some (9 # 10)) (Some 45%Q)
                (Some 70%Q) (Some 90%Q))).
    + left. vm_compute. by left.
    + vm_compute. eauto.
    + vm_compute. reflexivity.
Defined.

(** C6.  In a rebalance each tier is the list of the decisions with its
    verdict, ranked: the ranked list has the same entries, runs from the
    largest [score × confidence], the product the interpreter computes, to
    the smallest, and keeps the entries that share a key in the order they
    were met; a score or confidence that is missing counts as 0, which
    makes the key 0.  The ranking is the one the rebalance acts on: its
    purchases are called for signals of the first 15 of the ranked BUY tier
    in their order, then of the first 20 of the ranked HOLD tier in their
    order, and when it returns none of these signals that has a price and
    was not held is left without a purchase called for its ticker. *)
Theorem tiers_ranked_by_quality w date s df cp tickers out s' :
  price_data s = Some df → Universe.loc (Universe.rows df) date = Some cp →
  universe_tickers s = Some tickers →
  rebalance_portfolio w date s = (out, s') →
  let decisions := analyse w tickers date in
  let key := λ x : Decision,
    float_mul w (default 0%Q (analyst_score x)) (default 0%Q (confidence x)) in
  let ranked_buy := buy_signals_of w decisions in
  let ranked_hold := hold_signals_of w decisions in
  (ranked_buy ≡ₚ tier BUY decisions ∧ descending key ranked_buy ∧
   ∀ q, with_key key q ranked_buy = with_key key q (tier BUY decisions)) ∧
  (ranked_hold ≡ₚ tier HOLD decisions ∧ descending key ranked_hold ∧
   ∀ q, with_key key q ranked_hold = with_key key q (tier HOLD decisions)) ∧
  (∀ x : Decision, analyst_score x = None ∨ confidence x = None → (key x == 0)%Q) ∧
  ∃ bought_on held_on : list Decision,
    omap call_ticker (List.filter is_buy_call (new_calls s s'))
    = ticker <$> (bought_on ++ held_on) ∧
    bought_on `sublist_of` take 15 ranked_buy ∧
    held_on `sublist_of` take 20 ranked_hold ∧
    (out = Returns tt →
     ∀ signal,
       signal ∈ take 15 ranked_buy ∨ signal ∈ take 20 ranked_hold →
       is_Some (cp !! ticker signal) →
       Ledger.positions (portfolio s) !! ticker signal = None →
       ticker signal ∈ ticker <$> (bought_on ++ held_on)).
Proof.
  intros Hdf Hcp Htk Hrun decisions key ranked_buy ranked_hold.
  destruct (ranked_tiers w decisions) as (Hbuy & Hhold & Hkey).
  split; [exact Hbuy|]. split; [exact Hhold|].
  split; [intros x; by apply Hkey|].
  destruct (rebalance_buy_calls _ _ _ _ _ _ _ _ Hdf Hcp Htk Hrun)
    as (called1 & called2 & Hcalls & Hsub1 & Hsub2 & _ & _ & Hreach).
  exists called1.*1, called2.*1.
  split; [|split; [done|split; [done|]]].
  - rewrite Hcalls, !List.filter_app, sell_calls_not_buys, !buy_calls_are_buys.
    simpl. by rewrite fmap_app, omap_app, !buy_calls_tickers.
  - intros Hout sg Htop [price Hprice] Hnone.
    destruct (Hreach Hout sg price Htop Hprice Hnone) as (sg' & Hsg' & Htk').
    rewrite <- Htk', <- fmap_app. apply list_elem_of_fmap. exists sg'. split; [done|].
    apply list_elem_of_fmap. by exists (sg', price).
Qed.

Lemma tiers_ranked_by_quality_witness :
  descending (quality Scenario.world)
    (buy_signals_of Scenario.world
       (analyse Scenario.world Scenario.universe Scenario.monday2)) ∧
  "CCC" ∈ omap call_ticker
            (List.filter is_buy_call
               (new_calls Scenario.at_rebalance
                  (rebalance_portfolio Scenario.world Scenario.monday2
                     Scenario.at_rebalance).2)).
Proof.
  pose proof (tiers_ranked_by_quality Scenario.world Scenario.monday2
                Scenario.at_rebalance Scenario.table Scenario.row_monday2
                Scenario.universe
                (rebalance_portfolio Scenario.world Scenario.monday2
                   Scenario.at_rebalance).1
                (rebalance_portfolio Scenario.world Scenario.monday2
                   Scenario.at_rebalance).2)
    as Hranked.
  destruct Hranked
    as ((_ & Hdesc & _) & _ & _ & bought_on & held_on & Hcalls & _ & _ & Hcalled).
  - vm_compute. reflexivity.
  - vm_compute. reflexivity.
  - reflexivity.
  - apply surjective_pairing.
  - split; [exact Hdesc|]. rewrite Hcalls.
    apply (Hcalled eq_refl
             (mkDecision "CCC" BUY (Some (5 # 100)) (Some (9 # 10)) (Some 45%Q)
                (Some 70%Q) (Some 90%Q))).
    + left. vm_compute. by left.
    + vm_compute. eauto.
    + vm_compute. reflexivity.
Defined.

Lemma analyse_nothing w tickers date :
  (∀ tk, tk ∈ tickers → run_agents_for_ticker w tk date = None) →
  analyse w tickers date = [].
Proof.
  intros Hnone. unfold analyse. induction tickers as [|tk tickers IH]; [done|].
  cbn [omap list_omap]. rewrite Hnone by by left.
  apply IH. intros tk' Hin. apply Hnone. by right.
Qed.

(** X12.  When every analysis of a rebalance fails, the rebalance makes its
    two opening calls and then nothing but NO_SIGNAL sales, one for every
    position that has a price on that day, in the order in which the
    interpreter walks the set of the held tickers; no purchase is called,
    so that it returns unless the portfolio is worth nothing. *)
Theorem no_decision_sells_everything w date s df cp tickers out s' :
  price_data s = Some df → Universe.loc (Universe.rows df) date = Some cp →
  universe_tickers s = Some tickers →
  (∀ tk, tk ∈ tickers → run_agents_for_ticker w tk date = None) →
  rebalance_portfolio w date s = (out, s') →
  (∃ order,
     order ≡ₚ elements (dom (Ledger.positions (portfolio s))) ∧
     new_calls s s'
     = [CallUpdatePrices cp; CallApplySelic date selic_daily]
       ++ sell_calls cp date order) ∧
  (out = Returns tt ∨
   (out = Raises ZeroDivisionError ∧
    (Ledger.total_value (portfolio (opened cp date s)) == 0)%Q)) ∧
  ∀ tk, is_Some (Ledger.positions (portfolio s) !! tk) → is_Some (cp !! tk) →
        ∃ price, CallSell tk price date Ledger.NO_SIGNAL ∈ new_calls s s'.
Proof.
  intros Hdf Hcp Htk Hnone Hrun.
  destruct (rebalance_effects _ _ _ _ _ _ _ _ Hdf Hcp Htk Hrun)
    as (buys & _ & _ & Hcalls & _ & Hbuys & _).
  assert (keep_set w tickers date = ∅) as Hkeep.
  { unfold keep_set. by rewrite (analyse_nothing _ _ _ Hnone). }
  rewrite Hkeep in Hcalls, Hbuys.
  assert (buys = []) as ->.
  { destruct buys as [|c buys]; [done|].
    apply Forall_cons in Hbuys as [(_ & tk & _ & Hin & _) _].
    by apply elem_of_empty in Hin. }
  rewrite difference_empty_L, app_nil_r in Hcalls.
  apply new_calls_app in Hcalls. split; [|split].
  - eexists. split; [|exact Hcalls]. apply set_order_enumerates.
  - pose proof (rebalance_portfolio_outcome w date s df cp tickers Hdf Hcp Htk)
      as Hout.
    rewrite Hrun in Hout. cbn [fst] in Hout.
    destruct Hout as [->|[[-> Hzero]|(_ & _ & signal & Hin & _)]];
      [by left|by right|].
    rewrite (analyse_nothing _ _ _ Hnone) in Hin. by apply elem_of_nil in Hin.
  - intros tk Hheld [price Hprice]. exists price. rewrite Hcalls.
    apply elem_of_app. right. unfold sell_calls. apply list_elem_of_omap.
    exists tk. rewrite elem_of_set_order, elem_of_dom, Hprice. done.
Qed.

Lemma no_decision_sells_everything_witness :
  ∃ price,
    CallSell "AAA" price Scenario.monday2 Ledger.NO_SIGNAL
    ∈ new_calls Scenario.at_rebalance
        (rebalance_portfolio Scenario.quiet_world Scenario.monday2
           Scenario.at_rebalance).2.
Proof.
  pose proof (no_decision_sells_everything Scenario.quiet_world Scenario.monday2
                Scenario.at_rebalance Scenario.table Scenario.row_monday2
                Scenario.universe
                (rebalance_portfolio Scenario.quiet_world Scenario.monday2
                   Scenario.at_rebalance).1
                (rebalance_portfolio Scenario.quiet_world Scenario.monday2
                   Scenario.at_rebalance).2)
    as Hsold.
  destruct Hsold as (_ & _ & Hsold).
  - vm_compute. reflexivity.
  - vm_compute. reflexivity.
  - reflexivity.
  - intros tk _. reflexivity.
  - apply surjective_pairing.
  - apply Hsold; vm_compute; eauto.
Defined.

Lemma day_opened_books cp date s : same_books s (day_opened cp date s).
Proof. by repeat split. Qed.

Lemma run_day_effects w rd date s df cp tickers :
  price_data s = Some df → Universe.loc (Universe.rows df) date = Some cp →
  universe_tickers s = Some tickers →
  ∃ calls,
    ledger_calls (run_day w rd date s).2 = ledger_calls s ++ calls ∧
    price_data (run_day w rd date s).2 = Some df ∧
    universe_tickers (run_day w rd date s).2 = Some tickers ∧
    rebalance_frequency (run_day w rd date s).2 = rebalance_frequency s ∧
    verbose (run_day w rd date s).2 = verbose s ∧
    match (run_day w rd date s).1 with
    | Returns _ =>
        List.filter is_record_call calls = [CallRecordState date] ∧
        rebalance_dates (run_day w rd date s).2
        = rebalance_dates s ++ (if decide (date ∈ rd) then [date] else [])
    | Raises e => e = ZeroDivisionError ∨ (e = TypeError ∧ verbose s = true)
    end.
Proof.
  intros Hdf Hcp Htk. rewrite (run_day_run _ _ _ _ _ _ Hdf Hcp).
  pose proof (day_opened_calls cp date s) as Hopen.
  destruct (decide (date ∈ rd)) as [Hin|Hout].
  - assert (price_data (day_opened cp date s) = Some df) as Hdf3 by done.
    assert (universe_tickers (day_opened cp date s) = Some tickers) as Htk3 by done.
    pose proof (rebalance_portfolio_outcome w date (day_opened cp date s) df cp tickers
                  Hdf3 Hcp Htk3) as Hout.
    destruct (rebalance_portfolio w date (day_opened cp date s)) as [out4 s4] eqn:Hreb.
    destruct (rebalance_effects _ _ _ _ _ _ _ _ Hdf3 Hcp Htk3 Hreb)
      as (buys & _ & _ & Hcalls & _ & Hbuys & _).
    rewrite Hopen, <- !app_assoc in Hcalls.
    destruct (rebalance_books _ _ _ _ _ _ _ _ Hdf3 Hcp Htk3 Hreb)
      as (Hp & Hu & Hf & Hv & Hrec).
    cbn [fst] in Hout.
    destruct out4 as [[]|e]; cbn [fst snd].
    + destruct Hrec as [_ Hr].
      eexists. split; [|split; [|split; [|split; [|split]]]].
      * change (ledger_calls (day_closed date ?x)) with (ledger_calls x ++ [CallRecordState date]).
        rewrite Hcalls, <- !app_assoc. reflexivity.
      * exact Hp.
      * exact Hu.
      * exact Hf.
      * exact Hv.
      * split.
        -- simpl. rewrite !List.filter_app.
           rewrite (filter_none is_record_call (sell_calls _ _ _)).
           ++ rewrite (filter_none is_record_call buys); [done|].
              eapply Forall_impl; [exact Hbuys|]. intros c [Hbuy _]. by destruct c.
           ++ apply Forall_forall. intros c Hc. unfold sell_calls in Hc.
              apply list_elem_of_omap in Hc as (tk & _ & Hcall).
              destruct (cp !! tk); [|done]. simpl in Hcall. by injection Hcall as <-.
        -- exact Hr.
    + eexists. split; [exact Hcalls|]. split; [done|]. split; [done|].
      split; [done|]. split; [done|].
      destruct Hout as [?|[[[= ->] _]|([= ->] & Hverbose & _)]];
        [done|by left|by right].
  - cbn [fst snd]. eexists.
    split; [|split; [done|split; [done|split; [done|split; [done|]]]]].
    + change (ledger_calls (day_closed date ?x)) with (ledger_calls x ++ [CallRecordState date]).
      rewrite Hopen, <- !app_assoc. reflexivity.
    + split; [done|]. simpl. by rewrite app_nil_r.
Qed.

Lemma days_effects w rd df tickers l s :
  price_data s = Some df → universe_tickers s = Some tickers →
  (∀ d, d ∈ l → d ∈ Universe.index df) →
  ∃ calls,
    ledger_calls (for_each l (run_day w rd) s).2 = ledger_calls s ++ calls ∧
    price_data (for_each l (run_day w rd) s).2 = Some df ∧
    rebalance_frequency (for_each l (run_day w rd) s).2 = rebalance_frequency s ∧
    match (for_each l (run_day w rd) s).1 with
    | Returns _ =>
        List.filter is_record_call calls = map CallRecordState l ∧
        rebalance_dates (for_each l (run_day w rd) s).2
        = rebalance_dates s ++ List.filter (λ d, bool_decide (d ∈ rd)) l
    | Raises e => e = ZeroDivisionError ∨ (e = TypeError ∧ verbose s = true)
    end.
Proof.
  revert s. induction l as [|d l IH]; intros s Hdf Htk Hdates.
  - exists []. simpl. by rewrite !app_nil_r.
  - destruct (loc_index (Universe.rows df) d) as (cp & Hcp & _); [apply Hdates; by left|].
    destruct (run_day_effects w rd d s df cp tickers Hdf Hcp Htk)
      as (c1 & Hc1 & Hdf1 & Htk1 & Hfr1 & Hv1 & Hday).
    simpl. unfold bind.
    destruct (run_day w rd d s) as [[[]|e] s1]; cbn [fst snd] in *.
    + destruct (IH s1 Hdf1 Htk1) as (c2 & Hc2 & Hdf2 & Hfr2 & Hrest).
      { intros d' Hin. apply Hdates. by right. }
      exists (c1 ++ c2). split; [by rewrite Hc2, Hc1, <- app_assoc|]. split; [done|].
      split; [congruence|].
      destruct ((for_each l (run_day w rd) s1).1) as [[]|e].
      * destruct Hday as [Hrec1 Hreb1]. destruct Hrest as [Hrec2 Hreb2].
        split.
        -- by rewrite List.filter_app, Hrec1, Hrec2.
        -- rewrite Hreb2, Hreb1, <- app_assoc. f_equal.
           destruct (decide (d ∈ rd)) as [Hin|Hout].
           ++ by rewrite bool_decide_eq_true_2.
           ++ by rewrite bool_decide_eq_false_2.
      * by rewrite <- Hv1.
    + by exists c1.
Qed.

Lemma prepare_data_outcome w s :
  portfolio (prepare_data w s).2 = portfolio s ∧
  ledger_calls (prepare_data w s).2 = ledger_calls s ∧
  rebalance_dates (prepare_data w s).2 = rebalance_dates s ∧
  rebalance_frequency (prepare_data w s).2 = rebalance_frequency s ∧
  verbose (prepare_data w s).2 = verbose s ∧
  match (prepare_data w s).1 with
  | Returns _ =>
      ∃ df tickers, price_data (prepare_data w s).2 = Some df ∧
                    universe_tickers (prepare_data w s).2 = Some tickers ∧
                    (date_indexed (download w) → NoDup (Universe.index df))
  | Raises e =>
      (∃ n, e = UniverseTooSmall n ∧ (n < 10)%nat) ∨ e = PriceDownloadFailed
  end.
Proof.
  rewrite prepare_data_run. generalize (derived_universe w s). intros derived.
  unfold load_prices.
  destruct (universe_tickers s) as [explicit|] eqn:Htk.
  - destruct (Universe.empty _); cbn [fst snd]; repeat split; try done.
    + by right.
    + eexists _, _. split; [done|]. split; [done|]. apply table_index_nodup.
  - case_decide as Hsmall; cbn [fst snd].
    + repeat split; try done. left. by eexists.
    + destruct (Universe.empty _); cbn [fst snd]; repeat split; try done.
      * by right.
      * eexists _, _. split; [done|]. split; [done|]. apply table_index_nodup.
Qed.

Lemma get_rebalance_dates_depends s s' :
  rebalance_frequency s' = rebalance_frequency s → price_data s' = price_data s →
  (get_rebalance_dates s').1 = (get_rebalance_dates s).1 ∧ (get_rebalance_dates s').2 = s'.
Proof.
  intros Hf Hp. unfold get_rebalance_dates, the_price_data, bind, get, from_option.
  cbn beta iota. rewrite Hf.
  repeat case_decide; cbn beta iota; rewrite ?Hp; try done; by destruct (price_data s).
Qed.

Lemma filter_of_sublist (l' l : list Timestamp) :
  l' `sublist_of` l → NoDup l → List.filter (λ d, bool_decide (d ∈ l')) l = l'.
Proof.
  induction 1 as [|x l1 l2 Hsub IH|x l1 l2 Hsub IH]; intros Hnd; [done| |].
  - apply NoDup_cons in Hnd as [Hx Hnd]. simpl.
    rewrite bool_decide_eq_true_2 by by left. f_equal.
    etrans; [|exact (IH Hnd)]. apply List.filter_ext_in. intros d Hd.
    apply list_elem_of_In in Hd. apply bool_decide_ext. rewrite elem_of_cons.
    split; [|by right]. intros [->|?]; done.
  - apply NoDup_cons in Hnd as [Hx Hnd]. simpl.
    rewrite bool_decide_eq_false_2; [by apply IH|].
    intros Hin. apply Hx. eapply sublist_subseteq; done.
Qed.

Lemma get_rebalance_dates_loaded s df :
  price_data s = Some df →
  (∃ rd, get_rebalance_dates s = (Returns rd, s) ∧ rd `sublist_of` Universe.index df ∧
         rebalance_frequency s ∈ valid_frequencies) ∨
  (get_rebalance_dates s = (Raises (InvalidFrequency (rebalance_frequency s)), s) ∧
   rebalance_frequency s ∉ valid_frequencies).
Proof.
  intros Hdf. unfold get_rebalance_dates, the_price_data, bind, get, from_option.
  pose proof (valid_frequencies_elem (rebalance_frequency s)) as Hvalid.
  cbn beta iota.
  repeat case_decide; cbn beta iota; rewrite ?Hdf; cbn beta iota.
  - left. eexists. split; [done|]. split; [apply filter_sublist|]. apply Hvalid. tauto.
  - left. eexists. split; [done|]. split; [apply first_days_sublist|]. apply Hvalid. tauto.
  - left. eexists. split; [done|]. split; [apply quarterly_dates_sublist|].
    apply Hvalid. tauto.
  - right. split; [done|]. rewrite Hvalid. tauto.
Qed.

(** [run] after its three preparatory steps. *)
Lemma run_phases w s :
  let s1 := (prepare_data w s).2 in
  ledger_calls s1 = ledger_calls s ∧ rebalance_dates s1 = rebalance_dates s ∧
  rebalance_frequency s1 = rebalance_frequency s ∧ verbose s1 = verbose s ∧
  ((∃ e, run w s = (Raises e, s1) ∧
         ((∃ n, e = UniverseTooSmall n ∧ (n < 10)%nat) ∨ e = PriceDownloadFailed ∨
          (e = InvalidFrequency (rebalance_frequency s) ∧
           rebalance_frequency s ∉ valid_frequencies))) ∨
   (∃ df tickers rd,
      price_data s1 = Some df ∧ universe_tickers s1 = Some tickers ∧
      (date_indexed (download w) → NoDup (Universe.index df)) ∧
      get_rebalance_dates s1 = (Returns rd, s1) ∧
      rd `sublist_of` Universe.index df ∧
      rebalance_frequency s ∈ valid_frequencies ∧
      run w s = for_each (Universe.index df) (run_day w rd) s1)).
Proof.
  intros s1. destruct (prepare_data_outcome w s) as (_ & Hc & Hr & Hf & Hv & Hout).
  split; [done|]. split; [done|]. split; [done|]. split; [done|].
  unfold run, bind. subst s1.
  destruct (prepare_data w s) as [[[]|e] s1]; cbn [fst snd] in *.
  - destruct Hout as (df & tickers & Hdf & Htk & Hnd).
    destruct (get_rebalance_dates_loaded s1 df Hdf) as [(rd & Hrd & Hsub & Hin)|[Hrd Hin]].
    + right. exists df, tickers, rd. rewrite Hrd, <- Hf.
      repeat (split; [done|]).
      unfold the_price_data, bind, get, from_option. cbn beta iota. by rewrite Hdf.
    + left. rewrite Hrd. eexists. split; [done|]. right. right. by rewrite <- Hf.
  - left. exists e. split; [done|]. destruct Hout as [?|?]; [by left|right; by left].
Qed.



(** X14.  With date-indexed downloads, a run that completes has taken one
    snapshot per trading day of the price table, in calendar order, and has
    appended to [rebalance_dates] exactly the dates [get_rebalance_dates]
    gives, in their order. *)
Theorem completed_run_log w s s' :
  date_indexed (download w) →
  run w s = (Returns tt, s') →
  ∃ df rd,
    price_data s' = Some df ∧
    get_rebalance_dates s' = (Returns rd, s') ∧
    List.filter is_record_call (new_calls s s') = map CallRecordState (Universe.index df) ∧
    rebalance_dates s' = rebalance_dates s ++ rd.
Proof.
  intros Hdated Hrun.
  destruct (run_phases w s) as (Hc & Hrb & Hfr & _ & [(e' & Hr & He)|Hloop]).
  { rewrite Hr in Hrun. done. }
  destruct Hloop as (df & tickers & rd & Hdf & Htk & Hnd & Hrd & Hsub & _ & Hr).
  destruct (days_effects w rd df tickers (Universe.index df) _ Hdf Htk)
    as (calls & Hcalls & Hdf' & Hfr' & Hout); [done|].
  rewrite <- Hr, Hrun in Hcalls, Hdf', Hfr', Hout. cbn [fst snd] in *.
  destruct Hout as [Hrec Hreb].
  exists df, rd. split; [done|]. split.
  { destruct (get_rebalance_dates_depends (prepare_data w s).2 s') as [H1 H2];
      [done|congruence|].
    rewrite Hrd in H1. cbn [fst] in H1.
    destruct (get_rebalance_dates s') as [o t]. cbn [fst snd] in *. congruence. }
  assert (new_calls s s' = calls) as ->.
  { unfold new_calls. rewrite Hcalls, Hc. by rewrite drop_app_length. }
  split; [done|]. rewrite Hreb, Hrb. f_equal.
  apply filter_of_sublist; [done|by apply Hnd].
Qed.

Lemma completed_run_log_witness :
  ∃ df, price_data (run Scenario.world Scenario.engine).2 = Some df ∧
        List.filter is_record_call
          (new_calls Scenario.engine (run Scenario.world Scenario.engine).2)
        = map CallRecordState (Universe.index df).
Proof.
  pose proof (completed_run_log Scenario.world Scenario.engine
                (run Scenario.world Scenario.engine).2) as Hlog.
  destruct Hlog as (df & rd & Hdf & _ & Hrec & _).
  - exact scenario_downloads_dated.
  - transitivity ((run Scenario.world Scenario.engine).1,
                  (run Scenario.world Scenario.engine).2).
    + apply surjective_pairing.
    + assert ((run Scenario.world Scenario.engine).1 = Returns tt) as Hout
        by (vm_compute; reflexivity).
      rewrite Hout. reflexivity.
  - exists df. exact (conj Hdf Hrec).
Defined.

(* ===================================================================== *)
(** ** The scores of the analyst *)
(* ===================================================================== *)

Import Analyst.

Lemma Qlt_bool_iff x y : Qlt_bool x y = true ↔ (x < y)%Q.
Proof.
  unfold Qlt_bool. rewrite negb_true_iff. split.
  - intros H. apply Qnot_le_lt. intros Hle. apply Qle_bool_iff in Hle. congruence.
  - intros H. destruct (Qle_bool y x) eqn:Hle; [|done].
    apply Qle_bool_iff in Hle. lra.
Qed.

Lemma Qlt_bool_false x y : Qlt_bool x y = false ↔ (y <= x)%Q.
Proof.
  unfold Qlt_bool. rewrite negb_false_iff. apply Qle_bool_iff.
Qed.

Lemma pe_points_range pe : (0 <= pe_points pe <= 15)%Q.
Proof.
  unfold pe_points. destruct pe as [x|];
    bands_with Qlt_bool_iff Qlt_bool_false; lra.
Qed.

Lemma pb_points_range pb : (0 <= pb_points pb <= 10)%Q.
Proof.
  unfold pb_points. destruct pb as [x|];
    bands_with Qlt_bool_iff Qlt_bool_false; lra.
Qed.

Lemma ps_points_range ps : (0 <= ps_points ps <= 10)%Q.
Proof.
  unfold ps_points. destruct ps as [x|];
    bands_with Qlt_bool_iff Qlt_bool_false; lra.
Qed.

Lemma dy_points_range dy : (0 <= dy_points dy <= 5)%Q.
Proof.
  unfold dy_points. destruct dy as [x|];
    bands_with Qlt_bool_iff Qlt_bool_false; lra.
Qed.

Lemma net_margin_points_range m : (0 <= net_margin_points m <= 15)%Q.
Proof.
  unfold net_margin_points. destruct m as [x|];
    bands_with Qlt_bool_iff Qlt_bool_false; lra.
Qed.

Lemma roe_points_range m : (0 <= roe_points m <= 15)%Q.
Proof.
  unfold roe_points. destruct m as [x|];
    bands_with Qlt_bool_iff Qlt_bool_false; lra.
Qed.

Lemma op_margin_points_range m : (0 <= op_margin_points m <= 10)%Q.
Proof.
  unfold op_margin_points. destruct m as [x|];
    bands_with Qlt_bool_iff Qlt_bool_false; lra.
Qed.

Lemma de_penalty_range m : (0 <= de_penalty m <= 10)%Q.
Proof.
  unfold de_penalty. destruct m as [x|];
    bands_with Qlt_bool_iff Qlt_bool_false; lra.
Qed.

Lemma cr_penalty_range m : (0 <= cr_penalty m <= 10)%Q.
Proof.
  unfold cr_penalty. destruct m as [x|];
    bands_with Qlt_bool_iff Qlt_bool_false; lra.
Qed.

(** The three scores are the sums of their blocks: the final [min] and
    [max] never cut. *)
Lemma calculate_valuation_score_sum snapshot :
  (calculate_valuation_score snapshot
   == pe_points (safe_get snapshot "pe" None) + pb_points (safe_get snapshot "pb" None)
      + ps_points (safe_get snapshot "ps" None)
      + dy_points (safe_get snapshot "dividend_yield" None))%Q.
Proof.
  unfold calculate_valuation_score. cbv zeta.
  pose proof (pe_points_range (safe_get snapshot "pe" None)).
  pose proof (pb_points_range (safe_get snapshot "pb" None)).
  pose proof (ps_points_range (safe_get snapshot "ps" None)).
  pose proof (dy_points_range (safe_get snapshot "dividend_yield" None)).
  bands_with Qlt_bool_iff Qlt_bool_false; lra.
Qed.

Lemma calculate_quality_score_sum snapshot :
  (calculate_quality_score snapshot
   == net_margin_points (safe_get snapshot "net_margin" None)
      + roe_points (safe_get snapshot "roe" None)
      + op_margin_points (safe_get snapshot "op_margin" None))%Q.
Proof.
  unfold calculate_quality_score. cbv zeta.
  pose proof (net_margin_points_range (safe_get snapshot "net_margin" None)).
  pose proof (roe_points_range (safe_get snapshot "roe" None)).
  pose proof (op_margin_points_range (safe_get snapshot "op_margin" None)).
  bands_with Qlt_bool_iff Qlt_bool_false; lra.
Qed.

Lemma calculate_risk_score_sum snapshot :
  (calculate_risk_score snapshot
   == 20 - de_penalty (safe_get snapshot "debt_to_equity" None)
      - cr_penalty (safe_get snapshot "current_ratio" None))%Q.
Proof.
  unfold calculate_risk_score. cbv zeta.
  pose proof (de_penalty_range (safe_get snapshot "debt_to_equity" None)).
  pose proof (cr_penalty_range (safe_get snapshot "current_ratio" None)).
  bands_with Qlt_bool_iff Qlt_bool_false; lra.
Qed.

Lemma valuation_range snapshot : (0 <= calculate_valuation_score snapshot <= 40)%Q.
Proof.
  rewrite calculate_valuation_score_sum.
  pose proof (pe_points_range (safe_get snapshot "pe" None)).
  pose proof (pb_points_range (safe_get snapshot "pb" None)).
  pose proof (ps_points_range (safe_get snapshot "ps" None)).
  pose proof (dy_points_range (safe_get snapshot "dividend_yield" None)).
  lra.
Qed.

Lemma quality_range snapshot : (0 <= calculate_quality_score snapshot <= 40)%Q.
Proof.
  rewrite calculate_quality_score_sum.
  pose proof (net_margin_points_range (safe_get snapshot "net_margin" None)).
  pose proof (roe_points_range (safe_get snapshot "roe" None)).
  pose proof (op_margin_points_range (safe_get snapshot "op_margin" None)).
  lra.
Qed.

Lemma risk_range snapshot : (0 <= calculate_risk_score snapshot <= 20)%Q.
Proof.
  rewrite calculate_risk_score_sum.
  pose proof (de_penalty_range (safe_get snapshot "debt_to_equity" None)).
  pose proof (cr_penalty_range (safe_get snapshot "current_ratio" None)).
  lra.
Qed.

(** X15.  For every snapshot the valuation and quality scores lie in [0,
    40], the risk score in [0, 20], the total is their sum and lies in [0,
    100], and the confidence lies in [0, 1]. *)
Theorem scores_stay_in_range snapshot :
  let '(total, confidence, _) := run_analyst_scores snapshot in
  (0 <= calculate_valuation_score snapshot <= 40)%Q ∧
  (0 <= calculate_quality_score snapshot <= 40)%Q ∧
  (0 <= calculate_risk_score snapshot <= 20)%Q ∧
  (total == calculate_valuation_score snapshot + calculate_quality_score snapshot
            + calculate_risk_score snapshot)%Q ∧
  (0 <= total <= 100)%Q ∧ (0 <= confidence <= 1)%Q.
Proof.
  unfold run_analyst_scores, calculate_overall_score. cbv zeta.
  pose proof (valuation_range snapshot). pose proof (quality_range snapshot).
  pose proof (risk_range snapshot).
  repeat (split; [tauto || lra|]).
  destruct (Qlt_bool 0 (calculate_valuation_score snapshot)),
    (Qlt_bool 0 (calculate_quality_score snapshot)),
    (Qlt_bool 0 (calculate_risk_score snapshot)); vm_compute; intuition discriminate.
Qed.

(** X16.  The analyst suggests BUY only with at least 15 points of valuation
    and 15 of quality, HOLD only with at least 35 points of the two
    together, and either only with a confidence of at least 2/3; below a
    total of 55 it suggests SELL. *)
Theorem a_recommendation_needs_figures snapshot :
  let '(total, confidence, verdict) := run_analyst_scores snapshot in
  match verdict with
  | BUY => (75 <= total ∧ 15 <= calculate_valuation_score snapshot ∧
            15 <= calculate_quality_score snapshot ∧ 2 # 3 <= confidence)%Q
  | HOLD => (55 <= total < 75 ∧
             35 <= calculate_valuation_score snapshot + calculate_quality_score snapshot ∧
             2 # 3 <= confidence)%Q
  | SELL => (total < 55)%Q
  end.
Proof.
  unfold run_analyst_scores, calculate_overall_score. cbv zeta.
  pose proof (valuation_range snapshot) as Hv. pose proof (quality_range snapshot) as Hq.
  pose proof (risk_range snapshot) as Hr.
  set (v := calculate_valuation_score snapshot) in *.
  set (q := calculate_quality_score snapshot) in *.
  set (r := calculate_risk_score snapshot) in *.
  assert (∀ a b c : bool,
            ((if a then 1 else 0) + (if b then 1 else 0) + (if c then 1 else 0) >= 2)%Z →
            (2 # 3 <= inject_Z (Z.b2z a + Z.b2z b + Z.b2z c) / 3)%Q) as Hconf.
  { intros [] [] []; vm_compute; intuition discriminate. }
  assert (55 <= v + q + r → 2 # 3 <= inject_Z (Z.b2z (Qlt_bool 0 v) + Z.b2z (Qlt_bool 0 q)
                                               + Z.b2z (Qlt_bool 0 r)) / 3)%Q as Htwo.
  { intros Htot. apply Hconf.
    destruct (Qlt_bool 0 v) eqn:H1; [|apply Qlt_bool_false in H1];
      destruct (Qlt_bool 0 q) eqn:H2; [| apply Qlt_bool_false in H2| |apply Qlt_bool_false in H2];
      destruct (Qlt_bool 0 r) eqn:H3; try apply Qlt_bool_false in H3; try lia; lra. }
  destruct (Qle_bool 75 (v + q + r)) eqn:Hbuy.
  - apply Qle_bool_iff in Hbuy. split; [done|]. split; [lra|]. split; [lra|].
    apply Htwo. lra.
  - assert (v + q + r < 75)%Q as Hlt.
    { apply Qnot_le_lt. intros Hle. apply Qle_bool_iff in Hle. congruence. }
    destruct (Qle_bool 55 (v + q + r)) eqn:Hhold.
    + apply Qle_bool_iff in Hhold. split; [done|]. split; [lra|]. by apply Htwo.
    + apply Qnot_le_lt. intros Hle. apply Qle_bool_iff in Hle. congruence.
Qed.

(** X17.  A snapshot in which the nine ratios are absent or None scores 0
    for valuation, 0 for quality and the full 20 for risk: total 20,
    confidence 1/3, verdict SELL. *)
Theorem no_figures_means_sell (snapshot : Snapshot) :
  (∀ key, key ∈ valuation_fields ++ quality_fields ++ risk_fields →
          safe_get snapshot key None = None) →
  calculate_valuation_score snapshot = 0%Q ∧
  calculate_quality_score snapshot = 0%Q ∧
  calculate_risk_score snapshot = 20%Q ∧
  run_analyst_scores snapshot = (20%Q, 1 # 3, SELL).
Proof.
  intros Hnone.
  assert (∀ key,
            bool_decide (key ∈ valuation_fields ++ quality_fields ++ risk_fields) = true →
            safe_get snapshot key None = None) as Hget.
  { intros key Hin. apply Hnone. by apply bool_decide_eq_true in Hin. }
  unfold run_analyst_scores, calculate_valuation_score, calculate_quality_score,
    calculate_risk_score.
  rewrite !Hget by reflexivity. by vm_compute.
Qed.

Lemma no_figures_means_sell_witness :
  Analyst.run_analyst_scores Scenario.bare_snapshot = (20%Q, 1 # 3, SELL).
Proof.
  apply (no_figures_means_sell Scenario.bare_snapshot).
  intros key Hin. cbv [valuation_fields quality_fields risk_fields app] in Hin.
  in_list Hin; reflexivity.
Defined.

Lemma net_margin_points_mono m m' :
  (∀ x, m = Some x → ∃ y, m' = Some y ∧ (x <= y)%Q) →
  (net_margin_points m <= net_margin_points m')%Q.
Proof.
  intros H. destruct m as [x|]; [|apply net_margin_points_range].
  destruct (H x eq_refl) as (y & -> & Hle).
  unfold net_margin_points. bands_with Qlt_bool_iff Qlt_bool_false; lra.
Qed.

Lemma roe_points_mono m m' :
  (∀ x, m = Some x → ∃ y, m' = Some y ∧ (x <= y)%Q) →
  (roe_points m <= roe_points m')%Q.
Proof.
  intros H. destruct m as [x|]; [|apply roe_points_range].
  destruct (H x eq_refl) as (y & -> & Hle).
  unfold roe_points. bands_with Qlt_bool_iff Qlt_bool_false; lra.
Qed.

Lemma op_margin_points_mono m m' :
  (∀ x, m = Some x → ∃ y, m' = Some y ∧ (x <= y)%Q) →
  (op_margin_points m <= op_margin_points m')%Q.
Proof.
  intros H. destruct m as [x|]; [|apply op_margin_points_range].
  destruct (H x eq_refl) as (y & -> & Hle).
  unfold op_margin_points. bands_with Qlt_bool_iff Qlt_bool_false; lra.
Qed.

(** X18.  The quality score never falls when the net margin, the return on
    equity and the operating margin rise or start being reported. *)
Theorem quality_score_is_monotone snapshot snapshot' :
  at_least quality_fields snapshot snapshot' →
  (calculate_quality_score snapshot <= calculate_quality_score snapshot')%Q.
Proof.
  intros Hle. rewrite !calculate_quality_score_sum.
  assert (∀ key, bool_decide (key ∈ quality_fields) = true →
            ∀ x, safe_get snapshot key None = Some x →
                 ∃ y, safe_get snapshot' key None = Some y ∧ (x <= y)%Q) as H.
  { intros key Hin x. apply Hle. by apply bool_decide_eq_true in Hin. }
  pose proof (net_margin_points_mono _ _ (H "net_margin"%string eq_refl)).
  pose proof (roe_points_mono _ _ (H "roe"%string eq_refl)).
  pose proof (op_margin_points_mono _ _ (H "op_margin"%string eq_refl)).
  lra.
Qed.

Lemma quality_score_is_monotone_witness :
  (Analyst.calculate_quality_score Scenario.lean_snapshot
   <= Analyst.calculate_quality_score Scenario.strong_snapshot)%Q.
Proof.
  apply (quality_score_is_monotone Scenario.lean_snapshot Scenario.strong_snapshot).
  intros key x Hin Hget. cbv [quality_fields] in Hin.
  in_list Hin; vm_compute in Hget; try discriminate Hget.
  injection Hget as <-. exists (25 # 100)%Q. split; [reflexivity|]. vm_compute. discriminate.
Defined.

Lemma de_penalty_mono m m' :
  (∀ y, m' = Some y → ∃ x, m = Some x ∧ (y <= x)%Q) →
  (de_penalty m' <= de_penalty m)%Q.
Proof.
  intros H. destruct m' as [y|]; [|apply de_penalty_range].
  destruct (H y eq_refl) as (x & -> & Hle).
  unfold de_penalty. bands_with Qlt_bool_iff Qlt_bool_false; lra.
Qed.

Lemma cr_penalty_mono m m' :
  (∀ y, m' = Some y → ∃ x, m = Some x ∧ (x <= y)%Q) →
  (cr_penalty m' <= cr_penalty m)%Q.
Proof.
  intros H. destruct m' as [y|]; [|apply cr_penalty_range].
  destruct (H y eq_refl) as (x & -> & Hle).
  unfold cr_penalty. bands_with Qlt_bool_iff Qlt_bool_false; lra.
Qed.

(** X19.  The risk score never rises with more debt to equity or a lower
    current ratio, and a figure that is not reported counts as the best one. *)
Theorem risk_score_is_monotone snapshot snapshot' :
  (∀ y, safe_get snapshot' "debt_to_equity" None = Some y →
        ∃ x, safe_get snapshot "debt_to_equity" None = Some x ∧ (y <= x)%Q) →
  (∀ y, safe_get snapshot' "current_ratio" None = Some y →
        ∃ x, safe_get snapshot "current_ratio" None = Some x ∧ (x <= y)%Q) →
  (calculate_risk_score snapshot <= calculate_risk_score snapshot')%Q.
Proof.
  intros Hde Hcr. rewrite !calculate_risk_score_sum.
  pose proof (de_penalty_mono _ _ Hde). pose proof (cr_penalty_mono _ _ Hcr). lra.
Qed.

Lemma risk_score_is_monotone_witness :
  (Analyst.calculate_risk_score Scenario.lean_snapshot
   <= Analyst.calculate_risk_score Scenario.strong_snapshot)%Q.
Proof.
  apply (risk_score_is_monotone Scenario.lean_snapshot Scenario.strong_snapshot).
  - intros y Hget. vm_compute in Hget. injection Hget as <-.
    exists (18 # 10)%Q. split; [reflexivity|]. vm_compute. discriminate.
  - intros y Hget. vm_compute in Hget. discriminate Hget.
Defined.
